(** * pcbdl.kicad: the KiCad netlist importer

    A shallow embedding of [pcbdl/kicad.py] and the properties of its
    netlist loader.

    Conventions of the embedding.

    - The value returned by [sexpdata.loads] is a [sexp]: a symbol, a quoted
      string (a Python [str]), an integer, or a Python list.  The parser is
      read as sexpdata 0.0.3, the release of the time the module was
      written (2019): its [Symbol] is a class of its own, not a [str], it
      defines [__eq__] and no [__hash__], and a quoted string is a [str].
      Wrapping a list
      in [_Better_sexp] changes no content, so a wrapped list is the same
      [BList]; [isinstance(item, _Better_sexp)] is "the item is a [BList]".
    - A Python [str] is a [string] whose characters stand for code points
      below 256.
    - A raised exception is a value of [exn]; the text of a message is kept
      as the values that the source formats into it.
    - [print] and the registration of a net in the host's design context are
      effects on an explicit [world].
    - Reading and parsing the file ([open], [sexpdata.loads]) happen before
      anything modelled here; the loader is a function of the parsed tree. *)

From Stdlib Require Import List String Ascii ZArith Bool Arith Lia.
Import ListNotations.
Local Open Scope string_scope.
Local Open Scope list_scope.

Set Warnings "-register-all".

(** ** The parsed tree *)

Inductive sexp : Type :=
| Symbol (name : string)      (* sexpdata.Symbol *)
| Str (s : string)            (* a quoted string: a Python str *)
| Int (z : Z)                 (* a number *)
| BList (l : list sexp).      (* a list, wrapped as _Better_sexp *)

(** Python's [==] between two values read at different places of the tree.
    [Symbol.__eq__] compares class and name, [str] and [int] compare by
    value, values of different classes are unequal, and two [_Better_sexp]
    objects (the class defines no [__eq__]) are equal only when they are the
    same object, which two different places of a tree never hold. *)
Definition py_eq (a b : sexp) : bool :=
  match a, b with
  | Symbol x, Symbol y => String.eqb x y
  | Str x, Str y => String.eqb x y
  | Int x, Int y => Z.eqb x y
  | _, _ => false
  end.

(** Whether a value can be a [dict] key.  [sexpdata.Symbol] defines [__eq__]
    and no [__hash__], so hashing it raises [TypeError]; a [_Better_sexp] is
    hashed by identity. *)
Definition hashable (k : sexp) : bool :=
  match k with
  | Symbol _ => false
  | _ => true
  end.

(** ** The host's graph model *)

Module Host.

(** Modelled from the spec: [pcbdl.base.Pin], the element of a part class's
    [PINS]; the loader calls it as [Pin(pin_numbers, pin_names)], which the
    spec describes as a PinDefinition with the tokenized number set and the
    tokenized name-alias set.  [_kicad_pin] is the attribute that the loader
    attaches: the pin's [num], [name] and [type] after canonicalization. *)
Record Pin : Type := mkPin {
  numbers : list string;
  names : list string;
  _kicad_pin : sexp * sexp * sexp       (* num, name, type *)
}.

(** The classes that can stand among the bases of a class built by the
    loader: [KicadPart], and the two-terminal [R] and [C] of
    [pcbdl.small_parts]. *)
Inductive base_class : Type :=
| KicadPart
| R
| C.

(** The class that [_read_kicad_netlist_partcls] builds with [type]: one
    field per entry of [class_dict].  [__doc__] is the description followed
    by a rendering of the fields that are left after the three [pop]s; the
    record keeps the two parts, [_kicad_description] and [doc_fields]. *)
Record PartClass : Type := mkPartClass {
  class_name : string;
  parent_classes : list base_class;
  REFDES_PREFIX : sexp;
  class_value : sexp;
  class_package : sexp;
  PINS : list Pin;
  doc_fields : list (sexp * sexp);
  _kicad_source_structure : sexp;
  _kicad_part : sexp;
  _kicad_lib : sexp;
  _kicad_description : string
}.

(** Modelled from the spec: a pin of a part instance.  The instance's pins
    are copied from the template in order; a pin is one object, identified
    by the instance that owns it and its position there. *)
Record PartInstancePin : Type := mkPartInstancePin {
  pin_owner : nat;
  pin_index : nat;
  pin_def : Pin
}.

(** Modelled from the spec: [pcbdl.base.Part] instantiated through a class
    built by the loader.  [obj_id] is the identity of the Python object;
    [defined_at] is [None] until the loader assigns it. *)
Record PartInstance : Type := mkPartInstance {
  obj_id : nat;
  part_class : PartClass;
  refdes : sexp;
  value : sexp;
  package : sexp;
  pins : list PartInstancePin;
  defined_at : option string
}.

(** Modelled from the spec: [pcbdl.base.Net], a name, a provenance and the
    connected pins in the order they were connected. *)
Record Net : Type := mkNet {
  net_name : sexp;
  net_defined_at : option string;
  connections : list PartInstancePin
}.

(** Modelled from the spec: the default reference-designator prefix of the
    host's generic part, [KicadPart.REFDES_PREFIX]. *)
Definition default_REFDES_PREFIX : sexp := Str "U".

(** Modelled from the spec: the pins of an instance, copied in order from
    the template's pin definitions. *)
Fixpoint instantiate_pins (owner : nat) (i : nat) (ps : list Pin)
  : list PartInstancePin :=
  match ps with
  | [] => []
  | p :: ps' => mkPartInstancePin owner i p :: instantiate_pins owner (S i) ps'
  end.

(** Modelled from the spec: the constructor [part_class(refdes=, value=)]:
    the instance takes the refdes and the value it is given, the class's
    package, and pins instantiated from the class's [PINS]. *)
Definition new_part (id : nat) (cls : PartClass) (rd v : sexp) : PartInstance :=
  mkPartInstance id cls rd v (class_package cls)
                 (instantiate_pins id 0 (PINS cls)) None.

(** Modelled from the spec: the equality behind [pin not in n.connections];
    the connections of a net are deduplicated by pin identity, not by
    physical number, so two pins are equal when they are the same object. *)
Definition same_pin (a b : PartInstancePin) : bool :=
  Nat.eqb (pin_owner a) (pin_owner b) && Nat.eqb (pin_index a) (pin_index b).

(** What identifies a pin object. *)
Definition pin_key (p : PartInstancePin) : nat * nat :=
  (pin_owner p, pin_index p).

End Host.
Import Host.

(** ** Exceptions *)

Inductive exn : Type :=
| KeyError (key : string)
    (* raise KeyError(key): no child carries the tag *)
| KeyError_more_than_one (key : string)
    (* raise KeyError(f"More than one {key!r}, expected only one.") *)
| PartNotFoundException (libsource_tail : list sexp)
    (* raise PartNotFoundException(f"Can't find part {libsource[1:]} ...") *)
| KeyError_pin (pin_number : sexp) (part : PartInstance)
    (* raise KeyError(f"Couldn't find pin numbered {pin_number} on {part} ...") *)
| KeyError_dict (key : sexp)
    (* parts[key] with no such key *)
| IndexError
| AttributeError
| TypeError
| ValueError.

(** [isinstance(e, KeyError)], what [except KeyError] catches;
    [PartNotFoundException] is declared a subclass of [KeyError]. *)
Definition is_KeyError (e : exn) : bool :=
  match e with
  | KeyError _ | KeyError_more_than_one _ | PartNotFoundException _
  | KeyError_pin _ _ | KeyError_dict _ => true
  | IndexError | AttributeError | TypeError | ValueError => false
  end.

(** A computation without effects: [inl e] raises [e], [inr v] returns [v]. *)
Definition result (A : Type) : Type := (exn + A)%type.

Definition rbind {A B} (r : result A) (k : A -> result B) : result B :=
  match r with
  | inl e => inl e
  | inr a => k a
  end.

Notation "'let?' x ':=' r 'in' k" := (rbind r (fun x => k))
  (at level 10, x name, r at level 100, k at level 200).

(** A list comprehension whose element expression may raise. *)
Fixpoint rmap {A B} (f : A -> result B) (l : list A) : result (list B) :=
  match l with
  | [] => inr []
  | a :: l' =>
      let? b := f a in
      let? bs := rmap f l' in
      inr (b :: bs)
  end.

(** ** _Better_sexp *)

(** [self.l[key]] for an integer key. *)
Definition list_getitem (l : list sexp) (i : nat) : result sexp :=
  match nth_error l i with
  | Some x => inr x
  | None => inl IndexError
  end.

(** [item[0].value()] for a child [item] that is a [_Better_sexp] over [il]:
    an empty list has no element 0, and only a [Symbol] has [value]. *)
Definition tag_of (il : list sexp) : result string :=
  match il with
  | [] => inl IndexError
  | Symbol v :: _ => inr v
  | _ :: _ => inl AttributeError
  end.

(** One [next(iterator)] on the generator [find_all_iter(key)] whose loop
    still has the items [l] ahead: [inr None] is StopIteration, and
    [inr (Some (item, rest))] is the item yielded together with the items the
    suspended loop has left. *)
Fixpoint find_all_iter_next (key : string) (l : list sexp)
  : result (option (sexp * list sexp)) :=
  match l with
  | [] => inr None
  | item :: rest =>
      match item with
      | BList il =>
          let? v := tag_of il in
          if String.eqb v key then inr (Some (item, rest))
          else find_all_iter_next key rest
      | _ => find_all_iter_next key rest
      end
  end.

(** [_Better_sexp.__getitem__(key)] with a [str] key. *)
Definition getitem_str (l : list sexp) (key : string) : result sexp :=
  let? first := find_all_iter_next key l in
  match first with
  | None => inl (KeyError key)
  | Some (ret, rest) =>
      let? found_another := find_all_iter_next key rest in
      match found_another with
      | None => inr ret
      | Some _ => inl (KeyError_more_than_one key)
      end
  end.

(** [_Better_sexp.find_all(key)]: the generator run to its end. *)
Fixpoint find_all (l : list sexp) (key : string) : result (list sexp) :=
  match l with
  | [] => inr []
  | item :: rest =>
      match item with
      | BList il =>
          let? v := tag_of il in
          let? more := find_all rest key in
          inr (if String.eqb v key then item :: more else more)
      | _ => find_all rest key
      end
  end.

(** [_Better_sexp.keys()]: the generator [keys_iter] run to its end.  A child
    that is a list stands by its element 0, which an empty list does not
    have; any other child stands for itself. *)
Fixpoint keys (l : list sexp) : result (list sexp) :=
  match l with
  | [] => inr []
  | item :: rest =>
      match item with
      | BList il =>
          let? k := list_getitem il 0 in
          let? ks := keys rest in
          inr (k :: ks)
      | _ =>
          let? ks := keys rest in
          inr (item :: ks)
      end
  end.

(** [x.l] of a [_Better_sexp] object [x].  It is applied only to values that
    a [str]-keyed lookup has returned or has been applied to, which are
    [_Better_sexp] objects. *)
Definition items (x : sexp) : list sexp :=
  match x with
  | BList l => l
  | _ => []
  end.

(** [x[key]] with a [str] key, for any value [x] of the tree: subscripting a
    symbol or a number, and subscripting a [str] with a [str], raise
    [TypeError]. *)
Definition subscript_str (x : sexp) (key : string) : result sexp :=
  match x with
  | BList l => getitem_str l key
  | _ => inl TypeError
  end.

(** [x[key][1]] *)
Definition field (x : sexp) (key : string) : result sexp :=
  let? child := subscript_str x key in
  list_getitem (items child) 1.

(** [self[key][1:]] on the list of a [_Better_sexp]. *)
Definition getitem_section (l : list sexp) (key : string) : result (list sexp) :=
  let? child := getitem_str l key in
  inr (tl (items child)).

(** [x[key][1:]] *)
Definition section (x : sexp) (key : string) : result (list sexp) :=
  let? child := subscript_str x key in
  inr (tl (items child)).

(** ** Python dictionaries

    A [dict] keeps its keys in insertion order; assigning to a key that is
    present replaces the value in place. *)

Definition dict (V : Type) : Type := list (sexp * V).

Fixpoint dict_replace {V} (d : dict V) (k : sexp) (v : V) : option (dict V) :=
  match d with
  | [] => None
  | (k', v') :: d' =>
      if py_eq k' k then Some ((k', v) :: d')
      else match dict_replace d' k v with
           | Some d'' => Some ((k', v') :: d'')
           | None => None
           end
  end.

(** [d[k] = v] *)
Definition dict_set {V} (d : dict V) (k : sexp) (v : V) : result (dict V) :=
  if hashable k then
    match dict_replace d k v with
    | Some d' => inr d'
    | None => inr (d ++ [(k, v)])
    end
  else inl TypeError.

Fixpoint dict_find {V} (d : dict V) (k : sexp) : option V :=
  match d with
  | [] => None
  | (k', v) :: d' => if py_eq k' k then Some v else dict_find d' k
  end.

(** [d[k]] *)
Definition dict_get {V} (d : dict V) (k : sexp) : result V :=
  if hashable k then
    match dict_find d k with
    | Some v => inr v
    | None => inl (KeyError_dict k)
    end
  else inl TypeError.

Fixpoint dict_remove {V} (d : dict V) (k : sexp) : dict V :=
  match d with
  | [] => []
  | (k', v) :: d' => if py_eq k' k then d' else (k', v) :: dict_remove d' k
  end.

(** [d.pop(k, default)] for a [str] key [k]: the value and the dictionary
    that is left. *)
Definition dict_pop {V} (d : dict V) (k : sexp) (default : V) : V * dict V :=
  match dict_find d k with
  | Some v => (v, dict_remove d k)
  | None => (default, d)
  end.

(** ** The pin-name tokenizer *)

(** The characters that Python's [\s] matches in a [str] pattern, among the
    code points below 256. *)
Definition is_space (c : ascii) : bool :=
  let n := nat_of_ascii c in
  (((9 <=? n) && (n <=? 13)) || ((28 <=? n) && (n <=? 32))
   || (n =? 133) || (n =? 160))%nat.

(** The complement of the character class of
    [PIN_SPLITTER_RE = re.compile("[^\(\)/\s,]+")]. *)
Definition is_delimiter (c : ascii) : bool :=
  Ascii.eqb c "("%char || Ascii.eqb c ")"%char || Ascii.eqb c "/"%char
  || is_space c || Ascii.eqb c ","%char.

(** The scan of [PIN_SPLITTER_RE.findall]: [cur] is the match in progress
    (empty when the scan is between matches); the class is greedy, so a match
    ends only at a delimiter or at the end of the string. *)
Fixpoint findall_scan (cur : string) (s : string) : list string :=
  match s with
  | EmptyString => if String.eqb cur "" then [] else [cur]
  | String c s' =>
      if is_delimiter c then
        if String.eqb cur "" then findall_scan "" s'
        else cur :: findall_scan "" s'
      else findall_scan (cur ++ String c "")%string s'
  end.

Definition PIN_SPLITTER_RE_findall (s : string) : list string :=
  findall_scan "" s.

(** [tuple(PIN_SPLITTER_RE.findall(x))] for a value [x] of the tree:
    [findall] raises [TypeError] on anything that is not a [str]. *)
Definition findall (x : sexp) : result (list string) :=
  match x with
  | Str s => inr (PIN_SPLITTER_RE_findall s)
  | _ => inl TypeError
  end.

(** ** Part classes *)

(** The dictionary comprehension of [_read_fields], one field entry at a
    time: the key [f["name"][1]] is evaluated before the value [f[2]]. *)
Fixpoint read_fields_from (fs : list sexp) (d : dict sexp) : result (dict sexp) :=
  match fs with
  | [] => inr d
  | f :: fs' =>
      let? k := field f "name" in
      let? v := list_getitem (items f) 2 in
      let? d' := dict_set d k v in
      read_fields_from fs' d'
  end.

Definition _read_fields (part : sexp) : result (dict sexp) :=
  let? fs := section part "fields" in
  read_fields_from fs [].

(** [{key: pin[key][1] for key in ["num", "name", "type"]}] *)
Definition read_pin (pin : sexp) : result (sexp * sexp * sexp) :=
  let? num := field pin "num" in
  let? name := field pin "name" in
  let? type := field pin "type" in
  inr (num, name, type).

(** The body of the loop that fills [pcbdl_pins].  When [pin["num"]] is not
    a [str], ["P%s" % pin["num"]] is still a [str] and the [TypeError] is the
    one that [findall(pin["num"])] raises. *)
Definition make_pin (pin : sexp * sexp * sexp) : result Pin :=
  let '(num, name, type) := pin in
  let? name' :=
    if py_eq name (Str "~") then
      match num with
      | Str n => inr (Str ("P" ++ n)%string)
      | _ => inl TypeError
      end
    else inr name in
  let? pin_names := findall name' in
  let? pin_numbers := findall num in
  inr (mkPin pin_numbers pin_names (num, name', type)).

(** What [description + "\n\n"] accepts: a [str]. *)
Definition as_str (x : sexp) : result string :=
  match x with
  | Str s => inr s
  | _ => inl TypeError
  end.

Fixpoint contains_null (s : string) : bool :=
  match s with
  | EmptyString => false
  | String c s' => Ascii.eqb c Ascii.zero || contains_null s'
  end.

(** What [type] accepts as the name of a class: a [str], or it raises
    [TypeError], without a null character, or it raises [ValueError]. *)
Definition as_type_name (x : sexp) : result string :=
  match x with
  | Str s => if contains_null s then inl ValueError else inr s
  | _ => inl TypeError
  end.

(** The class of one libpart entry.  The three [pop]s come after the loop
    over the pins; [description + "\n\n" + ...] needs a [str] description
    and [type(part_name, ...)] a [str] name without a null character. *)
Definition _read_kicad_netlist_partcls (libpart : sexp) : result PartClass :=
  let? lib := field libpart "lib" in
  let? part_name := field libpart "part" in
  let? description := field libpart "description" in
  let? fields := _read_fields libpart in
  let? pin_entries := section libpart "pins" in
  let? pins := rmap read_pin pin_entries in
  let? pcbdl_pins := rmap make_pin pins in
  let '(refdes_prefix, fields) :=
    dict_pop fields (Str "Reference") default_REFDES_PREFIX in
  let '(class_value, fields) := dict_pop fields (Str "Value") (Str "") in
  let '(class_package, fields) := dict_pop fields (Str "Footprint") (Str "") in
  let? doc := as_str description in
  let parent_classes :=
    [KicadPart]
    ++ (if (List.length pcbdl_pins =? 2)%nat
        then (if py_eq refdes_prefix (Str "R") then [R] else [])
             ++ (if py_eq refdes_prefix (Str "C") then [C] else [])
        else []) in
  let? name := as_type_name part_name in
  inr (mkPartClass name parent_classes refdes_prefix class_value class_package
                   pcbdl_pins fields libpart part_name lib doc).

(** ** Effects *)

(** A line written by [print]. *)
Inductive line : Type :=
| does_not_have_a_footprint_defined (part_instance : PartInstance).

(** What a load acts on besides its result: the standard output, the nets
    registered in the host's design context, and the number of part objects
    created so far (the next object's identity). *)
Record world : Type := mkWorld {
  stdout : list line;
  nets : list Net;
  next_obj_id : nat
}.

Definition empty_world : world := mkWorld [] [] 0.

(** A computation with effects: it leaves a world behind whether it returns
    or raises. *)
Definition M (A : Type) : Type := world -> world * result A.

Definition ret {A} (a : A) : M A := fun w => (w, inr a).
Definition raise {A} (e : exn) : M A := fun w => (w, inl e).
Definition lift {A} (r : result A) : M A := fun w => (w, r).

Definition bind {A B} (m : M A) (k : A -> M B) : M B :=
  fun w =>
    match m w with
    | (w', inl e) => (w', inl e)
    | (w', inr a) => k a w'
    end.

Notation "x <- m ;; k" := (bind m (fun x => k))
  (at level 61, m at next level, right associativity).

Definition print (l : line) : M unit :=
  fun w => (mkWorld (stdout w ++ [l]) (nets w) (next_obj_id w), inr tt).

(** The instantiation [part_class(refdes=..., value=...)]: a new object,
    built by the host's constructor [new_part]. *)
Definition instantiate (cls : PartClass) (rd v : sexp) : M PartInstance :=
  fun w => (mkWorld (stdout w) (nets w) (S (next_obj_id w)),
            inr (new_part (next_obj_id w) cls rd v)).

(** Modelled from the spec: constructing a net registers it in the host's
    design context, and [n << pin] adds the pin to its connections.  The
    registered net is [n = Net(name)] with [n.defined_at = filename] and the
    connections made until the loop over the nodes ended, as the context
    holds it then. *)
Definition register_net (n : Net) : M unit :=
  fun w => (mkWorld (stdout w) (nets w ++ [n]) (next_obj_id w), inr tt).

Definition set_package (p : PartInstance) (v : sexp) : PartInstance :=
  mkPartInstance (obj_id p) (part_class p) (refdes p) (value p) v (pins p)
                 (defined_at p).

Definition set_defined_at (p : PartInstance) (f : string) : PartInstance :=
  mkPartInstance (obj_id p) (part_class p) (refdes p) (value p) (package p)
                 (pins p) (Some f).

(** ** Populating the parts *)

(** The [for part_class in part_classes: ... break] scan; [None] is the
    [else] branch of the loop. *)
Fixpoint find_part_class (part_classes : list PartClass) (lib part_name : sexp)
  : option PartClass :=
  match part_classes with
  | [] => None
  | cls :: rest =>
      if py_eq (_kicad_lib cls) lib && py_eq (_kicad_part cls) part_name
      then Some cls
      else find_part_class rest lib part_name
  end.

(** The body of the loop over the components, up to the assignment of
    [defined_at]: the instance that is about to be stored. *)
Definition make_part_instance (part_classes : list PartClass) (filename : string)
    (component : sexp) : M PartInstance :=
  libsource <- lift (subscript_str component "libsource") ;;
  lib <- lift (field libsource "lib") ;;
  part_name <- lift (field libsource "part") ;;
  part_class <-
    match find_part_class part_classes lib part_name with
    | Some cls => ret cls
    | None => raise (PartNotFoundException (tl (items libsource)))
    end ;;
  rd <- lift (field component "ref") ;;
  v <- lift (field component "value") ;;
  part_instance <- instantiate part_class rd v ;;
  part_instance <-
    match field component "footprint" with
    | inr footprint => ret (set_package part_instance footprint)
    | inl e =>
        if is_KeyError e then
          _ <- print (does_not_have_a_footprint_defined part_instance) ;;
          ret part_instance
        else raise e
    end ;;
  ret (set_defined_at part_instance filename).

(** One iteration of the loop: [parts[part_instance.refdes] = part_instance]. *)
Definition populate_part (part_classes : list PartClass) (filename : string)
    (parts : dict PartInstance) (component : sexp) : M (dict PartInstance) :=
  part_instance <- make_part_instance part_classes filename component ;;
  lift (dict_set parts (refdes part_instance) part_instance).

Fixpoint populate_parts (part_classes : list PartClass) (filename : string)
    (parts : dict PartInstance) (components : list sexp)
  : M (dict PartInstance) :=
  match components with
  | [] => ret parts
  | component :: rest =>
      parts' <- populate_part part_classes filename parts component ;;
      populate_parts part_classes filename parts' rest
  end.

(** ** Nets *)

(** [pin_number in pin.numbers]: the numbers are [str]s, which only a [str]
    equals. *)
Definition number_in (pin_number : sexp) (numbers : list string) : bool :=
  match pin_number with
  | Str s => existsb (String.eqb s) numbers
  | _ => false
  end.

(** The [for pin in part.pins: ... break] scan; [None] is its [else]. *)
Fixpoint find_pin (pins : list PartInstancePin) (pin_number : sexp)
  : option PartInstancePin :=
  match pins with
  | [] => None
  | pin :: rest =>
      if number_in pin_number (numbers (pin_def pin)) then Some pin
      else find_pin rest pin_number
  end.

(** The body of the loop over the nodes of a net whose connections are
    [conns]: the connections after the node. *)
Definition connect_node (parts : dict PartInstance)
    (conns : list PartInstancePin) (node : sexp)
  : result (list PartInstancePin) :=
  let? pin_number := field node "pin" in
  let? rd := field node "ref" in
  let? part := dict_get parts rd in
  match find_pin (pins part) pin_number with
  | None => inl (KeyError_pin pin_number part)
  | Some pin =>
      if existsb (same_pin pin) conns then inr conns
      else inr (conns ++ [pin])
  end.

(** The loop over the nodes: the connections of the net when the loop ends,
    and how it ends. *)
Fixpoint connect_nodes (parts : dict PartInstance)
    (conns : list PartInstancePin) (nodes : list sexp)
  : list PartInstancePin * result unit :=
  match nodes with
  | [] => (conns, inr tt)
  | node :: rest =>
      match connect_node parts conns node with
      | inl e => (conns, inl e)
      | inr conns' => connect_nodes parts conns' rest
      end
  end.

(** [name.startswith("Net-")]: only a [str] has the method. *)
Definition startswith_Net (name : sexp) : result bool :=
  match name with
  | Str s => inr (String.prefix "Net-" s)
  | _ => inl AttributeError
  end.

(** [len(nodes) == 1 and name.startswith("Net-")] *)
Definition is_no_connect (nodes : list sexp) (name : sexp) : result bool :=
  if (List.length nodes =? 1)%nat then startswith_Net name else inr false.

(** The body of the loop over the nets. *)
Definition build_net (parts : dict PartInstance) (filename : string)
    (net_sexp : sexp) : M unit :=
  name <- lift (field net_sexp "name") ;;
  nodes <- lift (find_all (items net_sexp) "node") ;;
  skip <- lift (is_no_connect nodes name) ;;
  if (skip : bool) then ret tt
  else
    let '(conns, outcome) := connect_nodes parts [] nodes in
    _ <- register_net (mkNet name (Some filename) conns) ;;
    lift outcome.

Fixpoint build_nets (parts : dict PartInstance) (filename : string)
    (net_sexps : list sexp) : M unit :=
  match net_sexps with
  | [] => ret tt
  | net_sexp :: rest =>
      _ <- build_net parts filename net_sexp ;;
      build_nets parts filename rest
  end.

(** ** The loader *)

(** [_Better_sexp(input).l] for the parsed value: a list is taken as it is,
    a [str] is iterated character by character, and anything else is not
    iterable. *)
Definition Better_sexp_init (input : sexp) : result (list sexp) :=
  match input with
  | BList l => inr l
  | Str s => inr (map (fun c => Str (String c "")) (list_ascii_of_string s))
  | _ => inl TypeError
  end.

(** The load up to the loop over the nets: the part mapping and the entries
    of the [nets] section. *)
Definition load_parts (filename : string) (netlist_contents : list sexp)
  : M (dict PartInstance * list sexp) :=
  libparts <- lift (getitem_section netlist_contents "libparts") ;;
  part_classes <- lift (rmap _read_kicad_netlist_partcls libparts) ;;
  components <- lift (getitem_section netlist_contents "components") ;;
  parts <- populate_parts part_classes filename [] components ;;
  net_sexps <- lift (getitem_section netlist_contents "nets") ;;
  ret (parts, net_sexps).

Definition read_kicad_netlist (filename : string) (parsed : sexp)
  : M (dict PartInstance * sexp) :=
  netlist_contents <- lift (Better_sexp_init parsed) ;;
  loaded <- load_parts filename netlist_contents ;;
  _ <- build_nets (fst loaded) filename (snd loaded) ;;
  ret (fst loaded, BList netlist_contents).

(** * Vocabulary of the statements *)

(** A child that is an indexed list carrying the tag [key]. *)
Definition tagged (key : string) (item : sexp) : bool :=
  match item with
  | BList (Symbol v :: _) => String.eqb v key
  | _ => false
  end.

(** A child that the scan of [find_all_iter] passes without raising: an atom,
    or a list that begins with a symbol. *)
Definition scannable (item : sexp) : bool :=
  match item with
  | BList (Symbol _ :: _) => true
  | BList _ => false
  | _ => true
  end.

(** The first child tagged [key] and the children after it. *)
Fixpoint first_tagged (key : string) (l : list sexp) : option (sexp * list sexp) :=
  match l with
  | [] => None
  | item :: rest =>
      if tagged key item then Some (item, rest) else first_tagged key rest
  end.

(** The statement of the unique-by-tag lookup over every list. *)
Definition unique_by_tag_on (l : list sexp) (key : string) : Prop :=
  match filter (tagged key) l with
  | [] => getitem_str l key = inl (KeyError key)
  | [item] => getitem_str l key = inr item
  | _ :: _ :: _ => getitem_str l key = inl (KeyError_more_than_one key)
  end.

(** The pieces of [s] between its delimiter characters (one more piece than
    there are delimiters, some of them empty). *)
Fixpoint split_at_delimiters (s : string) : list string :=
  match s with
  | EmptyString => [""]
  | String c s' =>
      if is_delimiter c then "" :: split_at_delimiters s'
      else match split_at_delimiters s' with
           | p :: ps => String c p :: ps
           | [] => [String c ""]
           end
  end.

Definition nonempty (t : string) : bool := negb (String.eqb t "").

(** Splitting on runs of delimiters, in the spec's words: the pieces between
    delimiters, without the empty pieces that adjacent delimiters (or a
    delimiter at either end) leave. *)
Definition split_on_delimiter_runs (s : string) : list string :=
  filter nonempty (split_at_delimiters s).

Fixpoint has_delimiter (s : string) : bool :=
  match s with
  | EmptyString => false
  | String c s' => is_delimiter c || has_delimiter s'
  end.

(** The statement that a pin named [~] gets the single name [P<num>],
    untokenized. *)
Definition placeholder_name_untokenized : Prop :=
  forall (num : string) (type : sexp),
    exists p, make_pin (Str num, Str "~", type) = inr p
              /\ names p = [("P" ++ num)%string].

Definition class_matches (lib part_name : sexp) (cls : PartClass) : bool :=
  py_eq (_kicad_lib cls) lib && py_eq (_kicad_part cls) part_name.

(** What the part of the loop body before the store does with a component
    whose class is found and whose [ref] and [value] can be read. *)
Definition part_instance_outcome (filename : string) (component : sexp)
    (cls : PartClass) (rd v : sexp) (w : world) : world * result PartInstance :=
  let inst := new_part (next_obj_id w) cls rd v in
  match field component "footprint" with
  | inr footprint =>
      (mkWorld (stdout w) (nets w) (S (next_obj_id w)),
       inr (set_defined_at (set_package inst footprint) filename))
  | inl e =>
      if is_KeyError e then
        (mkWorld (stdout w ++ [does_not_have_a_footprint_defined inst])
                 (nets w) (S (next_obj_id w)),
         inr (set_defined_at inst filename))
      else (mkWorld (stdout w) (nets w) (S (next_obj_id w)), inl e)
  end.

Definition net_without_duplicates (n : Net) : Prop :=
  NoDup (map pin_key (connections n)).

Definition nets_without_duplicates (w : world) : Prop :=
  Forall net_without_duplicates (nets w).

(** [s] without its delimiter characters. *)
Fixpoint without_delimiters (s : string) : string :=
  match s with
  | EmptyString => EmptyString
  | String c s' =>
      if is_delimiter c then without_delimiters s'
      else String c (without_delimiters s')
  end.

(** A token: a non-empty string without a delimiter. *)
Definition is_token (t : string) : Prop :=
  t <> "" /\ has_delimiter t = false.

(** No two keys of the dictionary are equal. *)
Fixpoint keys_unique {V} (d : dict V) : Prop :=
  match d with
  | [] => True
  | (k, _) :: d' => dict_find d' k = None /\ keys_unique d'
  end.

(** No two values of the list are equal for Python's [==]. *)
Fixpoint py_distinct (l : list sexp) : bool :=
  match l with
  | [] => true
  | k :: l' => forallb (fun k' => negb (py_eq k k')) l' && py_distinct l'
  end.

(** What holds of every entry of the mapping that a load builds from the
    classes [part_classes]: the key is the instance's refdes, the instance
    records the file, its class is one of the catalog, and its pins are the
    class's pins, in order, owned by the instance. *)
Definition loaded_entry (part_classes : list PartClass) (filename : string)
    (kv : sexp * PartInstance) : Prop :=
  refdes (snd kv) = fst kv
  /\ defined_at (snd kv) = Some filename
  /\ In (part_class (snd kv)) part_classes
  /\ map pin_def (pins (snd kv)) = PINS (part_class (snd kv))
  /\ Forall (fun pin => pin_owner pin = obj_id (snd kv)) (pins (snd kv)).

(** A pin of a part that the mapping holds. *)
Definition pin_of_mapping (parts : dict PartInstance) (pin : PartInstancePin)
  : Prop :=
  exists k part, In (k, part) parts /\ In pin (pins part).

(** The value of the last field entry named [k] among [fs], if any: an
    entry is [(field (name k) v)], its name at [f["name"][1]] and its value
    at [f[2]]. *)
Fixpoint last_field_named (k : sexp) (fs : list sexp) : option sexp :=
  match fs with
  | [] => None
  | f :: fs' =>
      match last_field_named k fs' with
      | Some v => Some v
      | None =>
          match field f "name", list_getitem (items f) 2 with
          | inr k', inr v => if py_eq k' k then Some v else None
          | _, _ => None
          end
      end
  end.

(** [d.get(k, default)] *)
Definition dict_find_default {V} (d : dict V) (k : sexp) (default : V) : V :=
  match dict_find d k with
  | Some v => v
  | None => default
  end.

(** The pin definition [pin] is the one built from the entry [entry] of a
    [pins] section: the entry's number is a string, which tokenized gives
    the pin's numbers, and [make_pin] on the entry's three fields gives the
    pin. *)
Definition pin_of_entry (entry : sexp) (pin : Pin) : Prop :=
  exists num name type,
    field entry "num" = inr (Str num)
    /\ field entry "name" = inr name
    /\ field entry "type" = inr type
    /\ numbers pin = PIN_SPLITTER_RE_findall num
    /\ make_pin (Str num, name, type) = inr pin.

(** What the loop over the nets adds to the context. *)
Definition nets_added_by (parts : dict PartInstance) (filename : string)
    (entries : nat) (w w' : world) : Prop :=
  exists added,
    w' = mkWorld (stdout w) (nets w ++ added) (next_obj_id w)
    /\ List.length added <= entries
    /\ Forall (fun n => net_defined_at n = Some filename
                        /\ Forall (pin_of_mapping parts) (connections n))
              added.

(** The dictionary after [d[k] = v] for a key that can be hashed: the value
    replaced in place when the key is there, the entry appended otherwise. *)
Definition dict_updated {V} (d : dict V) (k : sexp) (v : V) : dict V :=
  match dict_replace d k v with
  | Some d' => d'
  | None => d ++ [(k, v)]
  end.

(** ** A sample netlist *)

Module Sample.

Definition tag (t : string) (v : sexp) : sexp := BList [Symbol t; v].

Definition pin_entry (num name : string) : sexp :=
  BList [Symbol "pin"; tag "num" (Str num); tag "name" (Str name);
         tag "type" (Str "passive")].

Definition libpart (lib part : string) (pins : list sexp) : sexp :=
  BList [Symbol "libpart"; tag "lib" (Str lib); tag "part" (Str part);
         tag "description" (Str "Resistor");
         BList [Symbol "fields";
                BList [Symbol "field"; tag "name" (Str "Reference"); Str "R"];
                BList [Symbol "field"; tag "name" (Str "Value"); Str "R"]];
         BList (Symbol "pins" :: pins)].

(** A resistor whose first logical pin is unnamed and ganged on the physical
    pins 1 and 3. *)
Definition R_libpart : sexp :=
  libpart "Device" "R" [pin_entry "1,3" "~"; pin_entry "2" "A/B"].

Definition R_class : PartClass :=
  mkPartClass "R" [KicadPart; R] (Str "R") (Str "R") (Str "")
    [mkPin ["1"; "3"] ["P1"; "3"] (Str "1,3", Str "P1,3", Str "passive");
     mkPin ["2"] ["A"; "B"] (Str "2", Str "A/B", Str "passive")]
    [] R_libpart (Str "R") (Str "Device") "Resistor".

(** A second entry for the same (library, part) pair, with other pins. *)
Definition R_libpart_again : sexp :=
  libpart "Device" "R" [pin_entry "1" "~"; pin_entry "2" "~"].

Definition R_class_again : PartClass :=
  mkPartClass "R" [KicadPart; R] (Str "R") (Str "R") (Str "")
    [mkPin ["1"] ["P1"] (Str "1", Str "P1", Str "passive");
     mkPin ["2"] ["P2"] (Str "2", Str "P2", Str "passive")]
    [] R_libpart_again (Str "R") (Str "Device") "Resistor".

Definition libsource (lib part : string) : sexp :=
  BList [Symbol "libsource"; tag "lib" (Str lib); tag "part" (Str part);
         tag "description" (Str "Resistor")].

Definition comp (ref value part : string) : sexp :=
  BList [Symbol "comp"; tag "ref" (Str ref); tag "value" (Str value);
         libsource "Device" part].

Definition comp_with_footprint (ref value part footprint : string) : sexp :=
  BList [Symbol "comp"; tag "ref" (Str ref); tag "value" (Str value);
         tag "footprint" (Str footprint); libsource "Device" part].

Definition node (ref pin : string) : sexp :=
  BList [Symbol "node"; tag "ref" (Str ref); tag "pin" (Str pin)].

Definition net (name : string) (nodes : list sexp) : sexp :=
  BList (Symbol "net" :: tag "code" (Str "1") :: tag "name" (Str name) :: nodes).

Definition export (components libparts nets : list sexp) : sexp :=
  BList [Symbol "export";
         BList (Symbol "components" :: components);
         BList (Symbol "libparts" :: libparts);
         BList (Symbol "nets" :: nets)].

(** Two resistors; [GND] reaches the ganged pin of [R1] through both of its
    physical numbers. *)
Definition netlist : sexp :=
  export [comp "R1" "10k" "R"; comp "R2" "10k" "R"]
         [R_libpart]
         [net "GND" [node "R1" "1"; node "R1" "3"; node "R2" "2"];
          net "Net-(R1-Pad2)" [node "R1" "2"];
          net "Net-(R2-Pad1)" [node "R1" "2"; node "R2" "1"]].

(** The second component names a part that no libpart entry describes. *)
Definition netlist_unknown_part : sexp :=
  export [comp "R1" "10k" "R"; comp "Q1" "BC547" "Q_NPN"]
         [R_libpart]
         [].

(** The second node of [GND] names a pin that [R1] does not have. *)
Definition netlist_unknown_pin : sexp :=
  export [comp "R1" "10k" "R"]
         [R_libpart]
         [net "GND" [node "R1" "1"; node "R1" "9"]].

(** [R1] is listed twice, with two values. *)
Definition netlist_duplicate_refdes : sexp :=
  export [comp "R1" "10k" "R"; comp "R2" "10k" "R"; comp "R1" "22k" "R"]
         [R_libpart]
         [net "GND" [node "R1" "1"; node "R2" "2"]].

(** Two libpart entries describe the same (library, part) pair. *)
Definition netlist_two_templates : sexp :=
  export [comp "R1" "10k" "R"]
         [R_libpart; R_libpart_again]
         [net "GND" [node "R1" "1"]].

(** [R1] comes with a footprint, [R2] without. *)
Definition netlist_with_footprint : sexp :=
  export [comp_with_footprint "R1" "10k" "R" "R_0603"; comp "R2" "10k" "R"]
         [R_libpart]
         [net "GND" [node "R1" "1"; node "R2" "2"]].

End Sample.

(** * Properties *)

(** ** Monadic plumbing *)

Lemma rbind_inr {A B} (r : result A) (k : A -> result B) (b : B) :
  rbind r k = inr b -> exists a, r = inr a /\ k a = inr b.
Proof.
  destruct r as [e | a]; simpl; intros H.
  - discriminate.
  - exists a; split; [reflexivity | exact H].
Qed.

Lemma bind_lift {A B} (r : result A) (k : A -> M B) (w : world) :
  bind (lift r) k w = match r with inl e => (w, inl e) | inr a => k a w end.
Proof. unfold bind, lift. destruct r; reflexivity. Qed.

Lemma bind_ret {A B} (a : A) (k : A -> M B) (w : world) :
  bind (ret a) k w = k a w.
Proof. reflexivity. Qed.

Lemma bind_raise {A B} (e : exn) (k : A -> M B) (w : world) :
  bind (raise e) k w = (w, inl e).
Proof. reflexivity. Qed.

Lemma bind_ok {A B} (m : M A) (k : A -> M B) (w w' : world) (a : A) :
  m w = (w', inr a) -> bind m k w = k a w'.
Proof. unfold bind. intros ->. reflexivity. Qed.

Lemma bind_fail {A B} (m : M A) (k : A -> M B) (w w' : world) (e : exn) :
  m w = (w', inl e) -> bind m k w = (w', inl e).
Proof. unfold bind. intros ->. reflexivity. Qed.

Lemma bind_inr {A B} (m : M A) (k : A -> M B) (w w' : world) (b : B) :
  bind m k w = (w', inr b) ->
  exists w1 a, m w = (w1, inr a) /\ k a w1 = (w', inr b).
Proof.
  unfold bind. destruct (m w) as [w1 [e | a]]; intros H.
  - discriminate.
  - exists w1, a. split; [reflexivity | exact H].
Qed.

(** ** The tagged-tree index *)

Lemma find_all_iter_next_scannable key l :
  forallb scannable l = true ->
  find_all_iter_next key l = inr (first_tagged key l).
Proof.
  induction l as [| item rest IH]; simpl; intros H.
  - reflexivity.
  - apply andb_prop in H. destruct H as [Hi Hr].
    destruct item as [s | s | z | il]; simpl; auto.
    destruct il as [| hd tl']; simpl in *; [discriminate |].
    destruct hd; simpl in *; try discriminate.
    destruct (String.eqb name key); auto.
Qed.

Lemma first_tagged_none key l :
  first_tagged key l = None -> filter (tagged key) l = [].
Proof.
  induction l as [| item rest IH]; simpl; intros H.
  - reflexivity.
  - destruct (tagged key item); [discriminate | auto].
Qed.

Lemma first_tagged_some key l item rest :
  first_tagged key l = Some (item, rest) ->
  filter (tagged key) l = item :: filter (tagged key) rest
  /\ tagged key item = true
  /\ exists before, l = before ++ item :: rest
                    /\ forallb (fun x => negb (tagged key x)) before = true.
Proof.
  induction l as [| x l' IH]; simpl; intros H.
  - discriminate.
  - destruct (tagged key x) eqn:Hx.
    + inversion H; subst. repeat split; auto.
      exists []. split; reflexivity.
    + destruct (IH H) as (Hf & Ht & before & Hl & Hb).
      repeat split; auto.
      exists (x :: before). simpl. rewrite Hx, Hb, Hl. split; reflexivity.
Qed.

Lemma forallb_scannable_app l1 l2 :
  forallb scannable (l1 ++ l2) = true -> forallb scannable l2 = true.
Proof.
  rewrite forallb_app. intros H. apply andb_prop in H. tauto.
Qed.

(** What a [str]-keyed lookup returns is a child of the list, and an indexed
    list carrying the tag. *)
Lemma getitem_str_inr l key item :
  getitem_str l key = inr item ->
  In item l /\ exists rest, item = BList (Symbol key :: rest).
Proof.
  unfold getitem_str. intros H.
  apply rbind_inr in H. destruct H as (first & H1 & H).
  destruct first as [[ret0 rest] |]; [| discriminate].
  apply rbind_inr in H. destruct H as (another & _ & H).
  destruct another; [discriminate |]. inversion H; subst ret0. clear H.
  revert H1. induction l as [| x l' IH]; simpl; intros H1.
  - discriminate.
  - destruct x as [s | s | z | il];
      try (destruct (IH H1) as [Hin Hex]; split; [right; exact Hin | exact Hex]).
    apply rbind_inr in H1. destruct H1 as (v & Hv & H1).
    destruct (String.eqb v key) eqn:E.
    + inversion H1; subst. split; [left; reflexivity |].
      apply String.eqb_eq in E. subst v.
      destruct il as [| hd tl']; simpl in Hv; [discriminate |].
      destruct hd; try discriminate. inversion Hv; subst. eauto.
    + destruct (IH H1) as [Hin Hex]. split; [right; exact Hin | exact Hex].
Qed.

Lemma getitem_str_items l key item :
  getitem_str l key = inr item -> item = BList (items item).
Proof.
  intros H. apply getitem_str_inr in H. destruct H as [_ [rest ->]]. reflexivity.
Qed.

(** C7, as stated, fails: a child that is an empty list stops the scan with
    an [IndexError] before the only child tagged [b] is reached. *)
Lemma getitem_str_empty_child_counterexample :
  ~ (forall l key, unique_by_tag_on l key).
Proof.
  intros H.
  specialize (H [Symbol "top"; BList []; BList [Symbol "b"; Int 1]] "b").
  unfold unique_by_tag_on in H. simpl in H. discriminate H.
Qed.

(** Over a list that the scan passes without raising, the lookup is decided
    by the children tagged [key]. *)
Lemma getitem_str_by_tagged_children (l : list sexp) (key : string) :
  forallb scannable l = true -> unique_by_tag_on l key.
Proof.
  intros Hs. unfold unique_by_tag_on, getitem_str.
  rewrite (find_all_iter_next_scannable key l Hs).
  destruct (first_tagged key l) as [[item rest] |] eqn:F; simpl.
  - destruct (first_tagged_some _ _ _ _ F) as (Hf & _ & before & Hl & _).
    rewrite Hf. subst l. apply forallb_scannable_app in Hs.
    simpl in Hs. apply andb_prop in Hs. destruct Hs as [_ Hs].
    rewrite (find_all_iter_next_scannable key rest Hs).
    destruct (first_tagged key rest) as [[item2 rest2] |] eqn:F2; simpl.
    + destruct (first_tagged_some _ _ _ _ F2) as (Hf2 & _). rewrite Hf2. reflexivity.
    + rewrite (first_tagged_none _ _ F2). reflexivity.
  - rewrite (first_tagged_none _ _ F). reflexivity.
Qed.

(** C7 (amended): over a list whose list children all begin with a symbol,
    the unique-by-tag lookup returns the only child tagged [key] when there
    is exactly one, raises [KeyError(key)] when there is none, and raises the
    "More than one" [KeyError] when there are several. *)
Theorem getitem_str_unique_by_tag :
  forall (l : list sexp) (key : string),
    forallb scannable l = true ->
    unique_by_tag_on l key.
Proof.
  intros l key Hs. apply getitem_str_by_tagged_children. exact Hs.
Qed.

Lemma getitem_str_unique_by_tag_witness :
  getitem_str [Symbol "net"; BList [Symbol "code"; Int 1];
               BList [Symbol "name"; Str "GND"]] "name"
  = inr (BList [Symbol "name"; Str "GND"]).
Proof.
  exact (getitem_str_unique_by_tag
           [Symbol "net"; BList [Symbol "code"; Int 1];
            BList [Symbol "name"; Str "GND"]] "name" eq_refl).
Defined.

(** ** The pin-name tokenizer *)

Lemma string_app_empty_r (s : string) : (s ++ "")%string = s.
Proof. induction s; simpl; [| rewrite IHs]; reflexivity. Qed.

Lemma string_app_assoc (a b c : string) :
  ((a ++ b) ++ c)%string = (a ++ (b ++ c))%string.
Proof. induction a; simpl; [| rewrite IHa]; reflexivity. Qed.

Lemma string_app_nonempty (a : string) (c : ascii) (b : string) :
  nonempty (a ++ String c b) = true.
Proof. destruct a; reflexivity. Qed.

Lemma split_at_delimiters_cons (s : string) :
  exists p ps, split_at_delimiters s = p :: ps.
Proof.
  induction s as [| c s' IH]; simpl.
  - eauto.
  - destruct (is_delimiter c); [eauto |].
    destruct IH as (p & ps & ->). eauto.
Qed.

Lemma findall_scan_split (s : string) :
  forall cur p ps,
    split_at_delimiters s = p :: ps ->
    findall_scan cur s = filter nonempty ((cur ++ p)%string :: ps).
Proof.
  induction s as [| c s' IH]; simpl; intros cur p ps H.
  - inversion H; subst. rewrite string_app_empty_r. simpl.
    unfold nonempty. destruct (String.eqb cur ""); reflexivity.
  - destruct (is_delimiter c).
    + inversion H; subst. rewrite string_app_empty_r.
      destruct (split_at_delimiters_cons s') as (q & qs & Hq).
      rewrite (IH "" q qs Hq), Hq. simpl.
      unfold nonempty. destruct (String.eqb cur ""); reflexivity.
    + destruct (split_at_delimiters_cons s') as (q & qs & Hq).
      rewrite Hq in H. inversion H; subst.
      rewrite (IH _ q ps Hq). rewrite string_app_assoc. reflexivity.
Qed.

(** [findall] with the splitter pattern is the split on delimiter runs. *)
Lemma PIN_SPLITTER_RE_findall_split (s : string) :
  PIN_SPLITTER_RE_findall s = split_on_delimiter_runs s.
Proof.
  unfold PIN_SPLITTER_RE_findall, split_on_delimiter_runs.
  destruct (split_at_delimiters_cons s) as (p & ps & H).
  rewrite (findall_scan_split s "" p ps H), H. reflexivity.
Qed.

Lemma split_at_delimiters_clean (s : string) :
  Forall (fun t => has_delimiter t = false) (split_at_delimiters s).
Proof.
  induction s as [| c s' IH]; simpl.
  - repeat constructor.
  - destruct (is_delimiter c) eqn:E.
    + constructor; [reflexivity | exact IH].
    + destruct (split_at_delimiters s') as [| p ps].
      * repeat constructor. simpl. rewrite E. reflexivity.
      * inversion IH; subst. constructor; [| assumption].
        simpl. rewrite E. assumption.
Qed.

(** Every token is a non-empty string without a delimiter. *)
Lemma split_on_delimiter_runs_tokens (s : string) :
  Forall (fun t => t <> "" /\ has_delimiter t = false)
         (split_on_delimiter_runs s).
Proof.
  unfold split_on_delimiter_runs.
  pose proof (split_at_delimiters_clean s) as H.
  induction H as [| t ts Ht _ IH]; simpl.
  - constructor.
  - destruct (nonempty t) eqn:E; [| exact IH].
    constructor; [| exact IH]. split; [| exact Ht].
    intros ->. discriminate E.
Qed.

(** C6, as stated, fails: the name [P1,3] that replaces [~] on a pin numbered
    [1,3] is tokenized like any other name, into [P1] and [3]. *)
Lemma make_pin_placeholder_counterexample :
  ~ placeholder_name_untokenized.
Proof.
  intros H. destruct (H "1,3" (Str "passive")) as (p & Hp & Hn).
  vm_compute in Hp. inversion Hp; subst p. discriminate Hn.
Qed.

(** C6 (amended): for a pin whose raw number and raw name are strings, the
    number set is the raw number split on runs of delimiters, and the alias
    set is the split of the name, where a raw name that is exactly [~] is
    first replaced by [P] followed by the raw number; the replacement is also
    what the pin keeps as its name.  So [A/B] gives [A] and [B], the number
    [1,3] gives [1] and [3], and [~] on the number [7] gives [P7]. *)
Theorem make_pin_tokenizes :
  forall (num name : string) (type : sexp),
    let name' := if String.eqb name "~" then ("P" ++ num)%string else name in
    make_pin (Str num, Str name, type)
    = inr (mkPin (split_on_delimiter_runs num)
                 (split_on_delimiter_runs name')
                 (Str num, Str name', type))
    /\ split_on_delimiter_runs "A/B" = ["A"; "B"]
    /\ split_on_delimiter_runs "1,3" = ["1"; "3"]
    /\ make_pin (Str "7", Str "~", type)
       = inr (mkPin ["7"] ["P7"] (Str "7", Str "P7", type)).
Proof.
  intros num name type name'. repeat split; try reflexivity.
  unfold make_pin, name'. simpl py_eq.
  destruct (String.eqb name "~"); simpl;
    rewrite !PIN_SPLITTER_RE_findall_split; reflexivity.
Qed.

(** ** Dictionaries *)

Lemma py_eq_eq (a b : sexp) : py_eq a b = true -> a = b.
Proof.
  destruct a, b; simpl; intros H; try discriminate.
  - apply String.eqb_eq in H. congruence.
  - apply String.eqb_eq in H. congruence.
  - apply Z.eqb_eq in H. congruence.
Qed.

Lemma dict_replace_find {V} (d d' : dict V) (k : sexp) (v : V) :
  dict_replace d k v = Some d' ->
  dict_find d' k = Some v
  /\ forall k', py_eq k k' = false -> dict_find d' k' = dict_find d k'.
Proof.
  revert d'. induction d as [| [k0 v0] d0 IH]; simpl; intros d' H.
  - discriminate.
  - destruct (py_eq k0 k) eqn:E.
    + inversion H; subst. simpl. rewrite E. split; [reflexivity |].
      intros k' Hk. apply py_eq_eq in E. subst k0. rewrite Hk. reflexivity.
    + destruct (dict_replace d0 k v) as [d1 |]; [| discriminate].
      inversion H; subst. simpl. rewrite E.
      destruct (IH d1 eq_refl) as [H1 H2]. split; [exact H1 |].
      intros k' Hk. rewrite (H2 k' Hk). reflexivity.
Qed.

Lemma dict_replace_none {V} (d : dict V) (k : sexp) (v : V) :
  dict_replace d k v = None -> dict_find d k = None.
Proof.
  induction d as [| [k0 v0] d0 IH]; simpl; intros H.
  - reflexivity.
  - destruct (py_eq k0 k); [discriminate |].
    destruct (dict_replace d0 k v); [discriminate | auto].
Qed.

Lemma dict_find_app {V} (d1 d2 : dict V) (k : sexp) :
  dict_find (d1 ++ d2) k
  = match dict_find d1 k with Some v => Some v | None => dict_find d2 k end.
Proof.
  induction d1 as [| [k0 v0] d0 IH]; simpl.
  - reflexivity.
  - destruct (py_eq k0 k); [reflexivity | exact IH].
Qed.

(** After [d[k] = v] the key [k] holds [v], whatever it held before. *)
Lemma dict_set_find_same {V} (d d' : dict V) (k : sexp) (v : V) :
  dict_set d k v = inr d' -> py_eq k k = true -> dict_find d' k = Some v.
Proof.
  unfold dict_set. intros H Hk.
  destruct (hashable k); [| discriminate].
  destruct (dict_replace d k v) as [d1 |] eqn:E; inversion H; subst.
  - apply (dict_replace_find _ _ _ _ E).
  - rewrite dict_find_app, (dict_replace_none _ _ _ E). simpl.
    rewrite Hk. reflexivity.
Qed.

(** [d[k] = v] leaves every other key as it was. *)
Lemma dict_set_find_other {V} (d d' : dict V) (k k' : sexp) (v : V) :
  dict_set d k v = inr d' -> py_eq k k' = false ->
  dict_find d' k' = dict_find d k'.
Proof.
  unfold dict_set. intros H Hk.
  destruct (hashable k); [| discriminate].
  destruct (dict_replace d k v) as [d1 |] eqn:E; inversion H; subst.
  - apply (dict_replace_find _ _ _ _ E). exact Hk.
  - rewrite dict_find_app. simpl. rewrite Hk.
    destruct (dict_find d k'); reflexivity.
Qed.

Lemma dict_set_hashable {V} (d d' : dict V) (k : sexp) (v : V) :
  dict_set d k v = inr d' -> hashable k = true.
Proof.
  unfold dict_set. destruct (hashable k); [reflexivity | discriminate].
Qed.

(** Whether [d[k] = v] raises depends on the key alone. *)
Lemma dict_set_total {V} (d : dict V) (k : sexp) (v : V) :
  hashable k = true -> exists d', dict_set d k v = inr d'.
Proof.
  unfold dict_set. intros ->. destruct (dict_replace d k v); eauto.
Qed.

(** ** One component *)

(** The scan stops at the first class that matches. *)
Lemma find_part_class_first (before after : list PartClass) (cls : PartClass)
    (lib part_name : sexp) :
  forallb (fun c => negb (class_matches lib part_name c)) before = true ->
  class_matches lib part_name cls = true ->
  find_part_class (before ++ cls :: after) lib part_name = Some cls.
Proof.
  unfold class_matches.
  induction before as [| c before' IH]; simpl; intros Hb Hc.
  - rewrite Hc. reflexivity.
  - apply andb_prop in Hb. destruct Hb as [H1 H2].
    apply negb_true_iff in H1. rewrite H1. auto.
Qed.

Lemma find_part_class_none (part_classes : list PartClass) (lib part_name : sexp) :
  forallb (fun c => negb (class_matches lib part_name c)) part_classes = true ->
  find_part_class part_classes lib part_name = None.
Proof.
  unfold class_matches.
  induction part_classes as [| c rest IH]; simpl; intros H.
  - reflexivity.
  - apply andb_prop in H. destruct H as [H1 H2].
    apply negb_true_iff in H1. rewrite H1. auto.
Qed.

(** A catalog with exactly one matching class splits around it. *)
Lemma filter_singleton_split {A} (f : A -> bool) (l : list A) (x : A) :
  filter f l = [x] ->
  exists before after,
    l = before ++ x :: after
    /\ forallb (fun a => negb (f a)) before = true
    /\ forallb (fun a => negb (f a)) after = true
    /\ f x = true.
Proof.
  induction l as [| a l' IH]; simpl; intros H.
  - discriminate.
  - destruct (f a) eqn:E.
    + inversion H as [[Ha Hl]]. subst a. exists [], l'. simpl.
      repeat split; auto.
      clear - Hl. induction l' as [| b l'' IH]; simpl in *; [reflexivity |].
      destruct (f b); [discriminate |]. simpl. auto.
    + destruct (IH H) as (before & after & Hl & Hb & Ha & Hx).
      exists (a :: before), after. subst l'. simpl. rewrite E. simpl.
      repeat split; auto.
Qed.

Lemma make_part_instance_found (part_classes : list PartClass)
    (filename : string) (component libsource lib part_name rd v : sexp)
    (cls : PartClass) (w : world) :
  subscript_str component "libsource" = inr libsource ->
  field libsource "lib" = inr lib ->
  field libsource "part" = inr part_name ->
  find_part_class part_classes lib part_name = Some cls ->
  field component "ref" = inr rd ->
  field component "value" = inr v ->
  make_part_instance part_classes filename component w
  = part_instance_outcome filename component cls rd v w.
Proof.
  intros Hls Hlib Hpart Hcls Hrd Hv.
  unfold make_part_instance, part_instance_outcome.
  rewrite bind_lift, Hls, bind_lift, Hlib, bind_lift, Hpart, Hcls, bind_ret.
  rewrite bind_lift, Hrd, bind_lift, Hv.
  unfold bind at 1. unfold instantiate at 1.
  destruct (field component "footprint") as [e | footprint].
  - destruct (is_KeyError e); reflexivity.
  - reflexivity.
Qed.

(** Conversely, an instance comes only out of the path above. *)
Lemma make_part_instance_inr (part_classes : list PartClass)
    (filename : string) (component : sexp) (w w' : world) (inst : PartInstance) :
  make_part_instance part_classes filename component w = (w', inr inst) ->
  exists libsource lib part_name cls rd v,
    subscript_str component "libsource" = inr libsource
    /\ field libsource "lib" = inr lib
    /\ field libsource "part" = inr part_name
    /\ find_part_class part_classes lib part_name = Some cls
    /\ field component "ref" = inr rd
    /\ field component "value" = inr v
    /\ part_instance_outcome filename component cls rd v w = (w', inr inst).
Proof.
  intros H. pose proof H as H0. revert H. unfold make_part_instance.
  rewrite bind_lift.
  destruct (subscript_str component "libsource") as [e | libsource] eqn:Hls;
    [discriminate |].
  rewrite bind_lift.
  destruct (field libsource "lib") as [e | lib] eqn:Hlib; [discriminate |].
  rewrite bind_lift.
  destruct (field libsource "part") as [e | part_name] eqn:Hpart; [discriminate |].
  destruct (find_part_class part_classes lib part_name) as [cls |] eqn:Hcls;
    [| rewrite bind_raise; discriminate].
  rewrite bind_ret, bind_lift.
  destruct (field component "ref") as [e | rd] eqn:Hrd; [discriminate |].
  rewrite bind_lift.
  destruct (field component "value") as [e | v] eqn:Hv; [discriminate |].
  intros _.
  exists libsource, lib, part_name, cls, rd, v. repeat split; auto.
  rewrite <- (make_part_instance_found part_classes filename component
                libsource lib part_name rd v cls w Hls Hlib Hpart Hcls Hrd Hv).
  exact H0.
Qed.

Lemma part_instance_outcome_inr (filename : string) (component : sexp)
    (cls : PartClass) (rd v : sexp) (w w' : world) (inst : PartInstance) :
  part_instance_outcome filename component cls rd v w = (w', inr inst) ->
  refdes inst = rd /\ value inst = v /\ part_class inst = cls
  /\ map pin_def (pins inst) = PINS cls
  /\ obj_id inst = next_obj_id w
  /\ next_obj_id w' = S (next_obj_id w)
  /\ nets w' = nets w
  /\ defined_at inst = Some filename.
Proof.
  assert (Hpins : forall o i ps, map pin_def (instantiate_pins o i ps) = ps).
  { intros o i ps. revert i.
    induction ps as [| p ps' IH]; simpl; intros i; [| rewrite IH]; reflexivity. }
  unfold part_instance_outcome.
  destruct (field component "footprint") as [e | footprint].
  - destruct (is_KeyError e); intros H; inversion H; subst; simpl.
    repeat split; auto.
  - intros H; inversion H; subst; simpl. repeat split; auto.
Qed.

(** A lookup that returned has scanned the whole list without raising. *)
Lemma find_all_iter_next_none_scannable key l :
  find_all_iter_next key l = inr None -> forallb scannable l = true.
Proof.
  induction l as [| item rest IH]; simpl; intros H.
  - reflexivity.
  - destruct item as [s | s | z | il]; simpl; auto.
    destruct il as [| hd tl']; simpl in H; [discriminate |].
    destruct hd; simpl in H; try discriminate.
    destruct (String.eqb name key); [discriminate | auto].
Qed.

Lemma find_all_iter_next_some_scannable key l item rest :
  find_all_iter_next key l = inr (Some (item, rest)) ->
  forallb scannable rest = true -> forallb scannable l = true.
Proof.
  induction l as [| x l' IH]; simpl; intros H Hr.
  - discriminate.
  - destruct x as [s | s | z | il]; simpl; auto.
    destruct il as [| hd tl']; simpl in H; [discriminate |].
    destruct hd; simpl in H; try discriminate.
    destruct (String.eqb name key); [| auto].
    inversion H; subst. exact Hr.
Qed.

Lemma getitem_str_scannable l key item :
  getitem_str l key = inr item -> forallb scannable l = true.
Proof.
  unfold getitem_str. intros H.
  apply rbind_inr in H. destruct H as (first & H1 & H).
  destruct first as [[ret0 rest] |]; [| discriminate].
  apply rbind_inr in H. destruct H as (another & H2 & H).
  destruct another; [discriminate |].
  apply (find_all_iter_next_some_scannable _ _ _ _ H1).
  apply (find_all_iter_next_none_scannable _ _ H2).
Qed.

Lemma subscript_str_inr x key item :
  subscript_str x key = inr item ->
  exists l, x = BList l /\ getitem_str l key = inr item.
Proof.
  destruct x; simpl; intros H; try discriminate. eauto.
Qed.

Lemma field_inr x key v :
  field x key = inr v ->
  exists l, x = BList l /\ forallb scannable l = true.
Proof.
  unfold field. intros H. apply rbind_inr in H. destruct H as (child & H & _).
  apply subscript_str_inr in H. destruct H as (l & -> & H).
  exists l. split; [reflexivity |]. exact (getitem_str_scannable _ _ _ H).
Qed.

(** A component that can be read and has no child tagged [key] raises the
    [KeyError] of a missing tag when [key] is looked up. *)
Lemma field_missing x key0 v key :
  field x key0 = inr v ->
  filter (tagged key) (items x) = [] ->
  field x key = inl (KeyError key).
Proof.
  intros H Hf. destruct (field_inr _ _ _ H) as (l & -> & Hs). simpl in Hf.
  unfold field. simpl.
  pose proof (getitem_str_by_tagged_children l key Hs) as U.
  unfold unique_by_tag_on in U. rewrite Hf in U. rewrite U. reflexivity.
Qed.

(** ** C10, C1, C8: instantiation *)

(** ** C9, C2: the loop over the components *)

Lemma populate_parts_app (part_classes : list PartClass) (filename : string)
    (l1 l2 : list sexp) :
  forall (parts : dict PartInstance) (w : world),
    populate_parts part_classes filename parts (l1 ++ l2) w
    = bind (populate_parts part_classes filename parts l1)
           (fun parts' => populate_parts part_classes filename parts' l2) w.
Proof.
  induction l1 as [| c l1' IH]; simpl; intros parts w.
  - reflexivity.
  - unfold bind.
    destruct (populate_part part_classes filename parts c w) as [w1 [e | p1]].
    + reflexivity.
    + rewrite IH. reflexivity.
Qed.

Lemma populate_part_inr (part_classes : list PartClass) (filename : string)
    (parts parts' : dict PartInstance) (component : sexp) (w w' : world) :
  populate_part part_classes filename parts component w = (w', inr parts') ->
  exists inst,
    make_part_instance part_classes filename component w = (w', inr inst)
    /\ dict_set parts (refdes inst) inst = inr parts'.
Proof.
  unfold populate_part. intros H.
  apply bind_inr in H. destruct H as (w1 & inst & Hm & Hset).
  unfold lift in Hset. injection Hset as Hw Hset. subst w1.
  exists inst. split; assumption.
Qed.

Lemma make_part_instance_refdes (part_classes : list PartClass)
    (filename : string) (component : sexp) (w w' : world) (inst : PartInstance) :
  make_part_instance part_classes filename component w = (w', inr inst) ->
  field component "ref" = inr (refdes inst)
  /\ obj_id inst = next_obj_id w
  /\ next_obj_id w' = S (next_obj_id w).
Proof.
  intros H. apply make_part_instance_inr in H.
  destruct H as (ls & lib & pn & cls & rd & v & _ & _ & _ & _ & Hrd & _ & Hout).
  apply part_instance_outcome_inr in Hout.
  destruct Hout as (Hr & _ & _ & _ & Hid & Hnext & _).
  rewrite Hr. auto.
Qed.

(** Components with other refdes leave the entry of [rd] alone, and object
    identities only grow. *)
Lemma populate_parts_other_refdes (part_classes : list PartClass)
    (filename : string) (rd : sexp) (components : list sexp) :
  forall (parts parts' : dict PartInstance) (w w' : world),
    populate_parts part_classes filename parts components w = (w', inr parts') ->
    (forall c rd', In c components -> field c "ref" = inr rd' ->
                   py_eq rd' rd = false) ->
    dict_find parts' rd = dict_find parts rd.
Proof.
  induction components as [| c rest IH]; simpl; intros parts parts' w w' H Hother.
  - inversion H; subst. reflexivity.
  - apply bind_inr in H. destruct H as (w1 & parts1 & Hc & Hrest).
    rewrite (IH _ _ _ _ Hrest) by (intros; eapply Hother; eauto).
    apply populate_part_inr in Hc. destruct Hc as (inst & Hm & Hset).
    apply make_part_instance_refdes in Hm. destruct Hm as (Hrd & _).
    apply (dict_set_find_other _ _ _ _ _ Hset).
    apply (Hother c); auto.
Qed.

Lemma populate_parts_next_obj_id (part_classes : list PartClass)
    (filename : string) (components : list sexp) :
  forall (parts parts' : dict PartInstance) (w w' : world),
    populate_parts part_classes filename parts components w = (w', inr parts') ->
    next_obj_id w <= next_obj_id w'.
Proof.
  induction components as [| c rest IH]; simpl; intros parts parts' w w' H.
  - inversion H; subst. lia.
  - apply bind_inr in H. destruct H as (w1 & parts1 & Hc & Hrest).
    apply IH in Hrest.
    apply populate_part_inr in Hc. destruct Hc as (inst & Hm & _).
    apply make_part_instance_refdes in Hm. lia.
Qed.

(** What the loop body leaves in the world does not depend on the mapping
    it stores into, and neither does whether it raises. *)
Lemma populate_part_world (part_classes : list PartClass) (filename : string)
    (parts1 parts2 : dict PartInstance) (component : sexp) (w : world) :
  fst (populate_part part_classes filename parts1 component w)
  = fst (populate_part part_classes filename parts2 component w)
  /\ (forall w1 p1,
        populate_part part_classes filename parts1 component w = (w1, inr p1) ->
        exists p2,
          populate_part part_classes filename parts2 component w = (w1, inr p2)).
Proof.
  unfold populate_part, bind.
  destruct (make_part_instance part_classes filename component w)
    as [w1 [e | inst]]; simpl.
  - split; [reflexivity |]. intros ? ? H. discriminate H.
  - unfold lift. split; [reflexivity |]. intros w2 p1 H.
    inversion H as [[Hw Hs]]. subst w2.
    destruct (dict_set parts1 (refdes inst) inst) as [e | d1] eqn:E;
      [discriminate |].
    apply dict_set_hashable in E.
    destruct (dict_set_total parts2 _ inst E) as (p2 & ->). eauto.
Qed.

(** Last write wins in the loop over the components: of two components
    with the refdes [rd] that no later component carries, the second one's
    instance is the one left under [rd]. *)
Lemma populate_parts_last_write_wins :
  forall (part_classes : list PartClass) (filename : string)
         (parts0 parts : dict PartInstance)
         (before between after : list sexp) (c1 c2 rd : sexp) (w w' : world),
    populate_parts part_classes filename parts0
                   (before ++ c1 :: between ++ c2 :: after) w
    = (w', inr parts) ->
    field c1 "ref" = inr rd ->
    field c2 "ref" = inr rd ->
    py_eq rd rd = true ->
    (forall c rd', In c after -> field c "ref" = inr rd' ->
                   py_eq rd' rd = false) ->
    exists wa wb inst1 w1 w2 inst2,
      make_part_instance part_classes filename c1 wa = (wb, inr inst1)
      /\ make_part_instance part_classes filename c2 w1 = (w2, inr inst2)
      /\ refdes inst1 = rd /\ refdes inst2 = rd
      /\ obj_id inst1 < obj_id inst2
      /\ dict_get parts rd = inr inst2
      /\ forall parts_any,
           exists parts_any',
             populate_part part_classes filename parts_any c2 w1
             = (w2, inr parts_any').
Proof.
  intros part_classes filename parts0 parts before between after c1 c2 rd w w'
         H Hrd1 Hrd2 Hk Hafter.
  rewrite populate_parts_app in H.
  apply bind_inr in H. destruct H as (wa & pa & _ & H).
  simpl in H. apply bind_inr in H. destruct H as (wb & pb & Hc1 & H).
  rewrite populate_parts_app in H.
  apply bind_inr in H. destruct H as (w1 & p1 & Hbetween & H).
  simpl in H. apply bind_inr in H. destruct H as (w2 & p2 & Hc2 & Hrest).
  pose proof Hc2 as Hc2'.
  apply populate_part_inr in Hc1. destruct Hc1 as (inst1 & Hm1 & _).
  apply populate_part_inr in Hc2. destruct Hc2 as (inst2 & Hm2 & Hset2).
  destruct (make_part_instance_refdes _ _ _ _ _ _ Hm1) as (Hr1 & Hid1 & Hn1).
  destruct (make_part_instance_refdes _ _ _ _ _ _ Hm2) as (Hr2 & Hid2 & _).
  rewrite Hrd1 in Hr1. injection Hr1 as Hr1'.
  rewrite Hrd2 in Hr2. injection Hr2 as Hr2'.
  apply populate_parts_next_obj_id in Hbetween.
  exists wa, wb, inst1, w1, w2, inst2.
  split; [exact Hm1 |]. split; [exact Hm2 |].
  split; [congruence |]. split; [congruence |].
  split; [lia |]. split.
  - pose proof (dict_set_hashable _ _ _ _ Hset2) as Hh. rewrite <- Hr2' in Hh.
    unfold dict_get. rewrite Hh.
    rewrite (populate_parts_other_refdes _ _ rd _ _ _ _ _ Hrest Hafter).
    rewrite <- Hr2' in Hset2.
    rewrite (dict_set_find_same _ _ _ _ Hset2 Hk). reflexivity.
  - intros parts_any.
    apply (proj2 (populate_part_world part_classes filename p1 parts_any c2 w1)
                 w2 p2 Hc2').
Qed.

(** A load that returns has gone through the loop over the components of
    the [components] section, with the classes of the [libparts] section. *)
Lemma read_kicad_netlist_inr (filename : string) (parsed tree : sexp)
    (parts : dict PartInstance) (w w' : world) :
  read_kicad_netlist filename parsed w = (w', inr (parts, tree)) ->
  exists netlist_contents libparts part_classes components w1,
    Better_sexp_init parsed = inr netlist_contents
    /\ getitem_section netlist_contents "libparts" = inr libparts
    /\ rmap _read_kicad_netlist_partcls libparts = inr part_classes
    /\ getitem_section netlist_contents "components" = inr components
    /\ populate_parts part_classes filename [] components w = (w1, inr parts)
    /\ tree = BList netlist_contents.
Proof.
  unfold read_kicad_netlist. rewrite bind_lift.
  destruct (Better_sexp_init parsed) as [e | nc]; [discriminate |].
  intros H. apply bind_inr in H. destruct H as (w1 & loaded & Hload & H).
  apply bind_inr in H. destruct H as (w2 & [] & _ & H).
  unfold ret in H. injection H as _ Hp Ht.
  revert Hload. unfold load_parts. rewrite bind_lift.
  destruct (getitem_section nc "libparts") as [e | libparts] eqn:Hlp;
    [discriminate |].
  rewrite bind_lift.
  destruct (rmap _read_kicad_netlist_partcls libparts) as [e | pcs] eqn:Hpcs;
    [discriminate |].
  rewrite bind_lift.
  destruct (getitem_section nc "components") as [e | comps] eqn:Hc;
    [discriminate |].
  intros Hload. apply bind_inr in Hload.
  destruct Hload as (wp & parts1 & Hpop & Hload).
  rewrite bind_lift in Hload.
  destruct (getitem_section nc "nets") as [e | net_sexps]; [discriminate |].
  unfold ret in Hload. injection Hload as _ Hloaded. subst loaded.
  simpl in Hp. subst parts1.
  exists nc, libparts, pcs, comps, wp. repeat split; auto.
Qed.

(** C9: when a load returns, and two entries [c1] and then [c2] of the
    components section carry the same refdes [rd] (a string or a number) that
    no later entry carries, the returned mapping holds under [rd] the
    instance built for [c2], an object created after the one built for [c1];
    and handling [c2] leaves the same world, without raising, whatever
    mapping it stores into, so nothing is raised or printed on account of the
    duplicate. *)
Theorem duplicate_refdes_last_write_wins :
  forall (filename : string) (parsed tree : sexp)
         (netlist_contents : list sexp) (parts : dict PartInstance)
         (before between after : list sexp) (c1 c2 rd : sexp) (w w' : world),
    read_kicad_netlist filename parsed w = (w', inr (parts, tree)) ->
    Better_sexp_init parsed = inr netlist_contents ->
    getitem_section netlist_contents "components"
    = inr (before ++ c1 :: between ++ c2 :: after) ->
    field c1 "ref" = inr rd ->
    field c2 "ref" = inr rd ->
    py_eq rd rd = true ->
    (forall c rd', In c after -> field c "ref" = inr rd' ->
                   py_eq rd' rd = false) ->
    exists part_classes wa wb inst1 w1 w2 inst2,
      make_part_instance part_classes filename c1 wa = (wb, inr inst1)
      /\ make_part_instance part_classes filename c2 w1 = (w2, inr inst2)
      /\ refdes inst1 = rd /\ refdes inst2 = rd
      /\ obj_id inst1 < obj_id inst2
      /\ dict_get parts rd = inr inst2
      /\ forall parts_any,
           exists parts_any',
             populate_part part_classes filename parts_any c2 w1
             = (w2, inr parts_any').
Proof.
  intros filename parsed tree netlist_contents parts before between after
         c1 c2 rd w w' Hload Hinit Hcomps Hrd1 Hrd2 Hk Hafter.
  apply read_kicad_netlist_inr in Hload.
  destruct Hload as (nc & libparts & pcs & comps & wp
                     & Hinit' & _ & _ & Hcomps' & Hpop & _).
  rewrite Hinit in Hinit'. injection Hinit' as <-.
  rewrite Hcomps in Hcomps'. injection Hcomps' as <-.
  exists pcs.
  exact (populate_parts_last_write_wins
           pcs filename [] parts before between after c1 c2 rd w wp
           Hpop Hrd1 Hrd2 Hk Hafter).
Qed.

Lemma rmap_In {A B} (f : A -> result B) (l : list A) :
  forall (l' : list B),
    rmap f l = inr l' ->
    forall y, In y l' -> exists x, In x l /\ f x = inr y.
Proof.
  induction l as [| a l0 IH]; simpl; intros l' H y Hy.
  - inversion H; subst. destruct Hy.
  - apply rbind_inr in H. destruct H as (b & Hb & H).
    apply rbind_inr in H. destruct H as (bs & Hbs & H).
    inversion H; subst. destruct Hy as [-> | Hy].
    + exists a. auto.
    + destruct (IH bs Hbs y Hy) as (x & Hx & Hfx). exists x. auto.
Qed.

(** A class built from a libpart entry carries the entry's [lib] and [part]. *)
Lemma _read_kicad_netlist_partcls_identity (libpart : sexp) (cls : PartClass) :
  _read_kicad_netlist_partcls libpart = inr cls ->
  field libpart "lib" = inr (_kicad_lib cls)
  /\ field libpart "part" = inr (_kicad_part cls).
Proof.
  unfold _read_kicad_netlist_partcls. intros H.
  apply rbind_inr in H. destruct H as (lib & Hlib & H).
  apply rbind_inr in H. destruct H as (part_name & Hpart & H).
  apply rbind_inr in H. destruct H as (description & _ & H).
  apply rbind_inr in H. destruct H as (fields & _ & H).
  apply rbind_inr in H. destruct H as (pin_entries & _ & H).
  apply rbind_inr in H. destruct H as (pins & _ & H).
  apply rbind_inr in H. destruct H as (pcbdl_pins & _ & H).
  destruct (dict_pop fields (Str "Reference") default_REFDES_PREFIX)
    as [refdes_prefix fields1].
  destruct (dict_pop fields1 (Str "Value") (Str "")) as [cv fields2].
  destruct (dict_pop fields2 (Str "Footprint") (Str "")) as [cp fields3].
  apply rbind_inr in H. destruct H as (doc & _ & H).
  apply rbind_inr in H. destruct H as (name & _ & H).
  inversion H; subst; simpl. auto.
Qed.

(** The value read by [x[key][1]] sits in a child of [x] tagged [key]. *)
Lemma field_child (x : sexp) (key : string) (v : sexp) :
  field x key = inr v ->
  exists l more, x = BList l /\ In (BList (Symbol key :: v :: more)) l.
Proof.
  unfold field. intros H. apply rbind_inr in H. destruct H as (child & Hc & Hv).
  apply subscript_str_inr in Hc. destruct Hc as (l & -> & Hc).
  apply getitem_str_inr in Hc. destruct Hc as (Hin & rest & ->).
  simpl in Hv. unfold list_getitem in Hv. simpl in Hv.
  destruct rest as [| v0 more]; simpl in Hv; [discriminate |].
  inversion Hv; subst. exists l, more. auto.
Qed.

Lemma populate_parts_raises (part_classes : list PartClass) (filename : string)
    (before after : list sexp) (component : sexp)
    (parts0 parts1 : dict PartInstance) (w w1 w2 : world) (e : exn) :
  populate_parts part_classes filename parts0 before w = (w1, inr parts1) ->
  populate_part part_classes filename parts1 component w1 = (w2, inl e) ->
  populate_parts part_classes filename parts0 (before ++ component :: after) w
  = (w2, inl e).
Proof.
  intros Hb Hc. rewrite populate_parts_app, (bind_ok _ _ _ _ _ Hb). simpl.
  apply bind_fail. exact Hc.
Qed.

(** C2: when the loop over the components reaches a component whose
    (library, part) pair equals the pair of no libpart entry, the load ends
    by raising [PartNotFoundException]; the exception is built from
    [libsource[1:]], which holds the child tagged [lib] with the library
    and the child tagged [part] with the part name. *)
Theorem unmatched_template_aborts :
  forall (filename : string) (parsed : sexp)
         (netlist_contents libparts : list sexp)
         (part_classes : list PartClass)
         (before after : list sexp) (component libsource lib part_name : sexp)
         (parts1 : dict PartInstance) (w w1 : world),
    Better_sexp_init parsed = inr netlist_contents ->
    getitem_section netlist_contents "libparts" = inr libparts ->
    rmap _read_kicad_netlist_partcls libparts = inr part_classes ->
    getitem_section netlist_contents "components"
    = inr (before ++ component :: after) ->
    populate_parts part_classes filename [] before w = (w1, inr parts1) ->
    subscript_str component "libsource" = inr libsource ->
    field libsource "lib" = inr lib ->
    field libsource "part" = inr part_name ->
    (forall libpart l p,
        In libpart libparts ->
        field libpart "lib" = inr l -> field libpart "part" = inr p ->
        py_eq l lib && py_eq p part_name = false) ->
    read_kicad_netlist filename parsed w
    = (w1, inl (PartNotFoundException (tl (items libsource))))
    /\ (exists more,
          In (BList (Symbol "lib" :: lib :: more)) (tl (items libsource)))
    /\ (exists more,
          In (BList (Symbol "part" :: part_name :: more)) (tl (items libsource))).
Proof.
  intros filename parsed netlist_contents libparts part_classes before after
         component libsource lib part_name parts1 w w1
         Hinit Hlp Hcls Hcomps Hbefore Hls Hlib Hpart Hnone.
  assert (Hscan : find_part_class part_classes lib part_name = None).
  { apply find_part_class_none. apply forallb_forall. intros cls Hin.
    destruct (rmap_In _ _ _ Hcls cls Hin) as (libpart & Hlin & HB).
    apply _read_kicad_netlist_partcls_identity in HB. destruct HB as [Hl Hp].
    unfold class_matches. rewrite (Hnone libpart _ _ Hlin Hl Hp). reflexivity. }
  split; [| split].
  - unfold read_kicad_netlist.
    rewrite bind_lift, Hinit. apply bind_fail.
    unfold load_parts. rewrite bind_lift, Hlp, bind_lift, Hcls, bind_lift, Hcomps.
    apply bind_fail.
    apply (populate_parts_raises _ _ _ _ _ _ _ _ _ _ _ Hbefore).
    unfold populate_part. apply bind_fail.
    unfold make_part_instance.
    rewrite bind_lift, Hls, bind_lift, Hlib, bind_lift, Hpart, Hscan.
    reflexivity.
  - apply subscript_str_inr in Hls. destruct Hls as (cl & _ & Hls).
    apply getitem_str_inr in Hls. destruct Hls as (_ & rest & ->).
    destruct (field_child _ _ _ Hlib) as (l & more & Hl & Hin).
    inversion Hl; subst l. simpl. exists more.
    destruct Hin as [Hin | Hin]; [discriminate | exact Hin].
  - apply subscript_str_inr in Hls. destruct Hls as (cl & _ & Hls).
    apply getitem_str_inr in Hls. destruct Hls as (_ & rest & ->).
    destruct (field_child _ _ _ Hpart) as (l & more & Hl & Hin).
    inversion Hl; subst l. simpl. exists more.
    destruct Hin as [Hin | Hin]; [discriminate | exact Hin].
Qed.

(** ** C3, C4, C5: the nets *)

Lemma same_pin_key (a b : PartInstancePin) :
  same_pin a b = true <-> pin_key a = pin_key b.
Proof.
  unfold same_pin, pin_key. rewrite andb_true_iff, !Nat.eqb_eq. split.
  - intros [-> ->]. reflexivity.
  - intros H. inversion H. auto.
Qed.

Lemma existsb_same_pin_false (pin : PartInstancePin) (conns : list PartInstancePin) :
  existsb (same_pin pin) conns = false -> ~ In (pin_key pin) (map pin_key conns).
Proof.
  intros H Hin. apply in_map_iff in Hin. destruct Hin as (q & Hq & Hin).
  assert (existsb (same_pin pin) conns = true) as E.
  { apply existsb_exists. exists q. split; [exact Hin |].
    apply same_pin_key. symmetry. exact Hq. }
  congruence.
Qed.

Lemma NoDup_snoc {A} (l : list A) (x : A) :
  NoDup l -> ~ In x l -> NoDup (l ++ [x]).
Proof.
  intros Hl Hx. induction Hl as [| y l' Hy Hl' IH]; simpl.
  - constructor; [intros [] | constructor].
  - constructor.
    + rewrite in_app_iff. simpl. intros [H | [H | []]]; [auto |].
      subst. apply Hx. left. reflexivity.
    + apply IH. intros H. apply Hx. right. exact H.
Qed.

(** A node either leaves the connections as they are or appends a pin that
    was not among them. *)
Lemma connect_node_inr (parts : dict PartInstance)
    (conns conns' : list PartInstancePin) (node : sexp) :
  connect_node parts conns node = inr conns' ->
  conns' = conns
  \/ exists pin, conns' = conns ++ [pin]
                 /\ ~ In (pin_key pin) (map pin_key conns).
Proof.
  unfold connect_node. intros H.
  apply rbind_inr in H. destruct H as (pin_number & _ & H).
  apply rbind_inr in H. destruct H as (rd & _ & H).
  apply rbind_inr in H. destruct H as (part & _ & H).
  destruct (find_pin (pins part) pin_number) as [pin |]; [| discriminate].
  destruct (existsb (same_pin pin) conns) eqn:E; inversion H; subst.
  - left. reflexivity.
  - right. exists pin. split; [reflexivity |].
    apply existsb_same_pin_false. exact E.
Qed.

Lemma connect_node_NoDup (parts : dict PartInstance)
    (conns conns' : list PartInstancePin) (node : sexp) :
  connect_node parts conns node = inr conns' ->
  NoDup (map pin_key conns) -> NoDup (map pin_key conns').
Proof.
  intros H Hnd. destruct (connect_node_inr _ _ _ _ H) as [-> | (pin & -> & Hnew)].
  - exact Hnd.
  - rewrite map_app. simpl. apply NoDup_snoc; assumption.
Qed.

Lemma connect_nodes_NoDup (parts : dict PartInstance) (nodes : list sexp) :
  forall conns,
    NoDup (map pin_key conns) ->
    NoDup (map pin_key (fst (connect_nodes parts conns nodes))).
Proof.
  induction nodes as [| node rest IH]; simpl; intros conns Hnd.
  - exact Hnd.
  - destruct (connect_node parts conns node) as [e | conns'] eqn:E; simpl.
    + exact Hnd.
    + apply IH. exact (connect_node_NoDup _ _ _ _ E Hnd).
Qed.

Lemma build_net_NoDup (parts : dict PartInstance) (filename : string)
    (net_sexp : sexp) (w : world) :
  nets_without_duplicates w ->
  nets_without_duplicates (fst (build_net parts filename net_sexp w)).
Proof.
  intros Hw. unfold build_net. rewrite bind_lift.
  destruct (field net_sexp "name") as [e | name]; [exact Hw |].
  rewrite bind_lift.
  destruct (find_all (items net_sexp) "node") as [e | nodes]; [exact Hw |].
  rewrite bind_lift.
  destruct (is_no_connect nodes name) as [e | [|]]; try exact Hw.
  pose proof (connect_nodes_NoDup parts nodes [] (NoDup_nil _)) as Hc.
  destruct (connect_nodes parts [] nodes) as [conns outcome]. simpl in Hc.
  unfold bind, register_net, lift. simpl.
  unfold nets_without_duplicates. simpl.
  apply Forall_app. split; [exact Hw |]. constructor; [exact Hc | constructor].
Qed.

Lemma build_nets_NoDup (parts : dict PartInstance) (filename : string)
    (net_sexps : list sexp) :
  forall w,
    nets_without_duplicates w ->
    nets_without_duplicates (fst (build_nets parts filename net_sexps w)).
Proof.
  induction net_sexps as [| net_sexp rest IH]; simpl; intros w Hw.
  - exact Hw.
  - unfold bind.
    pose proof (build_net_NoDup parts filename net_sexp w Hw) as H1.
    destruct (build_net parts filename net_sexp w) as [w1 [e | []]]; simpl in *.
    + exact H1.
    + apply IH. exact H1.
Qed.

(** Creating parts touches no net. *)
Lemma make_part_instance_nets (part_classes : list PartClass) (filename : string)
    (component : sexp) (w : world) :
  nets (fst (make_part_instance part_classes filename component w)) = nets w.
Proof.
  unfold make_part_instance. rewrite bind_lift.
  destruct (subscript_str component "libsource") as [e | ls]; [reflexivity |].
  rewrite bind_lift. destruct (field ls "lib") as [e | lib]; [reflexivity |].
  rewrite bind_lift. destruct (field ls "part") as [e | pn]; [reflexivity |].
  destruct (find_part_class part_classes lib pn) as [cls |]; [| reflexivity].
  rewrite bind_ret, bind_lift.
  destruct (field component "ref") as [e | rd]; [reflexivity |].
  rewrite bind_lift. destruct (field component "value") as [e | v]; [reflexivity |].
  unfold bind at 1. unfold instantiate at 1.
  destruct (field component "footprint") as [e | fp].
  - destruct (is_KeyError e); reflexivity.
  - reflexivity.
Qed.

Lemma populate_parts_nets (part_classes : list PartClass) (filename : string)
    (components : list sexp) :
  forall parts w,
    nets (fst (populate_parts part_classes filename parts components w)) = nets w.
Proof.
  induction components as [| c rest IH]; simpl; intros parts w.
  - reflexivity.
  - unfold bind at 1. unfold populate_part, bind, lift.
    pose proof (make_part_instance_nets part_classes filename c w) as H.
    destruct (make_part_instance part_classes filename c w) as [w1 [e | inst]];
      simpl in *.
    + exact H.
    + destruct (dict_set parts (refdes inst) inst) as [e | parts'];
        [exact H |].
      rewrite IH. exact H.
Qed.

Lemma load_parts_nets (filename : string) (netlist_contents : list sexp)
    (w : world) :
  nets (fst (load_parts filename netlist_contents w)) = nets w.
Proof.
  unfold load_parts. rewrite bind_lift.
  destruct (getitem_section netlist_contents "libparts"); [reflexivity |].
  rewrite bind_lift.
  destruct (rmap _read_kicad_netlist_partcls l) as [e | pcs]; [reflexivity |].
  rewrite bind_lift.
  destruct (getitem_section netlist_contents "components") as [e | comps];
    [reflexivity |].
  unfold bind at 1.
  pose proof (populate_parts_nets pcs filename comps [] w) as H.
  destruct (populate_parts pcs filename [] comps w) as [w1 [e | parts]];
    simpl in *; [exact H |].
  rewrite bind_lift.
  destruct (getitem_section netlist_contents "nets"); exact H.
Qed.

(** C4: a load adds no net that holds a pin twice.  If no net of the context
    holds the same pin object twice before the load, none does after it,
    whether the load returns or raises; and a node that is handled without
    raising either leaves the connections of its net as they are or appends
    one pin that was not among them. *)
Theorem nets_never_hold_a_pin_twice :
  forall (filename : string) (parsed : sexp) (w : world),
    nets_without_duplicates w ->
    nets_without_duplicates (fst (read_kicad_netlist filename parsed w))
    /\ forall parts conns node conns',
         connect_node parts conns node = inr conns' ->
         conns' = conns
         \/ exists pin, conns' = conns ++ [pin]
                        /\ ~ In (pin_key pin) (map pin_key conns).
Proof.
  intros filename parsed w Hw.
  split; [| intros parts conns node conns'; apply connect_node_inr].
  unfold read_kicad_netlist.
  rewrite bind_lift.
  destruct (Better_sexp_init parsed) as [e | contents]; [exact Hw |].
  unfold bind at 1.
  pose proof (load_parts_nets filename contents w) as Hl.
  destruct (load_parts filename contents w) as [w1 [e | loaded]]; simpl in *.
  - unfold nets_without_duplicates. rewrite Hl. exact Hw.
  - assert (H1 : nets_without_duplicates w1)
      by (unfold nets_without_duplicates; rewrite Hl; exact Hw).
    unfold bind.
    pose proof (build_nets_NoDup (fst loaded) filename (snd loaded) w1 H1) as H2.
    destruct (build_nets (fst loaded) filename (snd loaded) w1)
      as [w2 [e | []]]; exact H2.
Qed.

Lemma find_pin_none (pins : list PartInstancePin) (pin_number : sexp) :
  (forall pin, In pin pins ->
               number_in pin_number (numbers (pin_def pin)) = false) ->
  find_pin pins pin_number = None.
Proof.
  induction pins as [| pin rest IH]; simpl; intros H.
  - reflexivity.
  - rewrite (H pin) by (left; reflexivity).
    apply IH. intros q Hq. apply H. right. exact Hq.
Qed.

Lemma connect_nodes_raises (parts : dict PartInstance)
    (before after : list sexp) (node : sexp) (e : exn) :
  forall conns0 conns,
    connect_nodes parts conns0 before = (conns, inr tt) ->
    connect_node parts conns node = inl e ->
    connect_nodes parts conns0 (before ++ node :: after) = (conns, inl e).
Proof.
  induction before as [| n rest IH]; simpl; intros conns0 conns Hb Hn.
  - inversion Hb; subst. rewrite Hn. reflexivity.
  - destruct (connect_node parts conns0 n) as [e0 | conns1]; [discriminate |].
    apply IH; assumption.
Qed.

Lemma build_nets_raises (parts : dict PartInstance) (filename : string)
    (before after : list sexp) (net_sexp : sexp) (e : exn) :
  forall w w1 w2,
    build_nets parts filename before w = (w1, inr tt) ->
    build_net parts filename net_sexp w1 = (w2, inl e) ->
    build_nets parts filename (before ++ net_sexp :: after) w = (w2, inl e).
Proof.
  induction before as [| n rest IH]; simpl; intros w w1 w2 Hb Hn.
  - inversion Hb; subst. apply bind_fail. exact Hn.
  - apply bind_inr in Hb. destruct Hb as (wa & [] & Hn0 & Hrest).
    rewrite (bind_ok _ _ _ _ _ Hn0). eapply IH; eassumption.
Qed.

(** C5: when the loop over the nets reaches, in a net that is not skipped, a
    node whose part is in the mapping and whose pin number is in the number
    set of none of the part's pins, the load ends by raising the [KeyError]
    of the missing pin: it returns no mapping. *)
Theorem pin_not_found_aborts :
  forall (filename : string) (parsed : sexp) (netlist_contents : list sexp)
         (parts : dict PartInstance)
         (nets_before nets_after nodes_before nodes_after : list sexp)
         (net_sexp name node pin_number rd : sexp) (part : PartInstance)
         (conns : list PartInstancePin) (w w1 w2 : world),
    Better_sexp_init parsed = inr netlist_contents ->
    load_parts filename netlist_contents w
    = (w1, inr (parts, nets_before ++ net_sexp :: nets_after)) ->
    build_nets parts filename nets_before w1 = (w2, inr tt) ->
    field net_sexp "name" = inr name ->
    find_all (items net_sexp) "node"
    = inr (nodes_before ++ node :: nodes_after) ->
    is_no_connect (nodes_before ++ node :: nodes_after) name = inr false ->
    connect_nodes parts [] nodes_before = (conns, inr tt) ->
    field node "pin" = inr pin_number ->
    field node "ref" = inr rd ->
    dict_get parts rd = inr part ->
    (forall pin, In pin (pins part) ->
                 number_in pin_number (numbers (pin_def pin)) = false) ->
    snd (read_kicad_netlist filename parsed w)
    = inl (KeyError_pin pin_number part).
Proof.
  intros filename parsed netlist_contents parts nets_before nets_after
         nodes_before nodes_after net_sexp name node pin_number rd part conns
         w w1 w2 Hinit Hload Hbefore Hname Hnodes Hskip Hconns Hpin Hrd Hpart
         Hnone.
  assert (Hnode : connect_node parts conns node
                  = inl (KeyError_pin pin_number part)).
  { unfold connect_node. rewrite Hpin. simpl. rewrite Hrd. simpl.
    rewrite Hpart. simpl. rewrite (find_pin_none _ _ Hnone). reflexivity. }
  pose proof (connect_nodes_raises parts nodes_before nodes_after node _
                [] conns Hconns Hnode) as Hloop.
  assert (Hnet : build_net parts filename net_sexp w2
                 = (mkWorld (stdout w2)
                            (nets w2 ++ [mkNet name (Some filename) conns])
                            (next_obj_id w2),
                    inl (KeyError_pin pin_number part))).
  { unfold build_net.
    rewrite bind_lift, Hname, bind_lift, Hnodes, bind_lift, Hskip, Hloop.
    reflexivity. }
  unfold read_kicad_netlist. rewrite bind_lift, Hinit.
  rewrite (bind_ok _ _ _ _ _ Hload). simpl fst. simpl snd.
  rewrite (bind_fail _ _ _ _ _
             (build_nets_raises parts filename nets_before nets_after net_sexp
                                _ w1 w2 _ Hbefore Hnet)).
  reflexivity.
Qed.

(** ** Instances of the theorems on the sample *)

Lemma unmatched_template_aborts_witness :
  snd (read_kicad_netlist "sample.net" Sample.netlist_unknown_part empty_world)
  = inl (PartNotFoundException
           [Sample.tag "lib" (Str "Device"); Sample.tag "part" (Str "Q_NPN");
            Sample.tag "description" (Str "Resistor")]).
Proof.
  refine (f_equal snd
            (proj1 (unmatched_template_aborts
                      "sample.net" Sample.netlist_unknown_part _
                      [Sample.R_libpart] [Sample.R_class]
                      [Sample.comp "R1" "10k" "R"] []
                      (Sample.comp "Q1" "BC547" "Q_NPN")
                      (Sample.libsource "Device" "Q_NPN")
                      (Str "Device") (Str "Q_NPN") _ empty_world _
                      eq_refl eq_refl eq_refl eq_refl eq_refl eq_refl eq_refl
                      eq_refl _))).
  intros libpart l p [<- | []] Hl Hp.
  vm_compute in Hl. vm_compute in Hp.
  injection Hl as <-. injection Hp as <-. reflexivity.
Defined.

Lemma nets_never_hold_a_pin_twice_witness :
  nets_without_duplicates empty_world
  /\ nets_without_duplicates
       (fst (read_kicad_netlist "sample.net" Sample.netlist empty_world)).
Proof.
  split.
  - constructor.
  - apply (nets_never_hold_a_pin_twice "sample.net" Sample.netlist empty_world).
    constructor.
Defined.

Lemma pin_not_found_aborts_witness :
  snd (read_kicad_netlist "sample.net" Sample.netlist_unknown_pin empty_world)
  = inl (KeyError_pin
           (Str "9")
           (set_defined_at (new_part 0 Sample.R_class (Str "R1") (Str "10k"))
                           "sample.net")).
Proof.
  refine (pin_not_found_aborts
            "sample.net" Sample.netlist_unknown_pin _ _
            [] [] [Sample.node "R1" "1"] []
            (Sample.net "GND" [Sample.node "R1" "1"; Sample.node "R1" "9"])
            (Str "GND") (Sample.node "R1" "9") (Str "9") (Str "R1")
            (set_defined_at (new_part 0 Sample.R_class (Str "R1") (Str "10k"))
                            "sample.net")
            _ empty_world _ _
            eq_refl eq_refl eq_refl eq_refl eq_refl eq_refl eq_refl eq_refl
            eq_refl eq_refl _).
  intros pin [<- | [<- | []]]; reflexivity.
Defined.

Lemma duplicate_refdes_last_write_wins_witness :
  exists part_classes wa wb inst1 w1 w2 inst2,
    make_part_instance part_classes "sample.net"
                       (Sample.comp "R1" "10k" "R") wa = (wb, inr inst1)
    /\ make_part_instance part_classes "sample.net"
                          (Sample.comp "R1" "22k" "R") w1 = (w2, inr inst2)
    /\ refdes inst1 = Str "R1" /\ refdes inst2 = Str "R1"
    /\ obj_id inst1 < obj_id inst2
    /\ dict_get
         [(Str "R1",
           set_defined_at (new_part 2 Sample.R_class (Str "R1") (Str "22k"))
                          "sample.net");
          (Str "R2",
           set_defined_at (new_part 1 Sample.R_class (Str "R2") (Str "10k"))
                          "sample.net")]
         (Str "R1")
       = inr inst2
    /\ forall parts_any,
         exists parts_any',
           populate_part part_classes "sample.net" parts_any
                         (Sample.comp "R1" "22k" "R") w1
           = (w2, inr parts_any').
Proof.
  refine (duplicate_refdes_last_write_wins
            "sample.net" Sample.netlist_duplicate_refdes _ _ _
            [] [Sample.comp "R2" "10k" "R"] []
            (Sample.comp "R1" "10k" "R") (Sample.comp "R1" "22k" "R")
            (Str "R1") empty_world _
            eq_refl eq_refl eq_refl eq_refl eq_refl eq_refl _).
  intros c rd' [].
Defined.

(** The nets that loading the sample registers: [GND] holds the ganged pin of
    [R1] once although two nodes name it, and the single-node net is not
    there. *)
Example sample_netlist_nets :
  map (fun n => (net_name n, map pin_key (connections n)))
      (nets (fst (read_kicad_netlist "sample.net" Sample.netlist empty_world)))
  = [(Str "GND", [(0, 0); (1, 1)]);
     (Str "Net-(R2-Pad1)", [(0, 1); (1, 0)])].
Proof. reflexivity. Qed.

(** The mapping that loading the sample returns, by refdes and object. *)
Example sample_netlist_parts :
  match snd (read_kicad_netlist "sample.net" Sample.netlist empty_world) with
  | inr (parts, _) => map (fun kv => (fst kv, obj_id (snd kv))) parts
  | inl _ => []
  end
  = [(Str "R1", 0); (Str "R2", 1)].
Proof. reflexivity. Qed.

(** * Further properties *)

(** ** The tagged-tree index: [find_all], [keys], laziness *)

Lemma find_all_scannable (l : list sexp) (key : string) :
  forallb scannable l = true -> find_all l key = inr (filter (tagged key) l).
Proof.
  induction l as [| item rest IH]; simpl; intros H.
  - reflexivity.
  - apply andb_prop in H. destruct H as [Hi Hr].
    destruct item as [s | s | z | il]; simpl; auto.
    destruct il as [| hd tl']; simpl in *; [discriminate |].
    destruct hd; simpl in *; try discriminate.
    rewrite (IH Hr). simpl. destruct (String.eqb name key); reflexivity.
Qed.

(** X1: over a list whose list children all begin with a symbol, [find_all]
    returns exactly the children tagged [key], in their order; it raises
    nothing, and the result is empty when no child carries the tag. *)
Theorem find_all_returns_tagged_children :
  forall (l : list sexp) (key : string),
    forallb scannable l = true ->
    find_all l key = inr (filter (tagged key) l).
Proof.
  intros l key H. apply find_all_scannable. exact H.
Qed.

Lemma find_all_returns_tagged_children_witness :
  find_all (items (Sample.net "GND" [Sample.node "R1" "1"; Sample.node "R2" "2"]))
           "node"
  = inr [Sample.node "R1" "1"; Sample.node "R2" "2"].
Proof.
  exact (find_all_returns_tagged_children
           (items (Sample.net "GND" [Sample.node "R1" "1"; Sample.node "R2" "2"]))
           "node" eq_refl).
Defined.

(** X2: a unique-by-tag lookup that returns agrees with [find_all]: the same
    list and tag give exactly the one child that the lookup returned. *)
Theorem getitem_str_agrees_with_find_all :
  forall (l : list sexp) (key : string) (item : sexp),
    getitem_str l key = inr item ->
    find_all l key = inr [item].
Proof.
  intros l key item H.
  pose proof (getitem_str_scannable _ _ _ H) as Hs.
  rewrite (find_all_scannable l key Hs).
  pose proof (getitem_str_by_tagged_children l key Hs) as U.
  unfold unique_by_tag_on in U.
  destruct (filter (tagged key) l) as [| a [| b more]].
  - rewrite U in H. discriminate.
  - rewrite U in H. injection H as ->. reflexivity.
  - rewrite U in H. discriminate.
Qed.

Lemma getitem_str_agrees_with_find_all_witness :
  find_all (items (Sample.comp "R1" "10k" "R")) "ref"
  = inr [Sample.tag "ref" (Str "R1")].
Proof.
  exact (getitem_str_agrees_with_find_all
           (items (Sample.comp "R1" "10k" "R")) "ref"
           (Sample.tag "ref" (Str "R1")) eq_refl).
Defined.

Lemma keys_cases (l : list sexp) :
  (keys l = inl IndexError /\ In (BList []) l)
  \/ (exists ks, keys l = inr ks
                 /\ List.length ks = List.length l
                 /\ ~ In (BList []) l
                 /\ forall key rest, In (BList (Symbol key :: rest)) l ->
                                     In (Symbol key) ks).
Proof.
  induction l as [| item l' IH].
  - right. exists []. simpl. repeat split; auto.
  - destruct item as [s | s | z | [| hd tl']].
    1-3: destruct IH as [[He Hin] | (ks & Hk & Hlen & Hno & Htags)];
      [ left; simpl; rewrite He; split; [reflexivity | right; exact Hin]
      | right; simpl; rewrite Hk; eexists; split; [reflexivity |]; simpl;
        split; [congruence |];
        split; [intros [H | H]; [discriminate | auto]
               | intros key rest [H | H]; [discriminate | right; eauto]] ].
    + left. split; [reflexivity | left; reflexivity].
    + destruct IH as [[He Hin] | (ks & Hk & Hlen & Hno & Htags)].
      * left. simpl. rewrite He. split; [reflexivity | right; exact Hin].
      * right. simpl. rewrite Hk. eexists. split; [reflexivity |]. simpl.
        split; [congruence |].
        split; [intros [H | H]; [discriminate | auto] |].
        intros key rest [H | H].
        -- injection H as -> _. left. reflexivity.
        -- right. eauto.
Qed.

(** X3: [keys] raises exactly when some child is an empty list, and then it
    raises [IndexError]; otherwise it returns one key per child, among them
    the symbol of every child that begins with a symbol, so every tag that a
    unique-by-tag lookup finds is among the keys. *)
Theorem keys_one_per_child :
  forall (l : list sexp),
    (keys l = inl IndexError /\ In (BList []) l)
    \/ (exists ks,
           keys l = inr ks
           /\ List.length ks = List.length l
           /\ ~ In (BList []) l
           /\ forall key item, getitem_str l key = inr item ->
                               In (Symbol key) ks).
Proof.
  intros l. destruct (keys_cases l) as [H | (ks & Hk & Hlen & Hno & Htags)].
  - left. exact H.
  - right. exists ks. repeat split; auto.
    intros key item H. apply getitem_str_inr in H.
    destruct H as (Hin & rest & ->). eapply Htags. exact Hin.
Qed.

Lemma first_tagged_scannable_rest (key : string) (l : list sexp)
    (item : sexp) (rest : list sexp) :
  first_tagged key l = Some (item, rest) ->
  forallb scannable l = true -> forallb scannable rest = true.
Proof.
  intros H Hs. destruct (first_tagged_some _ _ _ _ H) as (_ & _ & before & -> & _).
  apply forallb_scannable_app in Hs. simpl in Hs.
  apply andb_prop in Hs. tauto.
Qed.

(** The generator over [l1 ++ l2], while it is inside a scannable [l1]. *)
Lemma find_all_iter_next_app (key : string) (l1 l2 : list sexp) :
  forallb scannable l1 = true ->
  find_all_iter_next key (l1 ++ l2)
  = match first_tagged key l1 with
    | Some (item, rest) => inr (Some (item, rest ++ l2))
    | None => find_all_iter_next key l2
    end.
Proof.
  induction l1 as [| x l1' IH]; simpl; intros H.
  - reflexivity.
  - apply andb_prop in H. destruct H as [Hx Hr].
    destruct x as [s | s | z | il]; simpl; auto.
    destruct il as [| hd tl']; simpl in *; [discriminate |].
    destruct hd; simpl in *; try discriminate.
    destruct (String.eqb name key); auto.
Qed.

Lemma find_all_iter_next_tagged (key : string) (item : sexp) (rest : list sexp) :
  tagged key item = true ->
  find_all_iter_next key (item :: rest) = inr (Some (item, rest)).
Proof.
  destruct item as [s | s | z | il]; simpl; try discriminate.
  destruct il as [| hd tl']; simpl; [discriminate |].
  destruct hd; simpl; try discriminate.
  intros ->. reflexivity.
Qed.

(** X4: the lookup stops at the second match.  When two children carry the
    tag and the children up to the second of them can be scanned, the lookup
    raises the "More than one" [KeyError] whatever comes after, also a child
    that the scan could not have passed. *)
Theorem getitem_str_stops_at_second_match :
  forall (before between after : list sexp) (m1 m2 : sexp) (key : string),
    forallb scannable (before ++ m1 :: between) = true ->
    tagged key m1 = true ->
    tagged key m2 = true ->
    getitem_str (before ++ m1 :: between ++ m2 :: after) key
    = inl (KeyError_more_than_one key).
Proof.
  intros before between after m1 m2 key Hs H1 H2.
  replace (before ++ m1 :: between ++ m2 :: after)
    with ((before ++ m1 :: between) ++ m2 :: after)
    by (rewrite <- app_assoc; reflexivity).
  unfold getitem_str.
  rewrite (find_all_iter_next_app key _ (m2 :: after) Hs).
  destruct (first_tagged key (before ++ m1 :: between))
    as [[item rest] |] eqn:F.
  - cbv beta iota delta [rbind].
    pose proof (first_tagged_scannable_rest _ _ _ _ F Hs) as Hr.
    rewrite (find_all_iter_next_app key rest (m2 :: after) Hr).
    destruct (first_tagged key rest) as [[item2 rest2] |].
    + reflexivity.
    + rewrite (find_all_iter_next_tagged key m2 after H2). reflexivity.
  - apply first_tagged_none in F. rewrite filter_app in F. simpl in F.
    rewrite H1 in F. destruct (filter (tagged key) before); discriminate.
Qed.

Lemma getitem_str_stops_at_second_match_witness :
  getitem_str ([Symbol "comp"] ++ Sample.tag "ref" (Str "R1")
               :: [Sample.tag "value" (Str "10k")]
               ++ Sample.tag "ref" (Str "R2") :: [BList []]) "ref"
  = inl (KeyError_more_than_one "ref").
Proof.
  exact (getitem_str_stops_at_second_match
           [Symbol "comp"] [Sample.tag "value" (Str "10k")] [BList []]
           (Sample.tag "ref" (Str "R1")) (Sample.tag "ref" (Str "R2")) "ref"
           eq_refl eq_refl eq_refl).
Defined.

(** ** The tokenizer: what it keeps, what it drops *)

Lemma string_concat_empty_cons (h : string) (t : list string) :
  String.concat "" (h :: t) = (h ++ String.concat "" t)%string.
Proof.
  destruct t as [| h' t']; simpl.
  - rewrite string_app_empty_r. reflexivity.
  - reflexivity.
Qed.

Lemma split_at_delimiters_concat (s : string) :
  String.concat "" (split_at_delimiters s) = without_delimiters s.
Proof.
  induction s as [| c s' IH].
  - reflexivity.
  - cbn [split_at_delimiters without_delimiters].
    destruct (is_delimiter c).
    + rewrite string_concat_empty_cons. exact IH.
    + destruct (split_at_delimiters_cons s') as (p & ps & Hp).
      rewrite Hp in *. rewrite string_concat_empty_cons in *.
      simpl. rewrite IH. reflexivity.
Qed.

Lemma filter_nonempty_concat (l : list string) :
  String.concat "" (filter nonempty l) = String.concat "" l.
Proof.
  induction l as [| h t IH].
  - reflexivity.
  - cbn [filter]. destruct h as [| c h'].
    + cbn [nonempty String.eqb negb]. rewrite string_concat_empty_cons.
      exact IH.
    + cbn [nonempty String.eqb negb]. rewrite !string_concat_empty_cons.
      rewrite IH. reflexivity.
Qed.

(** X5: every string that [findall] returns is a token, a non-empty string
    without a delimiter, and the tokens put end to end are the input without
    its delimiters: tokenizing drops delimiters and nothing else. *)
Theorem findall_drops_only_delimiters :
  forall (s : string),
    Forall is_token (PIN_SPLITTER_RE_findall s)
    /\ String.concat "" (PIN_SPLITTER_RE_findall s) = without_delimiters s.
Proof.
  intros s. rewrite PIN_SPLITTER_RE_findall_split. split.
  - exact (split_on_delimiter_runs_tokens s).
  - unfold split_on_delimiter_runs.
    rewrite filter_nonempty_concat. apply split_at_delimiters_concat.
Qed.

Lemma findall_scan_token (t : string) :
  has_delimiter t = false ->
  forall cur r, findall_scan cur (t ++ r) = findall_scan (cur ++ t) r.
Proof.
  induction t as [| c t' IH]; simpl; intros H cur r.
  - rewrite string_app_empty_r. reflexivity.
  - apply orb_false_elim in H. destruct H as [Hc Ht]. rewrite Hc.
    rewrite (IH Ht). rewrite string_app_assoc. reflexivity.
Qed.

Lemma findall_scan_join (d : ascii) (ts : list string) :
  is_delimiter d = true ->
  Forall is_token ts ->
  findall_scan "" (String.concat (String d "") ts) = ts.
Proof.
  intros Hd Hts. induction Hts as [| t ts' [Hne Hnd] Hts' IH].
  - reflexivity.
  - destruct ts' as [| t' ts''].
    + cbn [String.concat].
      rewrite <- (string_app_empty_r t) at 1.
      rewrite (findall_scan_token t Hnd). simpl.
      destruct t; [contradiction | reflexivity].
    + change (String.concat (String d "") (t :: t' :: ts''))
        with (t ++ String d (String.concat (String d "") (t' :: ts'')))%string.
      rewrite (findall_scan_token t Hnd).
      cbn [findall_scan String.append]. rewrite Hd, IH.
      destruct t; [contradiction | reflexivity].
Qed.

(** X6: joining tokens with a delimiter character and tokenizing the result
    gives the tokens back. *)
Theorem findall_of_joined_tokens :
  forall (d : ascii) (ts : list string),
    is_delimiter d = true ->
    Forall is_token ts ->
    PIN_SPLITTER_RE_findall (String.concat (String d "") ts) = ts.
Proof.
  intros d ts Hd Hts. unfold PIN_SPLITTER_RE_findall.
  apply findall_scan_join; assumption.
Qed.

Lemma findall_of_joined_tokens_witness :
  PIN_SPLITTER_RE_findall (String.concat "/" ["SDA"; "GPIO2"]) = ["SDA"; "GPIO2"].
Proof.
  apply (findall_of_joined_tokens "/"%char ["SDA"; "GPIO2"] eq_refl).
  repeat constructor; discriminate.
Defined.

Lemma findall_scan_starts_with_cur (s : string) :
  forall cur,
    cur <> "" ->
    exists u ts,
      findall_scan cur s = (cur ++ u)%string :: ts
      /\ (has_delimiter s = false -> u = s /\ ts = []).
Proof.
  induction s as [| c s' IH]; simpl; intros cur Hcur.
  - exists "", []. rewrite string_app_empty_r.
    destruct cur; [contradiction |]. simpl. auto.
  - destruct (is_delimiter c) eqn:E.
    + exists "", (findall_scan "" s'). rewrite string_app_empty_r.
      destruct cur; [contradiction |]. simpl. split; [reflexivity |].
      discriminate.
    + destruct (IH (cur ++ String c "")%string) as (u & ts & Hscan & Hclean).
      { destruct cur; discriminate. }
      exists (String c u), ts. rewrite Hscan, string_app_assoc.
      split; [reflexivity |]. simpl. intros Hs.
      destruct (Hclean Hs) as [-> ->]. auto.
Qed.

(** X7: a pin named [~] always gets an alias, and its first alias begins
    with [P]; when the raw number holds no delimiter, the only alias is [P]
    followed by the number. *)
Theorem placeholder_pin_has_P_alias :
  forall (num : string) (type : sexp),
    exists u ts,
      make_pin (Str num, Str "~", type)
      = inr (mkPin (PIN_SPLITTER_RE_findall num)
                   (("P" ++ u)%string :: ts)
                   (Str num, Str ("P" ++ num)%string, type))
      /\ (has_delimiter num = false -> u = num /\ ts = []).
Proof.
  intros num type.
  destruct (findall_scan_starts_with_cur num "P") as (u & ts & Hscan & Hclean);
    [discriminate |].
  exists u, ts. split; [| exact Hclean].
  rewrite <- Hscan. reflexivity.
Qed.

(** ** Fields and part classes *)

Lemma py_eq_sym (a b : sexp) : py_eq a b = py_eq b a.
Proof.
  destruct a, b; simpl; try reflexivity.
  - apply String.eqb_sym.
  - apply String.eqb_sym.
  - apply Z.eqb_sym.
Qed.

Lemma py_eq_trans_false (a b c : sexp) :
  py_eq a b = true -> py_eq b c = false -> py_eq a c = false.
Proof. intros H. apply py_eq_eq in H. subst. auto. Qed.

Lemma dict_find_app_none {V} (d : dict V) (k k' : sexp) (v : V) :
  dict_find d k' = None -> py_eq k k' = false ->
  dict_find (d ++ [(k, v)]) k' = None.
Proof.
  intros H Hk. rewrite dict_find_app, H. simpl. rewrite Hk. reflexivity.
Qed.

Lemma dict_find_none_key {V} (d : dict V) (k k0 : sexp) (v0 : V) :
  dict_find d k = None -> In (k0, v0) d -> py_eq k0 k = false.
Proof.
  induction d as [| [k1 v1] d' IH]; simpl; intros H Hin.
  - destruct Hin.
  - destruct (py_eq k1 k) eqn:E; [discriminate |].
    destruct Hin as [Hin | Hin]; [congruence | auto].
Qed.

Lemma dict_replace_keys {V} (d d' : dict V) (k : sexp) (v : V) :
  dict_replace d k v = Some d' -> map fst d' = map fst d.
Proof.
  revert d'. induction d as [| [k0 v0] d0 IH]; simpl; intros d' H.
  - discriminate.
  - destruct (py_eq k0 k).
    + injection H as <-. reflexivity.
    + destruct (dict_replace d0 k v) as [d1 |]; [| discriminate].
      injection H as <-. simpl. rewrite (IH d1 eq_refl). reflexivity.
Qed.

Lemma same_keys_find_none {V} (d : dict V) :
  forall (d' : dict V) (k : sexp),
    map fst d' = map fst d -> dict_find d k = None -> dict_find d' k = None.
Proof.
  induction d as [| [a b] d0 IH]; intros d' k Hk H.
  - destruct d'; [reflexivity | discriminate].
  - destruct d' as [| [a' b'] d1]; [discriminate |].
    simpl in Hk. injection Hk as -> Hk. simpl in *.
    destruct (py_eq a k); [discriminate | eauto].
Qed.

Lemma keys_unique_same_keys {V} (d : dict V) :
  forall (d' : dict V),
    map fst d' = map fst d -> keys_unique d -> keys_unique d'.
Proof.
  induction d as [| [k0 v0] d0 IH]; intros d' Hk Hu.
  - destruct d'; [exact I | discriminate].
  - destruct d' as [| [k1 v1] d1]; [discriminate |].
    simpl in Hk. injection Hk as -> Hk. simpl in Hu. destruct Hu as [H0 Hu].
    simpl. split.
    + apply (same_keys_find_none d0 d1 k0 Hk H0).
    + apply IH; assumption.
Qed.

Lemma dict_set_keys_unique {V} (d d' : dict V) (k : sexp) (v : V) :
  dict_set d k v = inr d' -> keys_unique d -> keys_unique d'.
Proof.
  unfold dict_set. destruct (hashable k); [| discriminate].
  destruct (dict_replace d k v) as [d1 |] eqn:E; intros H Hu;
    injection H as <-.
  - apply (keys_unique_same_keys d d1 (dict_replace_keys _ _ _ _ E) Hu).
  - apply dict_replace_none in E.
    clear - E Hu. induction d as [| [k0 v0] d0 IH]; simpl in *.
    + auto.
    + destruct (py_eq k0 k) eqn:Ek; [discriminate |].
      destruct Hu as [H0 Hu]. split; [| auto].
      apply dict_find_app_none; [exact H0 |].
      rewrite py_eq_sym. exact Ek.
Qed.

Lemma dict_remove_find_none {V} (d : dict V) (k k' : sexp) :
  dict_find d k' = None -> dict_find (dict_remove d k) k' = None.
Proof.
  induction d as [| [k0 v0] d0 IH]; simpl; intros H.
  - reflexivity.
  - destruct (py_eq k0 k') eqn:E; [discriminate |].
    destruct (py_eq k0 k); [exact H |]. simpl. rewrite E. auto.
Qed.

Lemma dict_remove_find_same {V} (d : dict V) (k : sexp) :
  keys_unique d -> dict_find (dict_remove d k) k = None.
Proof.
  induction d as [| [k0 v0] d0 IH]; simpl; intros Hu.
  - reflexivity.
  - destruct Hu as [H0 Hu]. destruct (py_eq k0 k) eqn:E.
    + apply py_eq_eq in E. subst. exact H0.
    + simpl. rewrite E. auto.
Qed.

Lemma dict_remove_find_other {V} (d : dict V) (k k' : sexp) :
  py_eq k k' = false -> dict_find (dict_remove d k) k' = dict_find d k'.
Proof.
  induction d as [| [k0 v0] d0 IH]; simpl; intros H.
  - reflexivity.
  - destruct (py_eq k0 k) eqn:E.
    + rewrite (py_eq_trans_false _ _ _ E H). reflexivity.
    + simpl. destruct (py_eq k0 k'); auto.
Qed.

Lemma dict_remove_keys_unique {V} (d : dict V) (k : sexp) :
  keys_unique d -> keys_unique (dict_remove d k).
Proof.
  induction d as [| [k0 v0] d0 IH]; simpl; intros Hu.
  - exact I.
  - destruct Hu as [H0 Hu]. destruct (py_eq k0 k); [exact Hu |].
    simpl. split; [apply dict_remove_find_none; exact H0 | auto].
Qed.

(** [pop] returns the value under the key, or the default, and leaves a
    dictionary without the key and with every other key as it was. *)
Lemma dict_pop_spec {V} (d : dict V) (k : sexp) (default : V) :
  keys_unique d ->
  fst (dict_pop d k default) = dict_find_default d k default
  /\ dict_find (snd (dict_pop d k default)) k = None
  /\ (forall k', py_eq k k' = false ->
                 dict_find (snd (dict_pop d k default)) k' = dict_find d k')
  /\ keys_unique (snd (dict_pop d k default)).
Proof.
  intros Hu. unfold dict_pop, dict_find_default.
  destruct (dict_find d k) eqn:E; simpl.
  - repeat split.
    + apply dict_remove_find_same. exact Hu.
    + intros k' Hk. apply dict_remove_find_other. exact Hk.
    + apply dict_remove_keys_unique. exact Hu.
  - repeat split; auto.
Qed.

Lemma read_fields_from_find (k : sexp) (fs : list sexp) :
  forall d0 d,
    read_fields_from fs d0 = inr d ->
    dict_find d k
    = match last_field_named k fs with
      | Some v => Some v
      | None => dict_find d0 k
      end.
Proof.
  induction fs as [| f fs' IH]; simpl; intros d0 d H.
  - injection H as <-. reflexivity.
  - apply rbind_inr in H. destruct H as (k1 & Hk1 & H).
    apply rbind_inr in H. destruct H as (v1 & Hv1 & H).
    apply rbind_inr in H. destruct H as (d1 & Hset & H).
    rewrite (IH _ _ H). destruct (last_field_named k fs'); [reflexivity |].
    rewrite Hk1, Hv1. destruct (py_eq k1 k) eqn:E.
    + pose proof (py_eq_eq _ _ E) as ->.
      apply (dict_set_find_same _ _ _ _ Hset E).
    + apply (dict_set_find_other _ _ _ _ _ Hset E).
Qed.

Lemma read_fields_from_keys_unique (fs : list sexp) :
  forall d0 d,
    read_fields_from fs d0 = inr d -> keys_unique d0 -> keys_unique d.
Proof.
  induction fs as [| f fs' IH]; simpl; intros d0 d H Hu.
  - injection H as <-. exact Hu.
  - apply rbind_inr in H. destruct H as (k1 & Hk1 & H).
    apply rbind_inr in H. destruct H as (v1 & Hv1 & H).
    apply rbind_inr in H. destruct H as (d1 & Hset & H).
    apply (IH _ _ H). apply (dict_set_keys_unique _ _ _ _ Hset Hu).
Qed.

Lemma _read_fields_keys_unique (part : sexp) (d : dict sexp) :
  _read_fields part = inr d -> keys_unique d.
Proof.
  unfold _read_fields. intros H.
  apply rbind_inr in H. destruct H as (fs & _ & H).
  apply (read_fields_from_keys_unique _ _ _ H). exact I.
Qed.

(** X8: the dictionary that [_read_fields] returns holds, under every key,
    the value of the last field entry of that name, and nothing under a key
    that names no entry; no two of its keys are equal. *)
Theorem _read_fields_last_entry_wins :
  forall (part : sexp) (fs : list sexp) (d : dict sexp),
    section part "fields" = inr fs ->
    _read_fields part = inr d ->
    (forall k, dict_find d k = last_field_named k fs) /\ keys_unique d.
Proof.
  intros part fs d Hfs H. split.
  - intros k. unfold _read_fields in H. rewrite Hfs in H. simpl in H.
    rewrite (read_fields_from_find k _ _ _ H).
    destruct (last_field_named k fs); reflexivity.
  - apply (_read_fields_keys_unique _ _ H).
Qed.

Lemma _read_fields_last_entry_wins_witness :
  dict_find [(Str "Reference", Str "R"); (Str "Value", Str "R")] (Str "Value")
  = Some (Str "R").
Proof.
  exact (proj1 (_read_fields_last_entry_wins
                  Sample.R_libpart
                  [BList [Symbol "field"; Sample.tag "name" (Str "Reference");
                          Str "R"];
                   BList [Symbol "field"; Sample.tag "name" (Str "Value");
                          Str "R"]]
                  [(Str "Reference", Str "R"); (Str "Value", Str "R")]
                  eq_refl eq_refl)
               (Str "Value")).
Defined.

Lemma rmap_Forall2 {A B} (f : A -> result B) (l : list A) :
  forall (l' : list B),
    rmap f l = inr l' -> Forall2 (fun a b => f a = inr b) l l'.
Proof.
  induction l as [| a l0 IH]; simpl; intros l' H.
  - injection H as <-. constructor.
  - apply rbind_inr in H. destruct H as (b & Hb & H).
    apply rbind_inr in H. destruct H as (bs & Hbs & H).
    injection H as <-. constructor; auto.
Qed.

Lemma as_str_inr (x : sexp) (s : string) : as_str x = inr s -> x = Str s.
Proof. destruct x; simpl; intros H; try discriminate. congruence. Qed.

Lemma as_type_name_inr (x : sexp) (s : string) :
  as_type_name x = inr s -> x = Str s.
Proof.
  destruct x as [n | n | z | l]; simpl; intros H; try discriminate.
  destruct (contains_null n); [discriminate | congruence].
Qed.

(** Everything that a class built from a libpart entry records, read off
    the entry. *)
Lemma _read_kicad_netlist_partcls_inr (libpart : sexp) (cls : PartClass) :
  _read_kicad_netlist_partcls libpart = inr cls ->
  exists name descr fields entries raws,
    field libpart "lib" = inr (_kicad_lib cls)
    /\ field libpart "part" = inr (Str name)
    /\ field libpart "description" = inr (Str descr)
    /\ _read_fields libpart = inr fields
    /\ section libpart "pins" = inr entries
    /\ rmap read_pin entries = inr raws
    /\ rmap make_pin raws = inr (PINS cls)
    /\ class_name cls = name
    /\ _kicad_part cls = Str name
    /\ _kicad_description cls = descr
    /\ _kicad_source_structure cls = libpart
    /\ REFDES_PREFIX cls
       = fst (dict_pop fields (Str "Reference") default_REFDES_PREFIX)
    /\ class_value cls
       = fst (dict_pop
                (snd (dict_pop fields (Str "Reference") default_REFDES_PREFIX))
                (Str "Value") (Str ""))
    /\ class_package cls
       = fst (dict_pop
                (snd (dict_pop
                        (snd (dict_pop fields (Str "Reference")
                                       default_REFDES_PREFIX))
                        (Str "Value") (Str "")))
                (Str "Footprint") (Str ""))
    /\ doc_fields cls
       = snd (dict_pop
                (snd (dict_pop
                        (snd (dict_pop fields (Str "Reference")
                                       default_REFDES_PREFIX))
                        (Str "Value") (Str "")))
                (Str "Footprint") (Str ""))
    /\ parent_classes cls
       = [KicadPart]
         ++ (if (List.length (PINS cls) =? 2)%nat
             then (if py_eq (REFDES_PREFIX cls) (Str "R") then [R] else [])
                  ++ (if py_eq (REFDES_PREFIX cls) (Str "C") then [C] else [])
             else []).
Proof.
  unfold _read_kicad_netlist_partcls. intros H.
  apply rbind_inr in H. destruct H as (lib & Hlib & H).
  apply rbind_inr in H. destruct H as (part_name & Hpart & H).
  apply rbind_inr in H. destruct H as (description & Hdescr & H).
  apply rbind_inr in H. destruct H as (fields & Hfields & H).
  apply rbind_inr in H. destruct H as (entries & Hentries & H).
  apply rbind_inr in H. destruct H as (raws & Hraws & H).
  apply rbind_inr in H. destruct H as (pcbdl_pins & Hpins & H).
  destruct (dict_pop fields (Str "Reference") default_REFDES_PREFIX)
    as [refdes_prefix fields1] eqn:P1.
  destruct (dict_pop fields1 (Str "Value") (Str "")) as [cv fields2] eqn:P2.
  destruct (dict_pop fields2 (Str "Footprint") (Str "")) as [cp fields3] eqn:P3.
  apply rbind_inr in H. destruct H as (doc & Hdoc & H).
  apply rbind_inr in H. destruct H as (name & Hname & H).
  apply as_str_inr in Hdoc. apply as_type_name_inr in Hname. subst.
  injection H as <-. simpl.
  exists name, doc, fields, entries, raws.
  rewrite P1. simpl. rewrite P2. simpl. rewrite P3. simpl.
  repeat split; auto.
Qed.

(** X9: the prefix, value and package of a class are the values of the
    fields [Reference], [Value] and [Footprint] of its libpart entry, and
    [U], the empty string and the empty string when the entry has no such
    field; the fields left for the class's documentation are all the others,
    unchanged. *)
Theorem _read_kicad_netlist_partcls_defaults :
  forall (libpart : sexp) (cls : PartClass),
    _read_kicad_netlist_partcls libpart = inr cls ->
    exists fields,
      _read_fields libpart = inr fields
      /\ REFDES_PREFIX cls
         = dict_find_default fields (Str "Reference") (Str "U")
      /\ class_value cls = dict_find_default fields (Str "Value") (Str "")
      /\ class_package cls = dict_find_default fields (Str "Footprint") (Str "")
      /\ forall k,
           dict_find (doc_fields cls) k
           = if py_eq (Str "Reference") k || py_eq (Str "Value") k
                || py_eq (Str "Footprint") k
             then None
             else dict_find fields k.
Proof.
  intros libpart cls H.
  apply _read_kicad_netlist_partcls_inr in H.
  destruct H as (name & descr & fields & entries & raws
                 & _ & _ & _ & Hf & _ & _ & _ & _ & _ & _ & _
                 & Hprefix & Hvalue & Hpackage & Hdoc & _).
  exists fields. split; [exact Hf |].
  pose proof (_read_fields_keys_unique _ _ Hf) as U0.
  destruct (dict_pop_spec fields (Str "Reference") default_REFDES_PREFIX U0)
    as (A1 & B1 & C1 & U1).
  set (f1 := snd (dict_pop fields (Str "Reference") default_REFDES_PREFIX)) in *.
  destruct (dict_pop_spec f1 (Str "Value") (Str "") U1) as (A2 & B2 & C2 & U2).
  set (f2 := snd (dict_pop f1 (Str "Value") (Str ""))) in *.
  destruct (dict_pop_spec f2 (Str "Footprint") (Str "") U2)
    as (A3 & B3 & C3 & U3).
  set (f3 := snd (dict_pop f2 (Str "Footprint") (Str ""))) in *.
  split; [rewrite Hprefix; exact A1 |].
  split.
  { rewrite Hvalue, A2. unfold dict_find_default.
    rewrite (C1 (Str "Value") eq_refl). reflexivity. }
  split.
  { rewrite Hpackage, A3. unfold dict_find_default.
    rewrite (C2 (Str "Footprint") eq_refl), (C1 (Str "Footprint") eq_refl).
    reflexivity. }
  intros k. rewrite Hdoc.
  destruct (py_eq (Str "Footprint") k) eqn:E3.
  { apply py_eq_eq in E3. subst k. rewrite B3, orb_true_r. reflexivity. }
  rewrite (C3 k E3), orb_false_r.
  destruct (py_eq (Str "Value") k) eqn:E2.
  { apply py_eq_eq in E2. subst k. rewrite B2, orb_true_r. reflexivity. }
  rewrite (C2 k E2), orb_false_r.
  destruct (py_eq (Str "Reference") k) eqn:E1.
  { apply py_eq_eq in E1. subst k. rewrite B1. reflexivity. }
  rewrite (C1 k E1). reflexivity.
Qed.

Lemma _read_kicad_netlist_partcls_defaults_witness :
  exists fields,
    _read_fields Sample.R_libpart = inr fields
    /\ REFDES_PREFIX Sample.R_class
       = dict_find_default fields (Str "Reference") (Str "U")
    /\ class_value Sample.R_class
       = dict_find_default fields (Str "Value") (Str "")
    /\ class_package Sample.R_class
       = dict_find_default fields (Str "Footprint") (Str "")
    /\ forall k,
         dict_find (doc_fields Sample.R_class) k
         = if py_eq (Str "Reference") k || py_eq (Str "Value") k
              || py_eq (Str "Footprint") k
           then None
           else dict_find fields k.
Proof.
  exact (_read_kicad_netlist_partcls_defaults
           Sample.R_libpart Sample.R_class eq_refl).
Defined.

(** X10: a class inherits the resistor behaviour exactly when it has two
    pins and the prefix [R], the capacitor behaviour exactly when it has two
    pins and the prefix [C], never both, and [KicadPart] always. *)
Theorem _read_kicad_netlist_partcls_specialization :
  forall (libpart : sexp) (cls : PartClass),
    _read_kicad_netlist_partcls libpart = inr cls ->
    In KicadPart (parent_classes cls)
    /\ (In R (parent_classes cls)
        <-> List.length (PINS cls) = 2 /\ REFDES_PREFIX cls = Str "R")
    /\ (In C (parent_classes cls)
        <-> List.length (PINS cls) = 2 /\ REFDES_PREFIX cls = Str "C")
    /\ ~ (In R (parent_classes cls) /\ In C (parent_classes cls)).
Proof.
  intros libpart cls H.
  apply _read_kicad_netlist_partcls_inr in H.
  destruct H as (name & descr & fields & entries & raws
                 & _ & _ & _ & _ & _ & _ & _ & _ & _ & _ & _
                 & _ & _ & _ & _ & Hp).
  rewrite Hp. clear Hp.
  assert (HR : py_eq (REFDES_PREFIX cls) (Str "R") = true
               <-> REFDES_PREFIX cls = Str "R")
    by (split; [apply py_eq_eq | intros ->; reflexivity]).
  assert (HC : py_eq (REFDES_PREFIX cls) (Str "C") = true
               <-> REFDES_PREFIX cls = Str "C")
    by (split; [apply py_eq_eq | intros ->; reflexivity]).
  pose proof (Nat.eqb_eq (List.length (PINS cls)) 2) as HL.
  destruct (List.length (PINS cls) =? 2)%nat;
    destruct (py_eq (REFDES_PREFIX cls) (Str "R"));
    destruct (py_eq (REFDES_PREFIX cls) (Str "C"));
    simpl; intuition (try discriminate; try congruence).
Qed.

Lemma _read_kicad_netlist_partcls_specialization_witness :
  In KicadPart (parent_classes Sample.R_class)
  /\ (In R (parent_classes Sample.R_class)
      <-> List.length (PINS Sample.R_class) = 2
          /\ REFDES_PREFIX Sample.R_class = Str "R")
  /\ (In C (parent_classes Sample.R_class)
      <-> List.length (PINS Sample.R_class) = 2
          /\ REFDES_PREFIX Sample.R_class = Str "C")
  /\ ~ (In R (parent_classes Sample.R_class)
        /\ In C (parent_classes Sample.R_class)).
Proof.
  exact (_read_kicad_netlist_partcls_specialization
           Sample.R_libpart Sample.R_class eq_refl).
Defined.

Lemma read_pin_inr (entry : sexp) (raw : sexp * sexp * sexp) :
  read_pin entry = inr raw ->
  field entry "num" = inr (fst (fst raw))
  /\ field entry "name" = inr (snd (fst raw))
  /\ field entry "type" = inr (snd raw).
Proof.
  unfold read_pin. intros H.
  apply rbind_inr in H. destruct H as (num & Hnum & H).
  apply rbind_inr in H. destruct H as (name & Hname & H).
  apply rbind_inr in H. destruct H as (type & Htype & H).
  injection H as <-. simpl. auto.
Qed.

Lemma make_pin_inr (num name type : sexp) (pin : Pin) :
  make_pin (num, name, type) = inr pin ->
  exists n, num = Str n /\ numbers pin = PIN_SPLITTER_RE_findall n.
Proof.
  unfold make_pin. intros H.
  apply rbind_inr in H. destruct H as (name' & _ & H).
  apply rbind_inr in H. destruct H as (pin_names & _ & H).
  apply rbind_inr in H. destruct H as (pin_numbers & Hn & H).
  injection H as <-. simpl.
  destruct num as [s | n | z | l]; simpl in Hn; try discriminate.
  injection Hn as <-. eauto.
Qed.

Lemma pins_of_entries (entries : list sexp) :
  forall raws pins,
    rmap read_pin entries = inr raws ->
    rmap make_pin raws = inr pins ->
    Forall2 pin_of_entry entries pins.
Proof.
  induction entries as [| e es IH]; simpl; intros raws pins Hr Hp.
  - injection Hr as <-. simpl in Hp. injection Hp as <-. constructor.
  - apply rbind_inr in Hr. destruct Hr as (raw & Hraw & Hr).
    apply rbind_inr in Hr. destruct Hr as (raws' & Hraws & Hr).
    injection Hr as <-. simpl in Hp.
    apply rbind_inr in Hp. destruct Hp as (pin & Hpin & Hp).
    apply rbind_inr in Hp. destruct Hp as (pins' & Hpins & Hp).
    injection Hp as <-. constructor; [| eauto].
    destruct raw as [[num name] type].
    destruct (read_pin_inr _ _ Hraw) as (Hnum & Hname & Htype). simpl in *.
    destruct (make_pin_inr _ _ _ _ Hpin) as (n & -> & Hnumbers).
    exists n, name, type. auto.
Qed.

(** X11: the pins of a class are the entries of the libpart's [pins]
    section, one pin per entry and in the same order; a class is built only
    when every entry's number is a string, and each pin's numbers are the
    tokens of its entry's number. *)
Theorem _read_kicad_netlist_partcls_pins_in_order :
  forall (libpart : sexp) (cls : PartClass),
    _read_kicad_netlist_partcls libpart = inr cls ->
    exists entries,
      section libpart "pins" = inr entries
      /\ Forall2 pin_of_entry entries (PINS cls)
      /\ List.length (PINS cls) = List.length entries.
Proof.
  intros libpart cls H.
  apply _read_kicad_netlist_partcls_inr in H.
  destruct H as (name & descr & fields & entries & raws
                 & _ & _ & _ & _ & He & Hr & Hp & _).
  exists entries. split; [exact He |].
  pose proof (pins_of_entries _ _ _ Hr Hp) as F.
  split; [exact F |]. symmetry. exact (Forall2_length F).
Qed.

Lemma _read_kicad_netlist_partcls_pins_in_order_witness :
  exists entries,
    section Sample.R_libpart "pins" = inr entries
    /\ Forall2 pin_of_entry entries (PINS Sample.R_class)
    /\ List.length (PINS Sample.R_class) = List.length entries.
Proof.
  exact (_read_kicad_netlist_partcls_pins_in_order
           Sample.R_libpart Sample.R_class eq_refl).
Defined.

(** X12: a class is built only from an entry whose part name and description
    are strings; it is named after the part, keeps the entry's library, part
    name and description, and keeps the entry itself as its source. *)
Theorem _read_kicad_netlist_partcls_records_entry :
  forall (libpart : sexp) (cls : PartClass),
    _read_kicad_netlist_partcls libpart = inr cls ->
    exists name descr,
      field libpart "part" = inr (Str name)
      /\ field libpart "description" = inr (Str descr)
      /\ field libpart "lib" = inr (_kicad_lib cls)
      /\ class_name cls = name
      /\ _kicad_part cls = Str name
      /\ _kicad_description cls = descr
      /\ _kicad_source_structure cls = libpart.
Proof.
  intros libpart cls H.
  apply _read_kicad_netlist_partcls_inr in H.
  destruct H as (name & descr & fields & entries & raws
                 & Hlib & Hpart & Hdescr & _ & _ & _ & _
                 & Hn & Hp & Hd & Hs & _).
  exists name, descr. repeat split; assumption.
Qed.

Lemma _read_kicad_netlist_partcls_records_entry_witness :
  exists name descr,
    field Sample.R_libpart "part" = inr (Str name)
    /\ field Sample.R_libpart "description" = inr (Str descr)
    /\ field Sample.R_libpart "lib" = inr (_kicad_lib Sample.R_class)
    /\ class_name Sample.R_class = name
    /\ _kicad_part Sample.R_class = Str name
    /\ _kicad_description Sample.R_class = descr
    /\ _kicad_source_structure Sample.R_class = Sample.R_libpart.
Proof.
  exact (_read_kicad_netlist_partcls_records_entry
           Sample.R_libpart Sample.R_class eq_refl).
Defined.

(** ** The loader: sections and footprints *)

Lemma getitem_section_missing (l : list sexp) (key : string) :
  forallb scannable l = true ->
  filter (tagged key) l = [] ->
  getitem_section l key = inl (KeyError key).
Proof.
  intros Hs Hf. unfold getitem_section.
  pose proof (getitem_str_by_tagged_children l key Hs) as U.
  unfold unique_by_tag_on in U. rewrite Hf in U. rewrite U. reflexivity.
Qed.

(** X13: the three sections are looked up in the order [libparts],
    [components], [nets], each when it is needed.  Over a tree whose list
    children all begin with a symbol, a missing [libparts] section ends the
    load with [KeyError('libparts')] before anything is done; a missing
    [components] section with [KeyError('components')] once the classes are
    built; and a missing [nets] section with [KeyError('nets')] only after
    every part has been instantiated, in the world those instantiations
    left. *)
Theorem missing_section_raises_KeyError :
  forall (filename : string) (l : list sexp) (w : world),
    forallb scannable l = true ->
    (filter (tagged "libparts") l = [] ->
     read_kicad_netlist filename (BList l) w = (w, inl (KeyError "libparts")))
    /\ (forall libparts part_classes,
           getitem_section l "libparts" = inr libparts ->
           rmap _read_kicad_netlist_partcls libparts = inr part_classes ->
           filter (tagged "components") l = [] ->
           read_kicad_netlist filename (BList l) w
           = (w, inl (KeyError "components")))
    /\ (forall libparts part_classes components parts w1,
           getitem_section l "libparts" = inr libparts ->
           rmap _read_kicad_netlist_partcls libparts = inr part_classes ->
           getitem_section l "components" = inr components ->
           populate_parts part_classes filename [] components w
           = (w1, inr parts) ->
           filter (tagged "nets") l = [] ->
           read_kicad_netlist filename (BList l) w
           = (w1, inl (KeyError "nets"))).
Proof.
  intros filename l w Hs. unfold read_kicad_netlist, load_parts.
  rewrite bind_lift. simpl Better_sexp_init. cbv iota.
  split; [| split].
  - intros Hf. apply bind_fail.
    rewrite bind_lift, (getitem_section_missing l "libparts" Hs Hf).
    reflexivity.
  - intros libparts part_classes Hlp Hpcs Hf. apply bind_fail.
    rewrite bind_lift, Hlp, bind_lift, Hpcs, bind_lift.
    rewrite (getitem_section_missing l "components" Hs Hf). reflexivity.
  - intros libparts part_classes components parts w1 Hlp Hpcs Hc Hpop Hf.
    apply bind_fail.
    rewrite bind_lift, Hlp, bind_lift, Hpcs, bind_lift, Hc.
    rewrite (bind_ok _ _ _ _ _ Hpop), bind_lift.
    rewrite (getitem_section_missing l "nets" Hs Hf). reflexivity.
Qed.

Lemma missing_section_raises_KeyError_witness :
  read_kicad_netlist "sample.net"
    (BList [Symbol "export";
            BList [Symbol "components"; Sample.comp "R1" "10k" "R"];
            BList [Symbol "libparts"; Sample.R_libpart]])
    empty_world
  = (mkWorld [does_not_have_a_footprint_defined
                (new_part 0 Sample.R_class (Str "R1") (Str "10k"))] [] 1,
     inl (KeyError "nets")).
Proof.
  exact (proj2 (proj2 (missing_section_raises_KeyError
                         "sample.net"
                         [Symbol "export";
                          BList [Symbol "components";
                                 Sample.comp "R1" "10k" "R"];
                          BList [Symbol "libparts"; Sample.R_libpart]]
                         empty_world eq_refl))
           [Sample.R_libpart] [Sample.R_class] [Sample.comp "R1" "10k" "R"]
           [(Str "R1",
             set_defined_at (new_part 0 Sample.R_class (Str "R1") (Str "10k"))
                            "sample.net")]
           (mkWorld [does_not_have_a_footprint_defined
                       (new_part 0 Sample.R_class (Str "R1") (Str "10k"))] [] 1)
           eq_refl eq_refl eq_refl eq_refl eq_refl).
Defined.

(** The loop body on a component whose class, [ref] and [value] are found:
    the outcome of building the instance, then the store. *)
Lemma populate_part_found (part_classes : list PartClass) (filename : string)
    (parts : dict PartInstance)
    (component libsource lib part_name rd v : sexp) (cls : PartClass)
    (w : world) :
  subscript_str component "libsource" = inr libsource ->
  field libsource "lib" = inr lib ->
  field libsource "part" = inr part_name ->
  find_part_class part_classes lib part_name = Some cls ->
  field component "ref" = inr rd ->
  field component "value" = inr v ->
  populate_part part_classes filename parts component w
  = match part_instance_outcome filename component cls rd v w with
    | (w', inl e) => (w', inl e)
    | (w', inr inst) => (w', dict_set parts (refdes inst) inst)
    end.
Proof.
  intros Hls Hlib Hpart Hcls Hrd Hv. unfold populate_part, bind.
  rewrite (make_part_instance_found _ filename _ _ _ _ _ _ _ w
             Hls Hlib Hpart Hcls Hrd Hv).
  destruct (part_instance_outcome filename component cls rd v w)
    as [w' [e | inst]]; reflexivity.
Qed.

(** X14: a component with a readable [footprint] gets that footprint as its
    package, in place of the package of its class, and nothing is printed. *)
Theorem footprint_overrides_package :
  forall (part_classes : list PartClass) (filename : string)
         (parts : dict PartInstance)
         (component libsource lib part_name rd v footprint : sexp)
         (cls : PartClass) (w : world),
    subscript_str component "libsource" = inr libsource ->
    field libsource "lib" = inr lib ->
    field libsource "part" = inr part_name ->
    find_part_class part_classes lib part_name = Some cls ->
    field component "ref" = inr rd ->
    field component "value" = inr v ->
    hashable rd = true ->
    py_eq rd rd = true ->
    field component "footprint" = inr footprint ->
    exists w' parts' inst,
      populate_part part_classes filename parts component w = (w', inr parts')
      /\ dict_get parts' rd = inr inst
      /\ package inst = footprint
      /\ part_class inst = cls
      /\ stdout w' = stdout w.
Proof.
  intros part_classes filename parts component libsource lib part_name rd v
         footprint cls w Hls Hlib Hpart F Hrd Hv Hh Hk Hfp.
  rewrite (populate_part_found _ filename parts _ _ _ _ _ _ _ w
             Hls Hlib Hpart F Hrd Hv).
  unfold part_instance_outcome. rewrite Hfp. cbv zeta.
  set (inst := set_defined_at
                 (set_package (new_part (next_obj_id w) cls rd v) footprint)
                 filename).
  assert (Hh' : hashable (refdes inst) = true) by exact Hh.
  destruct (dict_set_total parts _ inst Hh') as (parts' & Hset).
  eexists _, parts', inst. split; [rewrite Hset; reflexivity |].
  split.
  - unfold dict_get. rewrite Hh. change (refdes inst) with rd in Hset.
    rewrite (dict_set_find_same _ _ _ _ Hset Hk). reflexivity.
  - repeat split; reflexivity.
Qed.

Lemma footprint_overrides_package_witness :
  exists w' parts' inst,
    populate_part [Sample.R_class] "sample.net" []
                  (Sample.comp_with_footprint "R1" "10k" "R" "R_0603")
                  empty_world
    = (w', inr parts')
    /\ dict_get parts' (Str "R1") = inr inst
    /\ package inst = Str "R_0603"
    /\ part_class inst = Sample.R_class
    /\ stdout w' = stdout empty_world.
Proof.
  exact (footprint_overrides_package
           [Sample.R_class] "sample.net" []
           (Sample.comp_with_footprint "R1" "10k" "R" "R_0603")
           (Sample.libsource "Device" "R") (Str "Device") (Str "R")
           (Str "R1") (Str "10k") (Str "R_0603") Sample.R_class empty_world
           eq_refl eq_refl eq_refl eq_refl eq_refl eq_refl eq_refl eq_refl
           eq_refl).
Defined.

Lemma field_ambiguous (x : sexp) (key0 : string) (v : sexp) (key : string)
    (a b : sexp) (more : list sexp) :
  field x key0 = inr v ->
  filter (tagged key) (items x) = a :: b :: more ->
  field x key = inl (KeyError_more_than_one key).
Proof.
  intros H Hf. destruct (field_inr _ _ _ H) as (l & -> & Hs). simpl in Hf.
  unfold field. simpl.
  pose proof (getitem_str_by_tagged_children l key Hs) as U.
  unfold unique_by_tag_on in U. rewrite Hf in U. rewrite U. reflexivity.
Qed.

(** X15: a component with two or more children tagged [footprint] is handled
    like one with none: the "More than one" error of the lookup is a
    [KeyError], so the line is printed, the package stays the one of the
    class, and the instance is stored. *)
Theorem ambiguous_footprint_is_ignored :
  forall (part_classes : list PartClass) (filename : string)
         (parts : dict PartInstance)
         (component libsource lib part_name rd v a b : sexp)
         (more : list sexp) (cls : PartClass) (w : world),
    subscript_str component "libsource" = inr libsource ->
    field libsource "lib" = inr lib ->
    field libsource "part" = inr part_name ->
    find_part_class part_classes lib part_name = Some cls ->
    field component "ref" = inr rd ->
    field component "value" = inr v ->
    hashable rd = true ->
    py_eq rd rd = true ->
    filter (tagged "footprint") (items component) = a :: b :: more ->
    exists w' parts' inst,
      populate_part part_classes filename parts component w = (w', inr parts')
      /\ dict_get parts' rd = inr inst
      /\ package inst = class_package cls
      /\ stdout w'
         = stdout w
           ++ [does_not_have_a_footprint_defined
                 (new_part (next_obj_id w) cls rd v)].
Proof.
  intros part_classes filename parts component libsource lib part_name rd v
         a b more cls w Hls Hlib Hpart F Hrd Hv Hh Hk Hmany.
  rewrite (populate_part_found _ filename parts _ _ _ _ _ _ _ w
             Hls Hlib Hpart F Hrd Hv).
  unfold part_instance_outcome.
  rewrite (field_ambiguous _ _ _ "footprint" _ _ _ Hrd Hmany).
  cbv beta iota zeta delta [is_KeyError].
  set (inst := set_defined_at (new_part (next_obj_id w) cls rd v) filename).
  assert (Hh' : hashable (refdes inst) = true) by exact Hh.
  destruct (dict_set_total parts _ inst Hh') as (parts' & Hset).
  eexists _, parts', inst. split; [rewrite Hset; reflexivity |].
  split.
  - unfold dict_get. rewrite Hh. change (refdes inst) with rd in Hset.
    rewrite (dict_set_find_same _ _ _ _ Hset Hk). reflexivity.
  - split; reflexivity.
Qed.

Lemma ambiguous_footprint_is_ignored_witness :
  exists w' parts' inst,
    populate_part [Sample.R_class] "sample.net" []
      (BList [Symbol "comp"; Sample.tag "ref" (Str "R1");
              Sample.tag "value" (Str "10k");
              Sample.tag "footprint" (Str "R_0603");
              Sample.tag "footprint" (Str "R_0805");
              Sample.libsource "Device" "R"])
      empty_world
    = (w', inr parts')
    /\ dict_get parts' (Str "R1") = inr inst
    /\ package inst = class_package Sample.R_class
    /\ stdout w'
       = stdout empty_world
         ++ [does_not_have_a_footprint_defined
               (new_part 0 Sample.R_class (Str "R1") (Str "10k"))].
Proof.
  exact (ambiguous_footprint_is_ignored
           [Sample.R_class] "sample.net" []
           (BList [Symbol "comp"; Sample.tag "ref" (Str "R1");
                   Sample.tag "value" (Str "10k");
                   Sample.tag "footprint" (Str "R_0603");
                   Sample.tag "footprint" (Str "R_0805");
                   Sample.libsource "Device" "R"])
           (Sample.libsource "Device" "R") (Str "Device") (Str "R")
           (Str "R1") (Str "10k")
           (Sample.tag "footprint" (Str "R_0603"))
           (Sample.tag "footprint" (Str "R_0805")) []
           Sample.R_class empty_world
           eq_refl eq_refl eq_refl eq_refl eq_refl eq_refl eq_refl eq_refl
           eq_refl).
Defined.

Lemma field_without_value (x : sexp) (key0 : string) (v : sexp) (key : string) :
  field x key0 = inr v ->
  filter (tagged key) (items x) = [BList [Symbol key]] ->
  field x key = inl IndexError.
Proof.
  intros H Hf. destruct (field_inr _ _ _ H) as (l & -> & Hs). simpl in Hf.
  unfold field. simpl.
  pose proof (getitem_str_by_tagged_children l key Hs) as U.
  unfold unique_by_tag_on in U. rewrite Hf in U. rewrite U. reflexivity.
Qed.

(** X16: a [footprint] child that holds no value is fatal, unlike a missing
    one: the [IndexError] of [component["footprint"][1]] is not a [KeyError],
    so the loop body raises it, after the instance has been created, and
    stores nothing. *)
Theorem footprint_without_value_is_fatal :
  forall (part_classes : list PartClass) (filename : string)
         (parts : dict PartInstance)
         (component libsource lib part_name rd v : sexp)
         (cls : PartClass) (w : world),
    subscript_str component "libsource" = inr libsource ->
    field libsource "lib" = inr lib ->
    field libsource "part" = inr part_name ->
    find_part_class part_classes lib part_name = Some cls ->
    field component "ref" = inr rd ->
    field component "value" = inr v ->
    filter (tagged "footprint") (items component)
    = [BList [Symbol "footprint"]] ->
    populate_part part_classes filename parts component w
    = (mkWorld (stdout w) (nets w) (S (next_obj_id w)), inl IndexError).
Proof.
  intros part_classes filename parts component libsource lib part_name rd v
         cls w Hls Hlib Hpart F Hrd Hv Hempty.
  rewrite (populate_part_found _ filename parts _ _ _ _ _ _ _ w
             Hls Hlib Hpart F Hrd Hv).
  unfold part_instance_outcome.
  rewrite (field_without_value _ _ _ "footprint" Hrd Hempty). reflexivity.
Qed.

Lemma footprint_without_value_is_fatal_witness :
  populate_part [Sample.R_class] "sample.net" []
    (BList [Symbol "comp"; Sample.tag "ref" (Str "R1");
            Sample.tag "value" (Str "10k");
            BList [Symbol "footprint"];
            Sample.libsource "Device" "R"])
    empty_world
  = (mkWorld [] [] 1, inl IndexError).
Proof.
  exact (footprint_without_value_is_fatal
           [Sample.R_class] "sample.net" []
           (BList [Symbol "comp"; Sample.tag "ref" (Str "R1");
                   Sample.tag "value" (Str "10k");
                   BList [Symbol "footprint"];
                   Sample.libsource "Device" "R"])
           (Sample.libsource "Device" "R") (Str "Device") (Str "R")
           (Str "R1") (Str "10k") Sample.R_class empty_world
           eq_refl eq_refl eq_refl eq_refl eq_refl eq_refl eq_refl).
Defined.

(** ** The loader: the mapping it returns *)

Lemma find_all_iter_next_atoms (key : string) (cs : list ascii) :
  find_all_iter_next key (map (fun c => Str (String c "")) cs) = inr None.
Proof.
  induction cs as [| c cs' IH]; simpl; [reflexivity | exact IH].
Qed.

(** A load that returns was given a list. *)
Lemma read_kicad_netlist_inr_list (filename : string) (parsed tree : sexp)
    (parts : dict PartInstance) (w w' : world) :
  read_kicad_netlist filename parsed w = (w', inr (parts, tree)) ->
  exists l, parsed = BList l /\ tree = BList l.
Proof.
  intros H. apply read_kicad_netlist_inr in H.
  destruct H as (nc & lp & pcs & comps & w1 & Hinit & Hlp & _ & _ & _ & ->).
  destruct parsed as [s | s | z | l]; simpl in Hinit; try discriminate.
  - injection Hinit as <-. unfold getitem_section, getitem_str in Hlp.
    rewrite find_all_iter_next_atoms in Hlp. discriminate.
  - injection Hinit as <-. eauto.
Qed.

Lemma find_part_class_In (part_classes : list PartClass) (lib part_name : sexp)
    (cls : PartClass) :
  find_part_class part_classes lib part_name = Some cls -> In cls part_classes.
Proof.
  induction part_classes as [| c rest IH]; simpl; intros H.
  - discriminate.
  - destruct (py_eq (_kicad_lib c) lib && py_eq (_kicad_part c) part_name).
    + injection H as ->. left. reflexivity.
    + right. auto.
Qed.

Lemma instantiate_pins_owner (owner : nat) (ps : list Pin) :
  forall i,
    Forall (fun pin => pin_owner pin = owner) (instantiate_pins owner i ps).
Proof.
  induction ps as [| p ps' IH]; simpl; intros i; constructor; auto.
Qed.

Lemma instantiate_pins_def (owner : nat) (ps : list Pin) :
  forall i, map pin_def (instantiate_pins owner i ps) = ps.
Proof.
  induction ps as [| p ps' IH]; simpl; intros i; [| rewrite IH]; reflexivity.
Qed.

Lemma make_part_instance_entry (part_classes : list PartClass)
    (filename : string) (component : sexp) (w w' : world) (inst : PartInstance) :
  make_part_instance part_classes filename component w = (w', inr inst) ->
  loaded_entry part_classes filename (refdes inst, inst).
Proof.
  intros H. apply make_part_instance_inr in H.
  destruct H as (ls & lib & pn & cls & rd & v
                 & _ & _ & _ & Hcls & _ & _ & Hout).
  apply find_part_class_In in Hcls.
  unfold part_instance_outcome in Hout. unfold loaded_entry.
  destruct (field component "footprint") as [e | fp].
  - destruct (is_KeyError e); [| discriminate].
    injection Hout as _ <-; simpl.
    repeat split; auto using instantiate_pins_def, instantiate_pins_owner.
  - injection Hout as _ <-; simpl.
    repeat split; auto using instantiate_pins_def, instantiate_pins_owner.
Qed.

Lemma dict_replace_Forall {V} (P : sexp * V -> Prop) (d : dict V) :
  forall d' k v,
    dict_replace d k v = Some d' -> Forall P d -> P (k, v) -> Forall P d'.
Proof.
  induction d as [| [k0 v0] d0 IH]; simpl; intros d' k v H Hd Hkv.
  - discriminate.
  - inversion Hd as [| x xs Hx Hxs]; subst.
    destruct (py_eq k0 k) eqn:E.
    + injection H as <-. apply py_eq_eq in E. subst. constructor; assumption.
    + destruct (dict_replace d0 k v) as [d1 |] eqn:R; [| discriminate].
      injection H as <-. constructor; [assumption |]. eapply IH; eauto.
Qed.

Lemma dict_set_Forall {V} (P : sexp * V -> Prop) (d d' : dict V)
    (k : sexp) (v : V) :
  dict_set d k v = inr d' -> Forall P d -> P (k, v) -> Forall P d'.
Proof.
  unfold dict_set. destruct (hashable k); [| discriminate].
  destruct (dict_replace d k v) as [d1 |] eqn:E; intros H Hd Hkv;
    injection H as <-.
  - eapply dict_replace_Forall; eauto.
  - apply Forall_app. split; [assumption | constructor; auto].
Qed.

Lemma populate_parts_entries (part_classes : list PartClass) (filename : string)
    (components : list sexp) :
  forall parts parts' w w',
    populate_parts part_classes filename parts components w = (w', inr parts') ->
    Forall (loaded_entry part_classes filename) parts /\ keys_unique parts ->
    Forall (loaded_entry part_classes filename) parts' /\ keys_unique parts'.
Proof.
  induction components as [| c rest IH]; simpl; intros parts parts' w w' H Hinv.
  - injection H as _ <-. exact Hinv.
  - apply bind_inr in H. destruct H as (w1 & parts1 & Hc & Hrest).
    apply (IH _ _ _ _ Hrest).
    apply populate_part_inr in Hc. destruct Hc as (inst & Hm & Hset).
    destruct Hinv as [HF HU]. split.
    + apply (dict_set_Forall _ _ _ _ _ Hset HF).
      apply (make_part_instance_entry _ _ _ _ _ _ Hm).
    + apply (dict_set_keys_unique _ _ _ _ Hset HU).
Qed.

(** X17: when a load returns, the tree it returns is the tree it was given,
    a list; the catalog holds one class per entry of the [libparts] section,
    in order; and every entry of the mapping is keyed by the refdes of its
    instance, which records the file name, belongs to a class of the
    catalog and has that class's pins, in order, as its own; no two keys of
    the mapping are equal. *)
Theorem loaded_mapping_is_well_formed :
  forall (filename : string) (parsed tree : sexp)
         (parts : dict PartInstance) (w w' : world),
    read_kicad_netlist filename parsed w = (w', inr (parts, tree)) ->
    tree = parsed
    /\ exists libparts part_classes,
         section parsed "libparts" = inr libparts
         /\ Forall2 (fun e c => _read_kicad_netlist_partcls e = inr c)
                    libparts part_classes
         /\ Forall (loaded_entry part_classes filename) parts
         /\ keys_unique parts.
Proof.
  intros filename parsed tree parts w w' H.
  destruct (read_kicad_netlist_inr_list _ _ _ _ _ _ H) as (l & -> & ->).
  split; [reflexivity |].
  apply read_kicad_netlist_inr in H.
  destruct H as (nc & lp & pcs & comps & w1
                 & Hinit & Hlp & Hpcs & _ & Hpop & _).
  simpl in Hinit. injection Hinit as <-.
  exists lp, pcs. split; [exact Hlp |].
  split; [apply rmap_Forall2; exact Hpcs |].
  apply (populate_parts_entries _ _ _ _ _ _ _ Hpop).
  split; [constructor | exact I].
Qed.

Lemma loaded_mapping_is_well_formed_witness :
  Sample.netlist = Sample.netlist
  /\ exists libparts part_classes,
       section Sample.netlist "libparts" = inr libparts
       /\ Forall2 (fun e c => _read_kicad_netlist_partcls e = inr c)
                  libparts part_classes
       /\ Forall (loaded_entry part_classes "sample.net")
                 [(Str "R1",
                   set_defined_at
                     (new_part 0 Sample.R_class (Str "R1") (Str "10k"))
                     "sample.net");
                  (Str "R2",
                   set_defined_at
                     (new_part 1 Sample.R_class (Str "R2") (Str "10k"))
                     "sample.net")]
       /\ keys_unique
            [(Str "R1",
              set_defined_at
                (new_part 0 Sample.R_class (Str "R1") (Str "10k"))
                "sample.net");
             (Str "R2",
              set_defined_at
                (new_part 1 Sample.R_class (Str "R2") (Str "10k"))
                "sample.net")].
Proof.
  refine (loaded_mapping_is_well_formed
            "sample.net" Sample.netlist Sample.netlist _ empty_world _ eq_refl).
Defined.

Lemma dict_find_none_replace {V} (d : dict V) (k : sexp) (v : V) :
  dict_find d k = None -> dict_replace d k v = None.
Proof.
  induction d as [| [k0 v0] d0 IH]; simpl; intros H.
  - reflexivity.
  - destruct (py_eq k0 k); [discriminate |]. rewrite (IH H). reflexivity.
Qed.

Lemma populate_parts_keys (part_classes : list PartClass) (filename : string)
    (components : list sexp) :
  forall refs parts parts' w w',
    populate_parts part_classes filename parts components w = (w', inr parts') ->
    rmap (fun c => field c "ref") components = inr refs ->
    py_distinct refs = true ->
    (forall r, In r refs -> dict_find parts r = None) ->
    map fst parts' = map fst parts ++ refs.
Proof.
  induction components as [| c rest IH]; simpl;
    intros refs parts parts' w w' H Hrefs Hd Hnew.
  - injection H as _ <-. injection Hrefs as <-. rewrite app_nil_r. reflexivity.
  - apply bind_inr in H. destruct H as (w1 & parts1 & Hc & Hrest).
    apply rbind_inr in Hrefs. destruct Hrefs as (r & Hr & Hrefs).
    apply rbind_inr in Hrefs. destruct Hrefs as (rs & Hrs & Hrefs).
    injection Hrefs as <-. simpl in Hd.
    apply andb_prop in Hd. destruct Hd as [Hr_rs Hd].
    apply populate_part_inr in Hc. destruct Hc as (inst & Hm & Hset).
    apply make_part_instance_refdes in Hm. destruct Hm as (Href & _).
    rewrite Hr in Href. injection Href as Href. rewrite <- Href in Hset.
    assert (Hparts1 : parts1 = parts ++ [(r, inst)]).
    { unfold dict_set in Hset. destruct (hashable r); [| discriminate].
      rewrite (dict_find_none_replace parts r inst) in Hset
        by (apply Hnew; left; reflexivity).
      injection Hset as <-. reflexivity. }
    rewrite (IH rs parts1 parts' w1 w' Hrest Hrs Hd).
    + rewrite Hparts1, map_app, <- app_assoc. reflexivity.
    + intros r' Hr'. rewrite Hparts1. apply dict_find_app_none.
      * apply Hnew. right. exact Hr'.
      * rewrite forallb_forall in Hr_rs. apply negb_true_iff.
        apply Hr_rs. exact Hr'.
Qed.

(** X18: when a load returns and the refdes of the components are pairwise
    different, the keys of the mapping are these refdes in the order of the
    components section: one entry per component, in file order. *)
Theorem mapping_keeps_component_order :
  forall (filename : string) (parsed tree : sexp) (components refs : list sexp)
         (parts : dict PartInstance) (w w' : world),
    read_kicad_netlist filename parsed w = (w', inr (parts, tree)) ->
    section parsed "components" = inr components ->
    rmap (fun c => field c "ref") components = inr refs ->
    py_distinct refs = true ->
    map fst parts = refs.
Proof.
  intros filename parsed tree components refs parts w w' H Hc Hrefs Hd.
  destruct (read_kicad_netlist_inr_list _ _ _ _ _ _ H) as (l & -> & ->).
  apply read_kicad_netlist_inr in H.
  destruct H as (nc & lp & pcs & comps & w1
                 & Hinit & _ & _ & Hcomps & Hpop & _).
  simpl in Hinit. injection Hinit as <-.
  change (section (BList l) "components") with (getitem_section l "components")
    in Hc.
  rewrite Hc in Hcomps. injection Hcomps as <-.
  apply (populate_parts_keys _ _ _ refs [] parts w w1 Hpop Hrefs Hd).
  intros r _. reflexivity.
Qed.

Lemma mapping_keeps_component_order_witness :
  map fst
      [(Str "R1",
        set_defined_at (new_part 0 Sample.R_class (Str "R1") (Str "10k"))
                       "sample.net");
       (Str "R2",
        set_defined_at (new_part 1 Sample.R_class (Str "R2") (Str "10k"))
                       "sample.net")]
  = [Str "R1"; Str "R2"].
Proof.
  refine (mapping_keeps_component_order
            "sample.net" Sample.netlist Sample.netlist
            [Sample.comp "R1" "10k" "R"; Sample.comp "R2" "10k" "R"]
            [Str "R1"; Str "R2"] _ empty_world _
            eq_refl eq_refl eq_refl eq_refl).
Defined.

(** ** The loader: nets *)

(** A node that raises ends the load with its exception; the net it belongs
    to stays registered with the connections made before the node. *)
Lemma load_aborts_at_node (filename : string) (parsed : sexp)
    (netlist_contents : list sexp) (parts : dict PartInstance)
    (nets_before nets_after nodes_before nodes_after : list sexp)
    (net_sexp name node : sexp) (conns : list PartInstancePin)
    (w w1 w2 : world) (e : exn) :
  Better_sexp_init parsed = inr netlist_contents ->
  load_parts filename netlist_contents w
  = (w1, inr (parts, nets_before ++ net_sexp :: nets_after)) ->
  build_nets parts filename nets_before w1 = (w2, inr tt) ->
  field net_sexp "name" = inr name ->
  find_all (items net_sexp) "node" = inr (nodes_before ++ node :: nodes_after) ->
  is_no_connect (nodes_before ++ node :: nodes_after) name = inr false ->
  connect_nodes parts [] nodes_before = (conns, inr tt) ->
  connect_node parts conns node = inl e ->
  read_kicad_netlist filename parsed w
  = (mkWorld (stdout w2) (nets w2 ++ [mkNet name (Some filename) conns])
             (next_obj_id w2),
     inl e).
Proof.
  intros Hinit Hload Hbefore Hname Hnodes Hskip Hconns Hnode.
  pose proof (connect_nodes_raises parts nodes_before nodes_after node e
                [] conns Hconns Hnode) as Hloop.
  assert (Hnet : build_net parts filename net_sexp w2
                 = (mkWorld (stdout w2)
                            (nets w2 ++ [mkNet name (Some filename) conns])
                            (next_obj_id w2),
                    inl e)).
  { unfold build_net.
    rewrite bind_lift, Hname, bind_lift, Hnodes, bind_lift, Hskip, Hloop.
    reflexivity. }
  unfold read_kicad_netlist. rewrite bind_lift, Hinit.
  rewrite (bind_ok _ _ _ _ _ Hload). simpl fst. simpl snd.
  rewrite (bind_fail _ _ _ _ _
             (build_nets_raises parts filename nets_before nets_after net_sexp
                                e w1 w2 _ Hbefore Hnet)).
  reflexivity.
Qed.

(** X19: when the loop over the nets reaches, in a net that is not skipped,
    a node whose refdes is a key of no part of the mapping, the load ends by
    raising the [KeyError] of [parts[...]] for that refdes; the net stays
    registered in the context with the connections made before the node. *)
Theorem unknown_refdes_aborts :
  forall (filename : string) (parsed : sexp) (netlist_contents : list sexp)
         (parts : dict PartInstance)
         (nets_before nets_after nodes_before nodes_after : list sexp)
         (net_sexp name node pin_number rd : sexp)
         (conns : list PartInstancePin) (w w1 w2 : world),
    Better_sexp_init parsed = inr netlist_contents ->
    load_parts filename netlist_contents w
    = (w1, inr (parts, nets_before ++ net_sexp :: nets_after)) ->
    build_nets parts filename nets_before w1 = (w2, inr tt) ->
    field net_sexp "name" = inr name ->
    find_all (items net_sexp) "node"
    = inr (nodes_before ++ node :: nodes_after) ->
    is_no_connect (nodes_before ++ node :: nodes_after) name = inr false ->
    connect_nodes parts [] nodes_before = (conns, inr tt) ->
    field node "pin" = inr pin_number ->
    field node "ref" = inr rd ->
    hashable rd = true ->
    dict_find parts rd = None ->
    read_kicad_netlist filename parsed w
    = (mkWorld (stdout w2) (nets w2 ++ [mkNet name (Some filename) conns])
               (next_obj_id w2),
       inl (KeyError_dict rd)).
Proof.
  intros filename parsed netlist_contents parts nets_before nets_after
         nodes_before nodes_after net_sexp name node pin_number rd conns
         w w1 w2 Hinit Hload Hbefore Hname Hnodes Hskip Hconns Hpin Hrd Hh Hnone.
  apply (load_aborts_at_node
           filename parsed netlist_contents parts nets_before nets_after
           nodes_before nodes_after net_sexp name node conns w w1 w2 _
           Hinit Hload Hbefore Hname Hnodes Hskip Hconns).
  unfold connect_node. rewrite Hpin. simpl. rewrite Hrd. simpl.
  unfold dict_get. rewrite Hh, Hnone. reflexivity.
Qed.

Lemma unknown_refdes_aborts_witness :
  read_kicad_netlist "sample.net"
    (Sample.export [Sample.comp "R1" "10k" "R"] [Sample.R_libpart]
       [Sample.net "GND" [Sample.node "R1" "1"; Sample.node "R7" "1"]])
    empty_world
  = (mkWorld
       [does_not_have_a_footprint_defined
          (new_part 0 Sample.R_class (Str "R1") (Str "10k"))]
       [mkNet (Str "GND") (Some "sample.net")
              [mkPartInstancePin 0 0
                 (mkPin ["1"; "3"] ["P1"; "3"]
                        (Str "1,3", Str "P1,3", Str "passive"))]]
       1,
     inl (KeyError_dict (Str "R7"))).
Proof.
  refine (unknown_refdes_aborts
            "sample.net"
            (Sample.export [Sample.comp "R1" "10k" "R"] [Sample.R_libpart]
               [Sample.net "GND" [Sample.node "R1" "1"; Sample.node "R7" "1"]])
            _ _ [] [] [Sample.node "R1" "1"] []
            (Sample.net "GND" [Sample.node "R1" "1"; Sample.node "R7" "1"])
            (Str "GND") (Sample.node "R7" "1") (Str "1") (Str "R7")
            _ empty_world _ _
            eq_refl eq_refl eq_refl eq_refl eq_refl eq_refl eq_refl eq_refl
            eq_refl eq_refl eq_refl).
Defined.

Lemma existsb_same_pin_In (pin : PartInstancePin) (conns : list PartInstancePin) :
  existsb (same_pin pin) conns = true <-> In (pin_key pin) (map pin_key conns).
Proof.
  rewrite existsb_exists, in_map_iff. split.
  - intros (q & Hin & Hq). exists q. split; [| exact Hin].
    symmetry. apply same_pin_key. exact Hq.
  - intros (q & Hq & Hin). exists q. split; [exact Hin |].
    apply same_pin_key. symmetry. exact Hq.
Qed.

Lemma connect_node_resolved (parts : dict PartInstance)
    (conns : list PartInstancePin) (node pin_number rd : sexp)
    (part : PartInstance) (pin : PartInstancePin) :
  field node "pin" = inr pin_number ->
  field node "ref" = inr rd ->
  dict_get parts rd = inr part ->
  find_pin (pins part) pin_number = Some pin ->
  connect_node parts conns node
  = inr (if existsb (same_pin pin) conns then conns else conns ++ [pin]).
Proof.
  intros Hpin Hrd Hpart Hfind. unfold connect_node.
  rewrite Hpin. simpl. rewrite Hrd. simpl. rewrite Hpart. simpl.
  rewrite Hfind. destruct (existsb (same_pin pin) conns); reflexivity.
Qed.

(** X20: two nodes that resolve to the same pin object, be it through two
    physical numbers of one logical pin or by naming the same node twice,
    connect it once: after the first node the second leaves the connections
    as they are. *)
Theorem same_logical_pin_connected_once :
  forall (parts : dict PartInstance) (conns : list PartInstancePin)
         (node1 node2 number1 number2 rd1 rd2 : sexp)
         (part1 part2 : PartInstance) (pin1 pin2 : PartInstancePin),
    field node1 "pin" = inr number1 ->
    field node1 "ref" = inr rd1 ->
    dict_get parts rd1 = inr part1 ->
    find_pin (pins part1) number1 = Some pin1 ->
    field node2 "pin" = inr number2 ->
    field node2 "ref" = inr rd2 ->
    dict_get parts rd2 = inr part2 ->
    find_pin (pins part2) number2 = Some pin2 ->
    same_pin pin2 pin1 = true ->
    exists conns1,
      connect_node parts conns node1 = inr conns1
      /\ connect_node parts conns1 node2 = inr conns1
      /\ In (pin_key pin1) (map pin_key conns1).
Proof.
  intros parts conns node1 node2 number1 number2 rd1 rd2 part1 part2 pin1 pin2
         Hp1 Hr1 Hd1 Hf1 Hp2 Hr2 Hd2 Hf2 Hsame.
  apply same_pin_key in Hsame.
  assert (Hin : In (pin_key pin1)
                   (map pin_key (if existsb (same_pin pin1) conns
                                 then conns else conns ++ [pin1]))).
  { destruct (existsb (same_pin pin1) conns) eqn:E.
    - apply existsb_same_pin_In. exact E.
    - rewrite map_app, in_app_iff. right. left. reflexivity. }
  eexists. split; [apply (connect_node_resolved _ _ _ _ _ _ _ Hp1 Hr1 Hd1 Hf1) |].
  split; [| exact Hin].
  rewrite (connect_node_resolved _ _ _ _ _ _ _ Hp2 Hr2 Hd2 Hf2).
  rewrite <- Hsame in Hin. apply existsb_same_pin_In in Hin.
  rewrite Hin. reflexivity.
Qed.

Lemma same_logical_pin_connected_once_witness :
  exists conns1,
    connect_node
      [(Str "R1",
        set_defined_at (new_part 0 Sample.R_class (Str "R1") (Str "10k"))
                       "sample.net")]
      [] (Sample.node "R1" "1")
    = inr conns1
    /\ connect_node
         [(Str "R1",
           set_defined_at (new_part 0 Sample.R_class (Str "R1") (Str "10k"))
                          "sample.net")]
         conns1 (Sample.node "R1" "3")
       = inr conns1
    /\ In (0, 0) (map pin_key conns1).
Proof.
  refine (same_logical_pin_connected_once
            [(Str "R1",
              set_defined_at (new_part 0 Sample.R_class (Str "R1") (Str "10k"))
                             "sample.net")]
            [] (Sample.node "R1" "1") (Sample.node "R1" "3")
            (Str "1") (Str "3") (Str "R1") (Str "R1") _ _
            (mkPartInstancePin 0 0
               (mkPin ["1"; "3"] ["P1"; "3"]
                      (Str "1,3", Str "P1,3", Str "passive")))
            _
            eq_refl eq_refl eq_refl eq_refl eq_refl eq_refl eq_refl eq_refl
            eq_refl).
Defined.

Lemma dict_find_In {V} (d : dict V) (k : sexp) (v : V) :
  dict_find d k = Some v -> exists k0, In (k0, v) d.
Proof.
  induction d as [| [k0 v0] d0 IH]; simpl; intros H.
  - discriminate.
  - destruct (py_eq k0 k).
    + injection H as ->. eauto.
    + destruct (IH H) as (k1 & Hin). eauto.
Qed.

Lemma find_pin_In (pins : list PartInstancePin) (pin_number : sexp)
    (pin : PartInstancePin) :
  find_pin pins pin_number = Some pin -> In pin pins.
Proof.
  induction pins as [| p rest IH]; simpl; intros H.
  - discriminate.
  - destruct (number_in pin_number (numbers (pin_def p))).
    + injection H as ->. left. reflexivity.
    + right. auto.
Qed.

Lemma connect_node_pins_of_mapping (parts : dict PartInstance)
    (conns conns' : list PartInstancePin) (node : sexp) :
  connect_node parts conns node = inr conns' ->
  Forall (pin_of_mapping parts) conns ->
  Forall (pin_of_mapping parts) conns'.
Proof.
  unfold connect_node. intros H HF.
  apply rbind_inr in H. destruct H as (pin_number & _ & H).
  apply rbind_inr in H. destruct H as (rd & _ & H).
  apply rbind_inr in H. destruct H as (part & Hpart & H).
  destruct (find_pin (pins part) pin_number) as [pin |] eqn:Hpin;
    [| discriminate].
  destruct (existsb (same_pin pin) conns); injection H as <-; [exact HF |].
  apply Forall_app. split; [exact HF |]. constructor; [| constructor].
  unfold dict_get in Hpart. destruct (hashable rd); [| discriminate].
  destruct (dict_find parts rd) as [p |] eqn:Hfind; [| discriminate].
  injection Hpart as ->. destruct (dict_find_In _ _ _ Hfind) as (k0 & Hin).
  exists k0, part. split; [exact Hin | exact (find_pin_In _ _ _ Hpin)].
Qed.

Lemma connect_nodes_pins_of_mapping (parts : dict PartInstance)
    (nodes : list sexp) :
  forall conns,
    Forall (pin_of_mapping parts) conns ->
    Forall (pin_of_mapping parts) (fst (connect_nodes parts conns nodes)).
Proof.
  induction nodes as [| node rest IH]; simpl; intros conns HF.
  - exact HF.
  - destruct (connect_node parts conns node) as [e | conns'] eqn:E; simpl.
    + exact HF.
    + apply IH. exact (connect_node_pins_of_mapping _ _ _ _ E HF).
Qed.

Lemma nets_added_by_refl (parts : dict PartInstance) (filename : string)
    (n : nat) (w : world) :
  nets_added_by parts filename n w w.
Proof.
  exists []. rewrite app_nil_r. destruct w; simpl.
  repeat split; [lia | constructor].
Qed.

Lemma nets_added_by_trans (parts : dict PartInstance) (filename : string)
    (n m : nat) (w w1 w2 : world) :
  nets_added_by parts filename n w w1 ->
  nets_added_by parts filename m w1 w2 ->
  nets_added_by parts filename (n + m) w w2.
Proof.
  intros (a1 & -> & L1 & F1) (a2 & -> & L2 & F2). simpl.
  exists (a1 ++ a2). rewrite app_assoc. split; [reflexivity |].
  split; [rewrite length_app; lia | apply Forall_app; auto].
Qed.

Lemma build_net_adds (parts : dict PartInstance) (filename : string)
    (net_sexp : sexp) (w : world) :
  nets_added_by parts filename 1 w (fst (build_net parts filename net_sexp w)).
Proof.
  unfold build_net. rewrite bind_lift.
  destruct (field net_sexp "name") as [e | name];
    [apply nets_added_by_refl |].
  rewrite bind_lift.
  destruct (find_all (items net_sexp) "node") as [e | nodes];
    [apply nets_added_by_refl |].
  rewrite bind_lift.
  destruct (is_no_connect nodes name) as [e | [|]];
    try apply nets_added_by_refl.
  pose proof (connect_nodes_pins_of_mapping parts nodes [] (Forall_nil _)) as Hc.
  destruct (connect_nodes parts [] nodes) as [conns outcome]. simpl in Hc.
  unfold bind, register_net, lift. simpl.
  exists [mkNet name (Some filename) conns]. split; [reflexivity |].
  split; [simpl; lia |]. constructor; [| constructor]. simpl. auto.
Qed.

Lemma build_nets_adds (parts : dict PartInstance) (filename : string)
    (net_sexps : list sexp) :
  forall w,
    nets_added_by parts filename (List.length net_sexps) w
                  (fst (build_nets parts filename net_sexps w)).
Proof.
  induction net_sexps as [| net_sexp rest IH]; intros w.
  - apply nets_added_by_refl.
  - cbn [build_nets List.length]. unfold bind.
    pose proof (build_net_adds parts filename net_sexp w) as H1.
    destruct (build_net parts filename net_sexp w) as [w1 [e | []]];
      simpl fst in *.
    + destruct H1 as (a & -> & L & F). exists a.
      split; [reflexivity |]. split; [lia | exact F].
    + apply (nets_added_by_trans parts filename 1 (List.length rest) w w1 _ H1).
      apply IH.
Qed.

(** X21: whether it returns or raises, the loop over the nets only adds nets
    to the context, at most one per entry and after those that were there:
    it prints nothing, creates no part, and every net it adds records the
    file name and connects only pins of parts that the mapping holds. *)
Theorem build_nets_only_adds_nets :
  forall (parts : dict PartInstance) (filename : string)
         (net_sexps : list sexp) (w : world),
    exists added,
      fst (build_nets parts filename net_sexps w)
      = mkWorld (stdout w) (nets w ++ added) (next_obj_id w)
      /\ List.length added <= List.length net_sexps
      /\ Forall (fun n => net_defined_at n = Some filename
                          /\ Forall (pin_of_mapping parts) (connections n))
                added.
Proof.
  intros parts filename net_sexps w.
  exact (build_nets_adds parts filename net_sexps w).
Qed.

(** X23: a net entry without any node is registered with no connection and
    the loop body returns, whatever the name is: the prefix [Net-] skips only
    nets of exactly one node. *)
Theorem net_without_nodes_is_registered :
  forall (parts : dict PartInstance) (filename : string)
         (net_sexp name : sexp) (w : world),
    field net_sexp "name" = inr name ->
    find_all (items net_sexp) "node" = inr [] ->
    build_net parts filename net_sexp w
    = (mkWorld (stdout w) (nets w ++ [mkNet name (Some filename) []])
               (next_obj_id w),
       inr tt).
Proof.
  intros parts filename net_sexp name w Hname Hnodes.
  unfold build_net. rewrite bind_lift, Hname, bind_lift, Hnodes, bind_lift.
  reflexivity.
Qed.

Lemma net_without_nodes_is_registered_witness :
  build_net [] "sample.net" (Sample.net "Net-(R1-Pad2)" []) empty_world
  = (mkWorld [] [mkNet (Str "Net-(R1-Pad2)") (Some "sample.net") []] 0,
     inr tt).
Proof.
  exact (net_without_nodes_is_registered
           [] "sample.net" (Sample.net "Net-(R1-Pad2)" []) (Str "Net-(R1-Pad2)")
           empty_world eq_refl eq_refl).
Defined.

(** ** The loader: failures among the components, and pin resolution *)

(** X24: whatever exception the loop body raises on a component that the
    loop reaches, a missing [ref] or [value] as well as an unknown part, the
    load ends with that exception in the world the body left: the [nets]
    section is not even looked up, and no net is registered. *)
Theorem component_error_aborts_before_nets :
  forall (filename : string) (parsed : sexp)
         (netlist_contents libparts : list sexp)
         (part_classes : list PartClass)
         (before after : list sexp) (component : sexp)
         (parts1 : dict PartInstance) (w w1 w2 : world) (e : exn),
    Better_sexp_init parsed = inr netlist_contents ->
    getitem_section netlist_contents "libparts" = inr libparts ->
    rmap _read_kicad_netlist_partcls libparts = inr part_classes ->
    getitem_section netlist_contents "components"
    = inr (before ++ component :: after) ->
    populate_parts part_classes filename [] before w = (w1, inr parts1) ->
    populate_part part_classes filename parts1 component w1 = (w2, inl e) ->
    read_kicad_netlist filename parsed w = (w2, inl e)
    /\ nets w2 = nets w.
Proof.
  intros filename parsed netlist_contents libparts part_classes before after
         component parts1 w w1 w2 e Hinit Hlp Hcls Hcomps Hbefore Hc.
  pose proof (populate_parts_raises _ _ _ after _ _ _ _ _ _ _ Hbefore Hc) as Hloop.
  split.
  - unfold read_kicad_netlist. rewrite bind_lift, Hinit. apply bind_fail.
    unfold load_parts.
    rewrite bind_lift, Hlp, bind_lift, Hcls, bind_lift, Hcomps.
    apply bind_fail. exact Hloop.
  - pose proof (populate_parts_nets part_classes filename
                  (before ++ component :: after) [] w) as Hn.
    rewrite Hloop in Hn. exact Hn.
Qed.

Lemma component_error_aborts_before_nets_witness :
  read_kicad_netlist "sample.net"
    (Sample.export
       [Sample.comp "R1" "10k" "R";
        BList [Symbol "comp"; Sample.tag "ref" (Str "R2");
               Sample.libsource "Device" "R"]]
       [Sample.R_libpart]
       [Sample.net "GND" [Sample.node "R1" "1"; Sample.node "R2" "2"]])
    empty_world
  = (mkWorld [does_not_have_a_footprint_defined
                (new_part 0 Sample.R_class (Str "R1") (Str "10k"))] [] 1,
     inl (KeyError "value"))
  /\ nets (mkWorld [does_not_have_a_footprint_defined
                      (new_part 0 Sample.R_class (Str "R1") (Str "10k"))] [] 1)
     = nets empty_world.
Proof.
  refine (component_error_aborts_before_nets
            "sample.net"
            (Sample.export
               [Sample.comp "R1" "10k" "R";
                BList [Symbol "comp"; Sample.tag "ref" (Str "R2");
                       Sample.libsource "Device" "R"]]
               [Sample.R_libpart]
               [Sample.net "GND" [Sample.node "R1" "1"; Sample.node "R2" "2"]])
            _ [Sample.R_libpart] [Sample.R_class]
            [Sample.comp "R1" "10k" "R"] []
            (BList [Symbol "comp"; Sample.tag "ref" (Str "R2");
                    Sample.libsource "Device" "R"])
            _ empty_world _ _ _
            eq_refl eq_refl eq_refl eq_refl eq_refl eq_refl).
Defined.

(** X25: a physical pin number resolves to the first pin, in the order of
    the part's pins, whose number set holds it; a later pin that lists the
    same number is never reached. *)
Theorem find_pin_takes_first :
  forall (before after : list PartInstancePin) (pin : PartInstancePin)
         (pin_number : sexp),
    forallb (fun p => negb (number_in pin_number (numbers (pin_def p)))) before
    = true ->
    number_in pin_number (numbers (pin_def pin)) = true ->
    find_pin (before ++ pin :: after) pin_number = Some pin.
Proof.
  intros before after pin pin_number.
  induction before as [| p before' IH]; simpl; intros Hb Hp.
  - rewrite Hp. reflexivity.
  - apply andb_prop in Hb. destruct Hb as [H1 H2].
    apply negb_true_iff in H1. rewrite H1. auto.
Qed.

Lemma find_pin_takes_first_witness :
  find_pin ([mkPartInstancePin 0 0 (mkPin ["1"] ["A"] (Str "1", Str "A", Str "t"))]
            ++ mkPartInstancePin 0 1 (mkPin ["2"; "3"] ["B"] (Str "2,3", Str "B", Str "t"))
            :: [mkPartInstancePin 0 2 (mkPin ["3"] ["C"] (Str "3", Str "C", Str "t"))])
           (Str "3")
  = Some (mkPartInstancePin 0 1 (mkPin ["2"; "3"] ["B"] (Str "2,3", Str "B", Str "t"))).
Proof.
  exact (find_pin_takes_first
           [mkPartInstancePin 0 0 (mkPin ["1"] ["A"] (Str "1", Str "A", Str "t"))]
           [mkPartInstancePin 0 2 (mkPin ["3"] ["C"] (Str "3", Str "C", Str "t"))]
           (mkPartInstancePin 0 1 (mkPin ["2"; "3"] ["B"] (Str "2,3", Str "B", Str "t")))
           (Str "3") eq_refl eq_refl).
Defined.

(** X26: a pin token that is not a string resolves to no pin, whatever the
    pins are: pin numbers are strings, and a symbol or a number equals none
    of them, so a node written with such a token always ends in the
    [KeyError] of the missing pin. *)
Theorem non_string_pin_number_never_resolves :
  forall (parts : dict PartInstance) (conns : list PartInstancePin)
         (node pin_number rd : sexp) (part : PartInstance),
    field node "pin" = inr pin_number ->
    (forall s, pin_number <> Str s) ->
    field node "ref" = inr rd ->
    dict_get parts rd = inr part ->
    find_pin (pins part) pin_number = None
    /\ connect_node parts conns node = inl (KeyError_pin pin_number part).
Proof.
  intros parts conns node pin_number rd part Hpin Hns Hrd Hpart.
  assert (Hnone : find_pin (pins part) pin_number = None).
  { apply find_pin_none. intros pin _.
    destruct pin_number as [s | s | z | l]; try reflexivity.
    exfalso. apply (Hns s). reflexivity. }
  split; [exact Hnone |].
  unfold connect_node. rewrite Hpin. simpl. rewrite Hrd. simpl.
  rewrite Hpart. simpl. rewrite Hnone. reflexivity.
Qed.

Lemma non_string_pin_number_never_resolves_witness :
  find_pin (pins (set_defined_at
                    (new_part 0 Sample.R_class (Str "R1") (Str "10k"))
                    "sample.net"))
           (Int 1)
  = None
  /\ connect_node
       [(Str "R1",
         set_defined_at (new_part 0 Sample.R_class (Str "R1") (Str "10k"))
                        "sample.net")]
       []
       (BList [Symbol "node"; Sample.tag "ref" (Str "R1");
               Sample.tag "pin" (Int 1)])
     = inl (KeyError_pin
              (Int 1)
              (set_defined_at (new_part 0 Sample.R_class (Str "R1") (Str "10k"))
                              "sample.net")).
Proof.
  refine (non_string_pin_number_never_resolves
            [(Str "R1",
              set_defined_at (new_part 0 Sample.R_class (Str "R1") (Str "10k"))
                             "sample.net")]
            []
            (BList [Symbol "node"; Sample.tag "ref" (Str "R1");
                    Sample.tag "pin" (Int 1)])
            (Int 1) (Str "R1") _ eq_refl _ eq_refl eq_refl).
  intros s H. discriminate H.
Defined.

(** * The load as a whole: instantiation and the no-connect filter *)

Lemma dict_set_updated {V} (d : dict V) (k : sexp) (v : V) :
  hashable k = true -> dict_set d k v = inr (dict_updated d k v).
Proof.
  unfold dict_set, dict_updated. intros ->.
  destruct (dict_replace d k v); reflexivity.
Qed.

Lemma populate_parts_snoc (part_classes : list PartClass) (filename : string)
    (before : list sexp) (component : sexp)
    (parts0 parts1 parts2 : dict PartInstance) (w w1 w2 : world) :
  populate_parts part_classes filename parts0 before w = (w1, inr parts1) ->
  populate_part part_classes filename parts1 component w1 = (w2, inr parts2) ->
  populate_parts part_classes filename parts0 (before ++ [component]) w
  = (w2, inr parts2).
Proof.
  intros Hb Hc. rewrite populate_parts_app, (bind_ok _ _ _ _ _ Hb). simpl.
  rewrite (bind_ok _ _ _ _ _ Hc). reflexivity.
Qed.

(** A load whose every stage returns, cut at one component. *)
Lemma load_through_component (filename : string) (parsed : sexp)
    (netlist_contents libparts : list sexp) (part_classes : list PartClass)
    (before after net_sexps : list sexp) (component : sexp)
    (parts1 parts2 parts3 : dict PartInstance) (w w1 w2 w3 w4 : world) :
  Better_sexp_init parsed = inr netlist_contents ->
  getitem_section netlist_contents "libparts" = inr libparts ->
  rmap _read_kicad_netlist_partcls libparts = inr part_classes ->
  getitem_section netlist_contents "components"
  = inr (before ++ component :: after) ->
  populate_parts part_classes filename [] before w = (w1, inr parts1) ->
  populate_part part_classes filename parts1 component w1 = (w2, inr parts2) ->
  populate_parts part_classes filename parts2 after w2 = (w3, inr parts3) ->
  getitem_section netlist_contents "nets" = inr net_sexps ->
  build_nets parts3 filename net_sexps w3 = (w4, inr tt) ->
  read_kicad_netlist filename parsed w
  = (w4, inr (parts3, BList netlist_contents)).
Proof.
  intros Hinit Hlp Hcls Hcomps Hbefore Hc Hafter Hnets Hbuild.
  assert (Hloop : populate_parts part_classes filename []
                                 (before ++ component :: after) w
                  = (w3, inr parts3)).
  { rewrite populate_parts_app, (bind_ok _ _ _ _ _ Hbefore). simpl.
    rewrite (bind_ok _ _ _ _ _ Hc). exact Hafter. }
  unfold read_kicad_netlist. rewrite bind_lift, Hinit.
  assert (Hload : load_parts filename netlist_contents w
                  = (w3, inr (parts3, net_sexps))).
  { unfold load_parts.
    rewrite bind_lift, Hlp, bind_lift, Hcls, bind_lift, Hcomps.
    rewrite (bind_ok _ _ _ _ _ Hloop), bind_lift, Hnets. reflexivity. }
  rewrite (bind_ok _ _ _ _ _ Hload). simpl fst. simpl snd.
  rewrite (bind_ok _ _ _ _ _ Hbuild). reflexivity.
Qed.

Lemma make_part_instance_stdout (part_classes : list PartClass)
    (filename : string) (component : sexp) (w : world) :
  exists out,
    stdout (fst (make_part_instance part_classes filename component w))
    = stdout w ++ out.
Proof.
  unfold make_part_instance. rewrite bind_lift.
  destruct (subscript_str component "libsource") as [e | ls];
    [exists []; simpl; rewrite app_nil_r; reflexivity |].
  rewrite bind_lift.
  destruct (field ls "lib") as [e | lib];
    [exists []; simpl; rewrite app_nil_r; reflexivity |].
  rewrite bind_lift.
  destruct (field ls "part") as [e | pn];
    [exists []; simpl; rewrite app_nil_r; reflexivity |].
  destruct (find_part_class part_classes lib pn) as [cls |];
    [| exists []; simpl; rewrite app_nil_r; reflexivity].
  rewrite bind_ret, bind_lift.
  destruct (field component "ref") as [e | rd];
    [exists []; simpl; rewrite app_nil_r; reflexivity |].
  rewrite bind_lift.
  destruct (field component "value") as [e | v];
    [exists []; simpl; rewrite app_nil_r; reflexivity |].
  unfold bind at 1. unfold instantiate at 1.
  destruct (field component "footprint") as [e | fp].
  - destruct (is_KeyError e).
    + eexists. simpl. reflexivity.
    + exists []. simpl. rewrite app_nil_r. reflexivity.
  - exists []. simpl. rewrite app_nil_r. reflexivity.
Qed.

Lemma populate_parts_stdout (part_classes : list PartClass) (filename : string)
    (components : list sexp) :
  forall parts w,
    exists out,
      stdout (fst (populate_parts part_classes filename parts components w))
      = stdout w ++ out.
Proof.
  induction components as [| c rest IH]; simpl; intros parts w.
  - exists []. rewrite app_nil_r. reflexivity.
  - unfold bind at 1. unfold populate_part, bind, lift.
    destruct (make_part_instance_stdout part_classes filename c w) as (o1 & H1).
    destruct (make_part_instance part_classes filename c w) as [w1 [e | inst]];
      simpl in *.
    + exists o1. exact H1.
    + destruct (dict_set parts (refdes inst) inst) as [e | parts'].
      * exists o1. exact H1.
      * destruct (IH parts' w1) as (o2 & H2). exists (o1 ++ o2).
        rewrite H2, H1, app_assoc. reflexivity.
Qed.

(** A load in which the loop reaches a component whose class is found, whose
    [ref] and [value] can be read and whose [footprint] lookup raises nothing
    but a [KeyError], and in which nothing later raises: the instance is
    stored when the loop has handled the component, the load returns, and
    what was printed for the component is still in the output. *)
Lemma load_stores_instance (filename : string) (parsed : sexp)
    (netlist_contents libparts : list sexp) (part_classes : list PartClass)
    (before after net_sexps : list sexp)
    (component libsource lib part_name rd v : sexp) (cls : PartClass)
    (parts1 parts3 : dict PartInstance) (w w1 w3 w4 : world) :
  Better_sexp_init parsed = inr netlist_contents ->
  getitem_section netlist_contents "libparts" = inr libparts ->
  rmap _read_kicad_netlist_partcls libparts = inr part_classes ->
  getitem_section netlist_contents "components"
  = inr (before ++ component :: after) ->
  populate_parts part_classes filename [] before w = (w1, inr parts1) ->
  subscript_str component "libsource" = inr libsource ->
  field libsource "lib" = inr lib ->
  field libsource "part" = inr part_name ->
  find_part_class part_classes lib part_name = Some cls ->
  field component "ref" = inr rd ->
  field component "value" = inr v ->
  hashable rd = true ->
  py_eq rd rd = true ->
  (forall e, field component "footprint" = inl e -> is_KeyError e = true) ->
  let new := new_part (next_obj_id w1) cls rd v in
  let inst :=
    set_defined_at
      (match field component "footprint" with
       | inr footprint => set_package new footprint
       | inl _ => new
       end) filename in
  let w2 :=
    mkWorld
      (match field component "footprint" with
       | inr _ => stdout w1
       | inl _ => stdout w1 ++ [does_not_have_a_footprint_defined new]
       end) (nets w1) (S (next_obj_id w1)) in
  populate_parts part_classes filename (dict_updated parts1 rd inst) after w2
  = (w3, inr parts3) ->
  getitem_section netlist_contents "nets" = inr net_sexps ->
  build_nets parts3 filename net_sexps w3 = (w4, inr tt) ->
  read_kicad_netlist filename parsed w
  = (w4, inr (parts3, BList netlist_contents))
  /\ populate_parts part_classes filename [] (before ++ [component]) w
     = (w2, inr (dict_updated parts1 rd inst))
  /\ dict_get (dict_updated parts1 rd inst) rd = inr inst
  /\ ((forall c rd', In c after -> field c "ref" = inr rd' ->
                     py_eq rd' rd = false) ->
      dict_get parts3 rd = inr inst)
  /\ exists out, stdout w4 = stdout w2 ++ out.
Proof.
  intros Hinit Hlp Hcls Hcomps Hbefore Hls Hlib Hpart Hfind Hrd Hv Hh Hk Hfp
         new inst w2 Hafter Hnets Hbuild.
  assert (Hstep : populate_part part_classes filename parts1 component w1
                  = (w2, inr (dict_updated parts1 rd inst))).
  { rewrite (populate_part_found _ filename parts1 _ _ _ _ _ _ _ w1
               Hls Hlib Hpart Hfind Hrd Hv).
    unfold part_instance_outcome. subst w2 inst new.
    destruct (field component "footprint") as [e | fp] eqn:E.
    - rewrite (Hfp e eq_refl). cbv zeta.
      rewrite <- (dict_set_updated parts1 rd _ Hh). reflexivity.
    - cbv zeta. rewrite <- (dict_set_updated parts1 rd _ Hh). reflexivity. }
  assert (Hget : dict_find (dict_updated parts1 rd inst) rd = Some inst).
  { apply (dict_set_find_same parts1 _ rd inst); [| exact Hk].
    apply dict_set_updated. exact Hh. }
  split.
  { exact (load_through_component
             filename parsed netlist_contents libparts part_classes
             before after net_sexps component parts1 _ parts3 w w1 w2 w3 w4
             Hinit Hlp Hcls Hcomps Hbefore Hstep Hafter Hnets Hbuild). }
  split; [exact (populate_parts_snoc _ _ _ _ _ _ _ _ _ _ Hbefore Hstep) |].
  split; [unfold dict_get; rewrite Hh, Hget; reflexivity |].
  split.
  { intros Hlater. unfold dict_get. rewrite Hh.
    rewrite (populate_parts_other_refdes _ _ rd _ _ _ _ _ Hafter Hlater).
    rewrite Hget. reflexivity. }
  destruct (populate_parts_stdout part_classes filename after
              (dict_updated parts1 rd inst) w2) as (out & Hout).
  rewrite Hafter in Hout. simpl in Hout.
  destruct (build_nets_adds parts3 filename net_sexps w3) as (added & Hw & _).
  rewrite Hbuild in Hw. simpl in Hw.
  exists out. rewrite Hw. simpl. exact Hout.
Qed.

(** C1: in a load whose loop reaches an entry of the components section whose
    (library, part) pair matches exactly one class of the catalog (with [ref]
    and [value] readable, a refdes that is a string or a number, and a
    [footprint] lookup that raises nothing but a [KeyError]), the loop stores
    under the entry's refdes an instance of that class with the class's pins
    in order and the entry's value; when nothing later raises, the load
    returns, and the returned mapping holds that instance under the refdes
    unless a later entry carries the same refdes. *)
Theorem load_resolves_template :
  forall (filename : string) (parsed : sexp)
         (netlist_contents libparts : list sexp) (part_classes : list PartClass)
         (before after net_sexps : list sexp)
         (component libsource lib part_name rd v : sexp) (cls : PartClass)
         (parts1 parts3 : dict PartInstance) (w w1 w3 w4 : world),
    Better_sexp_init parsed = inr netlist_contents ->
    getitem_section netlist_contents "libparts" = inr libparts ->
    rmap _read_kicad_netlist_partcls libparts = inr part_classes ->
    getitem_section netlist_contents "components"
    = inr (before ++ component :: after) ->
    populate_parts part_classes filename [] before w = (w1, inr parts1) ->
    subscript_str component "libsource" = inr libsource ->
    field libsource "lib" = inr lib ->
    field libsource "part" = inr part_name ->
    filter (class_matches lib part_name) part_classes = [cls] ->
    field component "ref" = inr rd ->
    field component "value" = inr v ->
    hashable rd = true ->
    py_eq rd rd = true ->
    (forall e, field component "footprint" = inl e -> is_KeyError e = true) ->
    let new := new_part (next_obj_id w1) cls rd v in
    let inst :=
      set_defined_at
        (match field component "footprint" with
         | inr footprint => set_package new footprint
         | inl _ => new
         end) filename in
    let w2 :=
      mkWorld
        (match field component "footprint" with
         | inr _ => stdout w1
         | inl _ => stdout w1 ++ [does_not_have_a_footprint_defined new]
         end) (nets w1) (S (next_obj_id w1)) in
    populate_parts part_classes filename (dict_updated parts1 rd inst) after w2
    = (w3, inr parts3) ->
    getitem_section netlist_contents "nets" = inr net_sexps ->
    build_nets parts3 filename net_sexps w3 = (w4, inr tt) ->
    read_kicad_netlist filename parsed w
    = (w4, inr (parts3, BList netlist_contents))
    /\ populate_parts part_classes filename [] (before ++ [component]) w
       = (w2, inr (dict_updated parts1 rd inst))
    /\ dict_get (dict_updated parts1 rd inst) rd = inr inst
    /\ refdes inst = rd
    /\ value inst = v
    /\ part_class inst = cls
    /\ map pin_def (pins inst) = PINS cls
    /\ ((forall c rd', In c after -> field c "ref" = inr rd' ->
                       py_eq rd' rd = false) ->
        dict_get parts3 rd = inr inst).
Proof.
  intros filename parsed netlist_contents libparts part_classes before after
         net_sexps component libsource lib part_name rd v cls parts1 parts3
         w w1 w3 w4 Hinit Hlp Hcls Hcomps Hbefore Hls Hlib Hpart Hone Hrd Hv
         Hh Hk Hfp new inst w2 Hafter Hnets Hbuild.
  assert (Hfind : find_part_class part_classes lib part_name = Some cls).
  { destruct (filter_singleton_split _ _ _ Hone)
      as (cb & ca & -> & Hb & _ & Hc).
    apply find_part_class_first; assumption. }
  destruct (load_stores_instance
              filename parsed netlist_contents libparts part_classes
              before after net_sexps component libsource lib part_name rd v
              cls parts1 parts3 w w1 w3 w4
              Hinit Hlp Hcls Hcomps Hbefore Hls Hlib Hpart Hfind Hrd Hv
              Hh Hk Hfp Hafter Hnets Hbuild)
    as (Hread & Hloop & Hget & Hfinal & _).
  split; [exact Hread |]. split; [exact Hloop |]. split; [exact Hget |].
  assert (Hpins : map pin_def (pins inst) = PINS cls).
  { subst inst new. destruct (field component "footprint");
      apply instantiate_pins_def. }
  subst inst new.
  destruct (field component "footprint"); simpl; repeat split; auto.
Qed.

Lemma load_resolves_template_witness :
  exists w4 parts3 inst,
    read_kicad_netlist "sample.net" Sample.netlist_with_footprint empty_world
    = (w4, inr (parts3, Sample.netlist_with_footprint))
    /\ dict_get parts3 (Str "R1") = inr inst
    /\ value inst = Str "10k"
    /\ part_class inst = Sample.R_class
    /\ map pin_def (pins inst) = PINS Sample.R_class.
Proof.
  epose proof (load_resolves_template
                 "sample.net" Sample.netlist_with_footprint _
                 [Sample.R_libpart] [Sample.R_class]
                 [] [Sample.comp "R2" "10k" "R"] _
                 (Sample.comp_with_footprint "R1" "10k" "R" "R_0603")
                 (Sample.libsource "Device" "R") (Str "Device") (Str "R")
                 (Str "R1") (Str "10k") Sample.R_class [] _
                 empty_world empty_world _ _
                 eq_refl eq_refl eq_refl eq_refl eq_refl eq_refl eq_refl
                 eq_refl eq_refl eq_refl eq_refl eq_refl eq_refl _
                 eq_refl eq_refl eq_refl)
    as (Hread & _ & _ & _ & Hv & Hc & Hp & Hfinal).
  do 3 eexists. split; [exact Hread |].
  split; [apply Hfinal |].
  - intros c rd' [<- | []] Hr. vm_compute in Hr. injection Hr as <-.
    reflexivity.
  - split; [exact Hv |]. split; [exact Hc | exact Hp].
  Unshelve.
  intros e H. vm_compute in H. discriminate H.
Defined.

(** C8: in a load whose loop reaches an entry of the components section that
    has no child tagged [footprint] (its class found, [ref] and [value]
    readable, the refdes a string or a number), the entry does not make the
    load fail: the loop stores the instance under the refdes, with the
    package of its class, and prints the line about it; when nothing later
    raises, the load returns, the line is in the output it leaves, and the
    returned mapping holds the instance unless a later entry carries the same
    refdes. *)
Theorem load_survives_missing_footprint :
  forall (filename : string) (parsed : sexp)
         (netlist_contents libparts : list sexp) (part_classes : list PartClass)
         (before after net_sexps : list sexp)
         (component libsource lib part_name rd v : sexp) (cls : PartClass)
         (parts1 parts3 : dict PartInstance) (w w1 w3 w4 : world),
    Better_sexp_init parsed = inr netlist_contents ->
    getitem_section netlist_contents "libparts" = inr libparts ->
    rmap _read_kicad_netlist_partcls libparts = inr part_classes ->
    getitem_section netlist_contents "components"
    = inr (before ++ component :: after) ->
    populate_parts part_classes filename [] before w = (w1, inr parts1) ->
    subscript_str component "libsource" = inr libsource ->
    field libsource "lib" = inr lib ->
    field libsource "part" = inr part_name ->
    find_part_class part_classes lib part_name = Some cls ->
    field component "ref" = inr rd ->
    field component "value" = inr v ->
    hashable rd = true ->
    py_eq rd rd = true ->
    filter (tagged "footprint") (items component) = [] ->
    let new := new_part (next_obj_id w1) cls rd v in
    let inst := set_defined_at new filename in
    let w2 :=
      mkWorld (stdout w1 ++ [does_not_have_a_footprint_defined new])
              (nets w1) (S (next_obj_id w1)) in
    populate_parts part_classes filename (dict_updated parts1 rd inst) after w2
    = (w3, inr parts3) ->
    getitem_section netlist_contents "nets" = inr net_sexps ->
    build_nets parts3 filename net_sexps w3 = (w4, inr tt) ->
    read_kicad_netlist filename parsed w
    = (w4, inr (parts3, BList netlist_contents))
    /\ populate_parts part_classes filename [] (before ++ [component]) w
       = (w2, inr (dict_updated parts1 rd inst))
    /\ dict_get (dict_updated parts1 rd inst) rd = inr inst
    /\ package inst = class_package cls
    /\ (exists out,
           stdout w4
           = stdout w1 ++ does_not_have_a_footprint_defined new :: out)
    /\ ((forall c rd', In c after -> field c "ref" = inr rd' ->
                       py_eq rd' rd = false) ->
        dict_get parts3 rd = inr inst).
Proof.
  intros filename parsed netlist_contents libparts part_classes before after
         net_sexps component libsource lib part_name rd v cls parts1 parts3
         w w1 w3 w4 Hinit Hlp Hcls Hcomps Hbefore Hls Hlib Hpart Hfind Hrd Hv
         Hh Hk Hnone new inst w2 Hafter Hnets Hbuild.
  pose proof (field_missing _ _ _ "footprint" Hrd Hnone) as Hmissing.
  assert (Hfp : forall e, field component "footprint" = inl e ->
                          is_KeyError e = true).
  { intros e He. rewrite Hmissing in He. injection He as <-. reflexivity. }
  pose proof (load_stores_instance
                filename parsed netlist_contents libparts part_classes
                before after net_sexps component libsource lib part_name rd v
                cls parts1 parts3 w w1 w3 w4
                Hinit Hlp Hcls Hcomps Hbefore Hls Hlib Hpart Hfind Hrd Hv
                Hh Hk Hfp) as H.
  cbv zeta in H. rewrite Hmissing in H.
  destruct (H Hafter Hnets Hbuild)
    as (Hread & Hloop & Hget & Hfinal & out & Hout).
  split; [exact Hread |]. split; [exact Hloop |]. split; [exact Hget |].
  split; [reflexivity |]. split; [| exact Hfinal].
  exists out. rewrite Hout. simpl. rewrite <- app_assoc. reflexivity.
Qed.

Lemma load_survives_missing_footprint_witness :
  exists w4 parts3 inst out,
    read_kicad_netlist "sample.net" Sample.netlist_with_footprint empty_world
    = (w4, inr (parts3, Sample.netlist_with_footprint))
    /\ dict_get parts3 (Str "R2") = inr inst
    /\ package inst = class_package Sample.R_class
    /\ stdout w4
       = [] ++ does_not_have_a_footprint_defined
                 (new_part 1 Sample.R_class (Str "R2") (Str "10k")) :: out.
Proof.
  epose proof (load_survives_missing_footprint
                 "sample.net" Sample.netlist_with_footprint _
                 [Sample.R_libpart] [Sample.R_class]
                 [Sample.comp_with_footprint "R1" "10k" "R" "R_0603"] [] _
                 (Sample.comp "R2" "10k" "R")
                 (Sample.libsource "Device" "R") (Str "Device") (Str "R")
                 (Str "R2") (Str "10k") Sample.R_class _ _
                 empty_world _ _ _
                 eq_refl eq_refl eq_refl eq_refl eq_refl eq_refl eq_refl
                 eq_refl eq_refl eq_refl eq_refl eq_refl eq_refl eq_refl
                 eq_refl eq_refl eq_refl)
    as (Hread & _ & _ & Hpkg & (out & Hout) & Hfinal).
  do 3 eexists. exists out. split; [exact Hread |].
  split; [apply Hfinal; intros c rd' [] |].
  split; [exact Hpkg | exact Hout].
Defined.

(** C10: in a load whose loop reaches an entry of the components section
    whose (library, part) pair matches a class of the catalog and perhaps
    others after it, nothing is raised on account of the several matches:
    the loop stores under the entry's refdes an instance of the first
    matching class, in catalog order, with that class's pins, exactly as it
    does with the catalog cut after that class; when nothing later raises,
    the load returns, and the returned mapping holds that instance unless a
    later entry carries the same refdes. *)
Theorem load_takes_first_matching_template :
  forall (filename : string) (parsed : sexp)
         (netlist_contents libparts : list sexp)
         (classes_before classes_after : list PartClass) (cls : PartClass)
         (before after net_sexps : list sexp)
         (component libsource lib part_name rd v : sexp)
         (parts1 parts3 : dict PartInstance) (w w1 w3 w4 : world),
    Better_sexp_init parsed = inr netlist_contents ->
    getitem_section netlist_contents "libparts" = inr libparts ->
    rmap _read_kicad_netlist_partcls libparts
    = inr (classes_before ++ cls :: classes_after) ->
    getitem_section netlist_contents "components"
    = inr (before ++ component :: after) ->
    populate_parts (classes_before ++ cls :: classes_after) filename []
                   before w
    = (w1, inr parts1) ->
    subscript_str component "libsource" = inr libsource ->
    field libsource "lib" = inr lib ->
    field libsource "part" = inr part_name ->
    forallb (fun c => negb (class_matches lib part_name c)) classes_before
    = true ->
    class_matches lib part_name cls = true ->
    field component "ref" = inr rd ->
    field component "value" = inr v ->
    hashable rd = true ->
    py_eq rd rd = true ->
    (forall e, field component "footprint" = inl e -> is_KeyError e = true) ->
    let new := new_part (next_obj_id w1) cls rd v in
    let inst :=
      set_defined_at
        (match field component "footprint" with
         | inr footprint => set_package new footprint
         | inl _ => new
         end) filename in
    let w2 :=
      mkWorld
        (match field component "footprint" with
         | inr _ => stdout w1
         | inl _ => stdout w1 ++ [does_not_have_a_footprint_defined new]
         end) (nets w1) (S (next_obj_id w1)) in
    populate_parts (classes_before ++ cls :: classes_after) filename
                   (dict_updated parts1 rd inst) after w2
    = (w3, inr parts3) ->
    getitem_section netlist_contents "nets" = inr net_sexps ->
    build_nets parts3 filename net_sexps w3 = (w4, inr tt) ->
    read_kicad_netlist filename parsed w
    = (w4, inr (parts3, BList netlist_contents))
    /\ populate_parts (classes_before ++ cls :: classes_after) filename []
                      (before ++ [component]) w
       = (w2, inr (dict_updated parts1 rd inst))
    /\ populate_part (classes_before ++ cls :: classes_after) filename
                     parts1 component w1
       = populate_part (classes_before ++ [cls]) filename parts1 component w1
    /\ dict_get (dict_updated parts1 rd inst) rd = inr inst
    /\ part_class inst = cls
    /\ map pin_def (pins inst) = PINS cls
    /\ ((forall c rd', In c after -> field c "ref" = inr rd' ->
                       py_eq rd' rd = false) ->
        dict_get parts3 rd = inr inst).
Proof.
  intros filename parsed netlist_contents libparts classes_before classes_after
         cls before after net_sexps component libsource lib part_name rd v
         parts1 parts3 w w1 w3 w4 Hinit Hlp Hcls Hcomps Hbefore Hls Hlib Hpart
         Hnot Hmatch Hrd Hv Hh Hk Hfp new inst w2 Hafter Hnets Hbuild.
  pose proof (find_part_class_first classes_before classes_after cls
                lib part_name Hnot Hmatch) as Hfind.
  pose proof (find_part_class_first classes_before [] cls
                lib part_name Hnot Hmatch) as Hfind0.
  destruct (load_stores_instance
              filename parsed netlist_contents libparts
              (classes_before ++ cls :: classes_after)
              before after net_sexps component libsource lib part_name rd v
              cls parts1 parts3 w w1 w3 w4
              Hinit Hlp Hcls Hcomps Hbefore Hls Hlib Hpart Hfind Hrd Hv
              Hh Hk Hfp Hafter Hnets Hbuild)
    as (Hread & Hloop & Hget & Hfinal & _).
  split; [exact Hread |]. split; [exact Hloop |].
  split.
  { rewrite (populate_part_found _ filename parts1 _ _ _ _ _ _ _ w1
               Hls Hlib Hpart Hfind Hrd Hv).
    rewrite (populate_part_found _ filename parts1 _ _ _ _ _ _ _ w1
               Hls Hlib Hpart Hfind0 Hrd Hv).
    reflexivity. }
  split; [exact Hget |].
  assert (Hpins : map pin_def (pins inst) = PINS cls).
  { subst inst new. destruct (field component "footprint");
      apply instantiate_pins_def. }
  subst inst new.
  destruct (field component "footprint"); simpl; repeat split; auto.
Qed.

Lemma load_takes_first_matching_template_witness :
  exists w4 parts3 inst,
    read_kicad_netlist "sample.net" Sample.netlist_two_templates empty_world
    = (w4, inr (parts3, Sample.netlist_two_templates))
    /\ class_matches (Str "Device") (Str "R") Sample.R_class_again = true
    /\ dict_get parts3 (Str "R1") = inr inst
    /\ part_class inst = Sample.R_class
    /\ map pin_def (pins inst) = PINS Sample.R_class.
Proof.
  epose proof (load_takes_first_matching_template
                 "sample.net" Sample.netlist_two_templates _
                 [Sample.R_libpart; Sample.R_libpart_again]
                 [] [Sample.R_class_again] Sample.R_class
                 [] [] _
                 (Sample.comp "R1" "10k" "R")
                 (Sample.libsource "Device" "R") (Str "Device") (Str "R")
                 (Str "R1") (Str "10k") [] _
                 empty_world empty_world _ _
                 eq_refl eq_refl eq_refl eq_refl eq_refl eq_refl eq_refl
                 eq_refl eq_refl eq_refl eq_refl eq_refl eq_refl eq_refl _
                 eq_refl eq_refl eq_refl)
    as (Hread & _ & _ & _ & Hc & Hp & Hfinal).
  do 3 eexists. split; [exact Hread |]. split; [reflexivity |].
  split; [apply Hfinal; intros c rd' [] |].
  split; [exact Hc | exact Hp].
  Unshelve.
  intros e H. vm_compute in H. injection H as <-. reflexivity.
Defined.

Lemma build_nets_app (parts : dict PartInstance) (filename : string)
    (l1 l2 : list sexp) :
  forall w,
    build_nets parts filename (l1 ++ l2) w
    = bind (build_nets parts filename l1)
           (fun _ => build_nets parts filename l2) w.
Proof.
  induction l1 as [| n l1' IH]; simpl; intros w.
  - reflexivity.
  - unfold bind.
    destruct (build_net parts filename n w) as [w1 [e | []]].
    + reflexivity.
    + rewrite IH. reflexivity.
Qed.

(** The context that a load leaves is the one that the loop over the nets
    leaves. *)
Lemma read_kicad_netlist_world (filename : string) (parsed : sexp)
    (netlist_contents net_sexps : list sexp) (parts : dict PartInstance)
    (w w1 : world) :
  Better_sexp_init parsed = inr netlist_contents ->
  load_parts filename netlist_contents w = (w1, inr (parts, net_sexps)) ->
  fst (read_kicad_netlist filename parsed w)
  = fst (build_nets parts filename net_sexps w1).
Proof.
  intros Hinit Hload. unfold read_kicad_netlist.
  rewrite bind_lift, Hinit, (bind_ok _ _ _ _ _ Hload). simpl fst. simpl snd.
  unfold bind.
  destruct (build_nets parts filename net_sexps w1) as [w2 [e | []]];
    reflexivity.
Qed.

(** C3: in a load whose loop over the nets reaches an entry of the nets
    section whose name is a string beginning with [Net-]: when the entry has
    exactly one node, no net is constructed for it, the loop goes on in the
    context as it was, and the context that the load leaves is the one that
    the later entries make of it; when the entry has two or more nodes, a net
    of that name, with the connections of its nodes, is constructed and is in
    the context that the load leaves, after the nets that were there. *)
Theorem load_filters_no_connect_nets :
  forall (filename : string) (parsed : sexp) (netlist_contents : list sexp)
         (parts : dict PartInstance)
         (nets_before nets_after nodes : list sexp) (net_sexp : sexp)
         (name : string) (w w1 w2 : world),
    Better_sexp_init parsed = inr netlist_contents ->
    load_parts filename netlist_contents w
    = (w1, inr (parts, nets_before ++ net_sexp :: nets_after)) ->
    build_nets parts filename nets_before w1 = (w2, inr tt) ->
    field net_sexp "name" = inr (Str name) ->
    String.prefix "Net-" name = true ->
    find_all (items net_sexp) "node" = inr nodes ->
    (List.length nodes = 1 ->
     build_nets parts filename (nets_before ++ [net_sexp]) w1 = (w2, inr tt)
     /\ fst (read_kicad_netlist filename parsed w)
        = fst (build_nets parts filename nets_after w2))
    /\ (2 <= List.length nodes ->
        exists later,
          nets (fst (read_kicad_netlist filename parsed w))
          = nets w2
            ++ mkNet (Str name) (Some filename)
                     (fst (connect_nodes parts [] nodes))
               :: later).
Proof.
  intros filename parsed netlist_contents parts nets_before nets_after nodes
         net_sexp name w w1 w2 Hinit Hload Hbefore Hname Hprefix Hnodes.
  rewrite (read_kicad_netlist_world _ _ _ _ _ _ _ Hinit Hload).
  split; intros Hlen.
  - assert (Hnet : build_net parts filename net_sexp w2 = (w2, inr tt)).
    { unfold build_net.
      rewrite bind_lift, Hname, bind_lift, Hnodes, bind_lift.
      unfold is_no_connect. rewrite Hlen. simpl. rewrite Hprefix.
      reflexivity. }
    split.
    + rewrite build_nets_app, (bind_ok _ _ _ _ _ Hbefore). simpl.
      rewrite (bind_ok _ _ _ _ _ Hnet). reflexivity.
    + rewrite build_nets_app, (bind_ok _ _ _ _ _ Hbefore). simpl.
      rewrite (bind_ok _ _ _ _ _ Hnet). reflexivity.
  - assert (Hnet : build_net parts filename net_sexp w2
                   = (mkWorld (stdout w2)
                              (nets w2
                               ++ [mkNet (Str name) (Some filename)
                                         (fst (connect_nodes parts [] nodes))])
                              (next_obj_id w2),
                      snd (connect_nodes parts [] nodes))).
    { unfold build_net.
      rewrite bind_lift, Hname, bind_lift, Hnodes, bind_lift.
      unfold is_no_connect.
      destruct (Nat.eqb_spec (List.length nodes) 1) as [E | _]; [lia |].
      destruct (connect_nodes parts [] nodes) as [conns outcome].
      reflexivity. }
    rewrite build_nets_app, (bind_ok _ _ _ _ _ Hbefore).
    cbn [build_nets]. unfold bind at 1. rewrite Hnet.
    destruct (snd (connect_nodes parts [] nodes)) as [e | []].
    + exists []. reflexivity.
    + destruct (build_nets_adds parts filename nets_after
                  (mkWorld (stdout w2)
                           (nets w2
                            ++ [mkNet (Str name) (Some filename)
                                      (fst (connect_nodes parts [] nodes))])
                           (next_obj_id w2)))
        as (added & Hw & _).
      exists added. rewrite Hw. simpl. rewrite <- app_assoc. reflexivity.
Qed.

Lemma load_filters_no_connect_nets_witness :
  fst (read_kicad_netlist "sample.net" Sample.netlist empty_world)
  = fst (build_nets
           [(Str "R1",
             set_defined_at (new_part 0 Sample.R_class (Str "R1") (Str "10k"))
                            "sample.net");
            (Str "R2",
             set_defined_at (new_part 1 Sample.R_class (Str "R2") (Str "10k"))
                            "sample.net")]
           "sample.net"
           [Sample.net "Net-(R2-Pad1)"
                       [Sample.node "R1" "2"; Sample.node "R2" "1"]]
           (mkWorld
              [does_not_have_a_footprint_defined
                 (new_part 0 Sample.R_class (Str "R1") (Str "10k"));
               does_not_have_a_footprint_defined
                 (new_part 1 Sample.R_class (Str "R2") (Str "10k"))]
              [mkNet (Str "GND") (Some "sample.net")
                     [mkPartInstancePin 0 0
                        (mkPin ["1"; "3"] ["P1"; "3"]
                               (Str "1,3", Str "P1,3", Str "passive"));
                      mkPartInstancePin 1 1
                        (mkPin ["2"] ["A"; "B"]
                               (Str "2", Str "A/B", Str "passive"))]]
              2))
  /\ exists later,
       nets (fst (read_kicad_netlist "sample.net" Sample.netlist empty_world))
       = [mkNet (Str "GND") (Some "sample.net")
                [mkPartInstancePin 0 0
                   (mkPin ["1"; "3"] ["P1"; "3"]
                          (Str "1,3", Str "P1,3", Str "passive"));
                 mkPartInstancePin 1 1
                   (mkPin ["2"] ["A"; "B"]
                          (Str "2", Str "A/B", Str "passive"))]]
         ++ mkNet (Str "Net-(R2-Pad1)") (Some "sample.net")
                  [mkPartInstancePin 0 1
                     (mkPin ["2"] ["A"; "B"]
                            (Str "2", Str "A/B", Str "passive"));
                   mkPartInstancePin 1 0
                     (mkPin ["1"; "3"] ["P1"; "3"]
                            (Str "1,3", Str "P1,3", Str "passive"))]
            :: later.
Proof.
  split.
  - refine (proj2 (proj1 (load_filters_no_connect_nets
                            "sample.net" Sample.netlist _ _
                            [Sample.net "GND" [Sample.node "R1" "1";
                                               Sample.node "R1" "3";
                                               Sample.node "R2" "2"]]
                            [Sample.net "Net-(R2-Pad1)"
                                        [Sample.node "R1" "2";
                                         Sample.node "R2" "1"]]
                            [Sample.node "R1" "2"]
                            (Sample.net "Net-(R1-Pad2)" [Sample.node "R1" "2"])
                            "Net-(R1-Pad2)" empty_world _ _
                            eq_refl eq_refl eq_refl eq_refl eq_refl eq_refl)
                         eq_refl)).
  - refine (proj2 (load_filters_no_connect_nets
                     "sample.net" Sample.netlist _ _
                     [Sample.net "GND" [Sample.node "R1" "1";
                                        Sample.node "R1" "3";
                                        Sample.node "R2" "2"];
                      Sample.net "Net-(R1-Pad2)" [Sample.node "R1" "2"]]
                     []
                     [Sample.node "R1" "2"; Sample.node "R2" "1"]
                     (Sample.net "Net-(R2-Pad1)"
                                 [Sample.node "R1" "2"; Sample.node "R2" "1"])
                     "Net-(R2-Pad1)" empty_world _ _
                     eq_refl eq_refl eq_refl eq_refl eq_refl eq_refl)
                  _).
    simpl. lia.
Defined.

(** X22: the name of a net is tested for the prefix only when the net has
    exactly one node.  For a name that is a number or a list, which has no
    [startswith], a single-node net makes the loop body raise
    [AttributeError] before any net is registered, while with any other
    number of nodes the net is registered under that name. *)
Theorem net_name_is_tested_only_for_one_node :
  forall (parts : dict PartInstance) (filename : string)
         (net_sexp name : sexp) (nodes : list sexp) (w : world),
    field net_sexp "name" = inr name ->
    ((exists z, name = Int z) \/ (exists l, name = BList l)) ->
    find_all (items net_sexp) "node" = inr nodes ->
    (List.length nodes = 1 ->
     build_net parts filename net_sexp w = (w, inl AttributeError))
    /\ (List.length nodes <> 1 ->
        exists conns,
          nets (fst (build_net parts filename net_sexp w))
          = nets w ++ [mkNet name (Some filename) conns]).
Proof.
  intros parts filename net_sexp name nodes w Hname Hns Hnodes.
  unfold build_net. rewrite bind_lift, Hname, bind_lift, Hnodes, bind_lift.
  unfold is_no_connect. split; intros Hlen.
  - rewrite Hlen. simpl.
    destruct Hns as [(z & ->) | (l & ->)]; reflexivity.
  - destruct (Nat.eqb_spec (List.length nodes) 1) as [E | _]; [contradiction |].
    destruct (connect_nodes parts [] nodes) as [conns outcome].
    exists conns. reflexivity.
Qed.

Lemma net_name_is_tested_only_for_one_node_witness :
  build_net [] "sample.net"
            (BList [Symbol "net"; BList [Symbol "name"; Int 5];
                    Sample.node "R1" "1"])
            empty_world
  = (empty_world, inl AttributeError).
Proof.
  refine (proj1 (net_name_is_tested_only_for_one_node
                   [] "sample.net"
                   (BList [Symbol "net"; BList [Symbol "name"; Int 5];
                           Sample.node "R1" "1"])
                   (Int 5) [Sample.node "R1" "1"] empty_world
                   eq_refl _ eq_refl)
                eq_refl).
  left. exists 5%Z. reflexivity.
Defined.
